(** * Ceph pool usage reports: a shallow embedding of the two report scripts

    The repository holds two Python scripts that fetch the samples of one
    Prometheus metric ([ceph_pool_bytes_used]) for one pool and reduce them to
    per-day or per-month rows:

    - [ceph_usage_report.py] asks Prometheus directly;
    - [ceph_usage_report_via_grafana.py] goes through the Grafana proxy.

    [parse_date], [build_query], [bucket_key] and the body of
    [aggregate_usage] after the fetch are the same text in both files and are
    embedded once; what differs ([query_range], the head of
    [aggregate_usage], [main]) lives in the modules [Direct] and [Grafana].

    Python values are modelled as the interpreter has them:
    - [float] is IEEE-754 binary64, through the reference model [SpecFloat]
      of the standard library (precision 53, [emax] 1024);
    - [int] is [Z]; [str] is [string];
    - an exception is a value of [exn], a computation that may raise returns
      [result];
    - the one effect of the scripts that the properties depend on, the HTTP
      GET of [requests.get], is threaded through an explicit [world];
    - the builtin [sum] adds floats one after the other up to CPython 3.11
      and with a compensation term from 3.12 on: the functions that call it
      take the interpreter, [cpython], as their first argument, and what is
      proved about them holds for both.

    The definitions come first: the Python values, the calendar and the
    conversions of [datetime], the HTTP interface, the two scripts, and the
    vocabulary the properties are stated in.  The facts follow: calendar,
    keys, buckets and sorting, binary64 arithmetic on integers, rows, and
    the properties of the reports; then the properties of the rest of the
    scripts: [parse_date], [build_query], the calendar of the window, the
    order of the keys, the buckets as a partition, rows of byte counts, the
    requests of [main] in the direct script and what [main] prints in the
    Grafana script. *)

From Stdlib Require Import ZArith List String Ascii Bool Lia.
From Stdlib Require Import Sorted Permutation.
From Stdlib Require Import SpecFloat.
Import ListNotations.

#[local] Open Scope string_scope.
#[local] Open Scope Z_scope.

(* ===================================================================== *)
(** * Python exceptions and the error monad *)
(* ===================================================================== *)

Module Py.

(** The exception classes the scripts and the library calls they make can
    raise, each with its message. *)
Inductive exn : Type :=
| ValueError (msg : string)
| OverflowError (msg : string)
| OSError (msg : string)
| ZeroDivisionError (msg : string)
| RuntimeError (msg : string)
| HTTPError (status_code : Z)
| ConnectionError.

Inductive result (A : Type) : Type :=
| Ok (a : A)
| Raise (e : exn).
Arguments Ok {A} a.
Arguments Raise {A} e.

Definition bind {A B : Type} (c : result A) (k : A -> result B) : result B :=
  match c with
  | Ok a => k a
  | Raise e => Raise e
  end.

Definition is_ok {A : Type} (c : result A) : bool :=
  match c with Ok _ => true | Raise _ => false end.

End Py.
Export Py.

Declare Scope py_scope.
Delimit Scope py_scope with py.
Notation "x <- c ;; k" := (Py.bind c (fun x => k))
  (at level 61, c at next level, right associativity) : py_scope.
Notation "' pat <- c ;; k" := (Py.bind c (fun x => match x with pat => k end))
  (at level 61, pat pattern, c at next level, right associativity) : py_scope.
#[local] Open Scope py_scope.

(* ===================================================================== *)
(** * Python [float]: IEEE-754 binary64 *)
(* ===================================================================== *)

(** A Python [float]. *)
Definition float : Type := spec_float.

Module Float64.

Definition prec : Z := 53.
Definition emax : Z := 1024.

Definition pos_zero : float := S754_zero false.
Definition pos_inf : float := S754_infinity false.
Definition nan : float := S754_nan.

(** [float(n)] for an [int]: the nearest binary64, ties to even. *)
Definition of_int (n : Z) : float := binary_normalize prec emax n 0 false.

Definition add (x y : float) : float := SFadd prec emax x y.
Definition sub (x y : float) : float := SFsub prec emax x y.
Definition mul (x y : float) : float := SFmul prec emax x y.
Definition div (x y : float) : float := SFdiv prec emax x y.

(** [x < y], [x <= y], [x > y], [x == y]: all [False] when a NaN is involved. *)
Definition ltb (x y : float) : bool := SFltb x y.
Definition leb (x y : float) : bool := SFleb x y.
Definition gtb (x y : float) : bool := SFltb y x.
Definition eqb (x y : float) : bool := SFeqb x y.

Definition is_nan (x : float) : bool :=
  match x with S754_nan => true | _ => false end.

Definition is_zero (x : float) : bool :=
  match x with S754_zero _ => true | _ => false end.

Definition is_finite (x : float) : bool :=
  match x with S754_zero _ | S754_finite _ _ _ => true | _ => false end.

(** C [fabs]. *)
Definition abs (x : float) : float := SFabs x.

(** [float / int] and [float / float] of Python: the divisor is converted
    to [float]; a zero divisor raises instead of giving an infinity. *)
Definition truediv (x y : float) : result float :=
  if is_zero y then Raise (ZeroDivisionError "float division by zero")
  else Ok (div x y).

Definition truediv_int (x : float) (n : Z) : result float :=
  truediv x (of_int n).

(** The literal [0.1] ([0x1.999999999999ap-4]). *)
Definition one_tenth : float := S754_finite false 7205759403792794 (-56).

(** ** The shape of the floats of whole numbers *)

(** A mantissa of full width. *)
Definition canonical (m : positive) : Prop := 2 ^ 52 <= Z.pos m < 2 ^ 53.

(** The mantissa and the exponent of [float(n)], [0 < n < 2^53]. *)
Definition mant (n : Z) : positive := Z.to_pos (n * 2 ^ (52 - Z.log2 n)).
Definition expo (n : Z) : Z := Z.log2 n - 52.

(** ** The order of floats, NaN apart

    [rank] sends the floats that are not NaN to triples whose
    lexicographic order is the order of [SFcompare]. *)
Definition rank (x : float) : Z * Z * Z :=
  match x with
  | S754_infinity true => (-2, 0, 0)
  | S754_finite true m e => (-1, - e, - Z.pos m)
  | S754_zero _ => (0, 0, 0)
  | S754_finite false m e => (1, e, Z.pos m)
  | S754_infinity false => (2, 0, 0)
  | S754_nan => (3, 0, 0)
  end.

Definition lex_compare (a b : Z * Z * Z) : comparison :=
  let '(a1, a2, a3) := a in
  let '(b1, b2, b3) := b in
  match a1 ?= b1 with
  | Eq => match a2 ?= b2 with
          | Eq => a3 ?= b3
          | c => c
          end
  | c => c
  end.

Definition lex_le (a b : Z * Z * Z) : Prop :=
  let '(a1, a2, a3) := a in
  let '(b1, b2, b3) := b in
  a1 < b1 \/ (a1 = b1 /\ (a2 < b2 \/ (a2 = b2 /\ a3 <= b3))).

End Float64.

(* ===================================================================== *)
(** * Formatting integers *)
(* ===================================================================== *)

Module Fmt.

(** The character of a decimal digit [0 <= d <= 9]. *)
Definition digit_char (d : Z) : ascii := ascii_of_nat (48 + Z.to_nat d).

Fixpoint digits_of (fuel : nat) (n : Z) (acc : string) : string :=
  let acc' := String (digit_char (n mod 10)) acc in
  match fuel with
  | O => acc'
  | S fuel' => if n / 10 =? 0 then acc' else digits_of fuel' (n / 10) acc'
  end.

(** [str(n)] for [0 <= n]. *)
Definition str_of_nonneg (n : Z) : string :=
  digits_of (Z.to_nat (Z.log2 n)) n EmptyString.

Fixpoint zeros (k : nat) : string :=
  match k with
  | O => EmptyString
  | S k' => String "0" (zeros k')
  end.

(** [format(n, "0<width>d")]: the sign, then the digits padded with zeros on
    the left up to [width] characters in all. *)
Definition zfill (width : nat) (n : Z) : string :=
  if n <? 0 then
    let s := str_of_nonneg (- n) in
    String "-" (zeros (width - 1 - String.length s) ++ s)
  else
    let s := str_of_nonneg n in
    zeros (width - String.length s) ++ s.

(** [str(n)], also what [%i] prints. *)
Definition str_of_int (n : Z) : string := zfill 0 n.

End Fmt.

(* ===================================================================== *)
(** * The proleptic Gregorian calendar of [datetime] *)
(* ===================================================================== *)

Module Calendar.

Definition MINYEAR : Z := 1.
Definition MAXYEAR : Z := 9999.

Definition is_leap (year : Z) : bool :=
  (year mod 4 =? 0) && (negb (year mod 100 =? 0) || (year mod 400 =? 0)).

(** Number of days before January 1st of [year], counted from 0001-01-01. *)
Definition days_before_year (year : Z) : Z :=
  let y := year - 1 in
  y * 365 + y / 4 - y / 100 + y / 400.

Definition days_in_month (year month : Z) : Z :=
  match month with
  | 1 => 31
  | 2 => if is_leap year then 29 else 28
  | 3 => 31
  | 4 => 30
  | 5 => 31
  | 6 => 30
  | 7 => 31
  | 8 => 31
  | 9 => 30
  | 10 => 31
  | 11 => 30
  | 12 => 31
  | _ => 0
  end.

(** Number of days of a common year before the first of [month]. *)
Definition DAYS_BEFORE_MONTH (month : Z) : Z :=
  match month with
  | 1 => 0
  | 2 => 31
  | 3 => 59
  | 4 => 90
  | 5 => 120
  | 6 => 151
  | 7 => 181
  | 8 => 212
  | 9 => 243
  | 10 => 273
  | 11 => 304
  | 12 => 334
  | _ => 0
  end.

Definition days_before_month (year month : Z) : Z :=
  DAYS_BEFORE_MONTH month + (if (2 <? month) && is_leap year then 1 else 0).

(** A date the [date] constructor accepts. *)
Definition valid_date (year month day : Z) : bool :=
  (MINYEAR <=? year) && (year <=? MAXYEAR) &&
  (1 <=? month) && (month <=? 12) &&
  (1 <=? day) && (day <=? days_in_month year month).

(** Ordinal of a date, 0001-01-01 being day 1. *)
Definition ymd2ord (year month day : Z) : Z :=
  days_before_year year + days_before_month year month + day.

Definition DI400Y : Z := 146097.
Definition DI100Y : Z := 36524.
Definition DI4Y : Z := 1461.

(** The date of an ordinal; with floor division it extends to the years
    before 1, which [gmtime] computes the same way. *)
Definition ord2ymd (ordinal : Z) : Z * Z * Z :=
  let n := ordinal - 1 in
  let n400 := n / DI400Y in
  let n := n mod DI400Y in
  let year := n400 * 400 + 1 in
  let n100 := n / DI100Y in
  let n := n mod DI100Y in
  let n4 := n / DI4Y in
  let n := n mod DI4Y in
  let n1 := n / 365 in
  let n := n mod 365 in
  let year := year + n100 * 100 + n4 * 4 + n1 in
  if (n1 =? 4) || (n100 =? 4) then (year - 1, 12, 31)
  else
    let leapyear := (n1 =? 3) && (negb (n4 =? 24) || (n100 =? 3)) in
    let month := Z.shiftr (n + 50) 5 in
    let preceding :=
      DAYS_BEFORE_MONTH month + (if (2 <? month) && leapyear then 1 else 0) in
    if n <? preceding then
      let month' := month - 1 in
      let preceding' :=
        preceding - (days_in_month 1 month'
                     + (if (month' =? 2) && leapyear then 1 else 0)) in
      (year, month', n - preceding' + 1)
    else (year, month, n - preceding + 1).

(** Ordinal of 1970-01-01 and of 9999-12-31. *)
Definition EPOCH_ORDINAL : Z := 719163.
Definition MAXORDINAL : Z := 3652059.

End Calendar.

(* ===================================================================== *)
(** * [datetime]: the library calls of the scripts *)
(* ===================================================================== *)

Module Datetime.
Import Calendar.

(** A naive [datetime.datetime]. *)
Record datetime : Type := mk_datetime {
  year : Z;
  month : Z;
  day : Z;
  hour : Z;
  minute : Z;
  second : Z;
  microsecond : Z
}.

(** ** [datetime.utcfromtimestamp]

    CPython splits the float with [modf], multiplies the fraction by [1e6]
    in binary64, rounds that product half-to-even to a whole number of
    microseconds, carries into the seconds, checks that the seconds fit
    [time_t] (64 bits), calls the C [gmtime] and hands its fields to the
    [datetime] constructor, which checks the year. No step reads the
    time zone of the host. *)

(** C [modf] on a finite float: the fraction (with the sign of [d]) and the
    integral part, truncated toward zero, as an integer. *)
Definition modf (d : float) : float * Z :=
  match d with
  | S754_finite s m e =>
      if 0 <=? e then (S754_zero s, cond_Zopp s (Z.pos m * 2 ^ e))
      else
        let q := Z.pos m / 2 ^ (- e) in
        let r := Z.pos m mod 2 ^ (- e) in
        (binary_normalize Float64.prec Float64.emax (cond_Zopp s r) e s,
         cond_Zopp s q)
  | _ => (d, 0)
  end.

(** Rounding a finite float to the nearest integer, ties to even. *)
Definition round_half_even (x : float) : Z :=
  match x with
  | S754_finite s m e =>
      if 0 <=? e then cond_Zopp s (Z.pos m * 2 ^ e)
      else
        let q := Z.pos m / 2 ^ (- e) in
        let r := Z.pos m mod 2 ^ (- e) in
        let half := 2 ^ (- e - 1) in
        cond_Zopp s
          (if r <? half then q
           else if half <? r then q + 1
           else if Z.even q then q else q + 1)
  | _ => 0
  end.

Definition TIME_T_MIN : Z := - 2 ^ 63.
Definition TIME_T_MAX : Z := 2 ^ 63 - 1.

(** Seconds and microseconds of a timestamp. *)
Definition timeval_of_float (d : float) : result (Z * Z) :=
  match d with
  | S754_nan => Raise (ValueError "Invalid value NaN (not a number)")
  | S754_infinity _ =>
      Raise (OverflowError "timestamp out of range for platform time_t")
  | _ =>
      let '(frac, intpart) := modf d in
      let us := round_half_even (Float64.mul frac (Float64.of_int 1000000)) in
      let '(sec, us) :=
        if 1000000 <=? us then (intpart + 1, us - 1000000)
        else if us <? 0 then (intpart - 1, us + 1000000)
        else (intpart, us) in
      if (TIME_T_MIN <=? sec) && (sec <=? TIME_T_MAX) then Ok (sec, us)
      else Raise (OverflowError "timestamp out of range for platform time_t")
  end.

Definition INT_MIN : Z := - 2 ^ 31.
Definition INT_MAX : Z := 2 ^ 31 - 1.

(** Number of whole days between the epoch and second [sec] (floor). *)
Definition epoch_day (sec : Z) : Z := sec / 86400.

(** C [gmtime]: year, month, day, hour, minute, second; it fails when the
    year does not fit the [int] field [tm_year]. *)
Definition gmtime (sec : Z) : result (Z * Z * Z * Z * Z * Z) :=
  let rem := sec mod 86400 in
  let '(y, m, d) := ord2ymd (epoch_day sec + EPOCH_ORDINAL) in
  if (INT_MIN <=? y - 1900) && (y - 1900 <=? INT_MAX)
  then Ok (y, m, d, rem / 3600, rem mod 3600 / 60, rem mod 60)
  else Raise (OSError "[Errno 75] Value too large for defined data type").

(** The [datetime] constructor on fields that are a time of day already:
    it checks the date. *)
Definition new_datetime (y m d hh mm ss us : Z) : result datetime :=
  if negb ((MINYEAR <=? y) && (y <=? MAXYEAR))
  then Raise (ValueError ("year " ++ Fmt.str_of_int y ++ " is out of range"))
  else if negb ((1 <=? m) && (m <=? 12))
  then Raise (ValueError "month must be in 1..12")
  else if negb ((1 <=? d) && (d <=? days_in_month y m))
  then Raise (ValueError "day is out of range for month")
  else Ok (mk_datetime y m d hh mm ss us).

Definition utcfromtimestamp (ts : float) : result datetime :=
  '(sec, us) <- timeval_of_float ts ;;
  '(y, m, d, hh, mm, ss) <- gmtime sec ;;
  new_datetime y m d hh mm ss us.

(** ** Formatting *)

(** [date.isoformat()]. *)
Definition date_isoformat (t : datetime) : string :=
  Fmt.zfill 4 (year t) ++ "-" ++ Fmt.zfill 2 (month t) ++ "-"
    ++ Fmt.zfill 2 (day t).

(** [datetime.isoformat()]. *)
Definition isoformat (t : datetime) : string :=
  date_isoformat t ++ "T" ++ Fmt.zfill 2 (hour t) ++ ":"
    ++ Fmt.zfill 2 (minute t) ++ ":" ++ Fmt.zfill 2 (second t)
    ++ (if microsecond t =? 0 then EmptyString
        else "." ++ Fmt.zfill 6 (microsecond t)).

(** ** [datetime + timedelta(days=n)] *)

Definition toordinal (t : datetime) : Z := ymd2ord (year t) (month t) (day t).

Definition add_days (t : datetime) (n : Z) : result datetime :=
  let o := toordinal t + n in
  if (1 <=? o) && (o <=? MAXORDINAL) then
    let '(y, m, d) := ord2ymd o in
    Ok (mk_datetime y m d (hour t) (minute t) (second t) (microsecond t))
  else Raise (OverflowError "date value out of range").

(** ** [datetime.strptime(s, "%Y-%m-%d")]

    The format compiles to the regular expression
    [(\d\d\d\d)-(1[0-2]|0[1-9]|[1-9])-(3[01]|[12]\d|0[1-9]|[1-9]| [1-9])],
    matched at the start of the text; text left over after the match is
    an error. Characters are bytes here: of the decimal digits of Unicode
    that [\d] accepts, the model has the ASCII ones. *)

Definition code (c : ascii) : Z := Z.of_nat (nat_of_ascii c).
Definition in_range (lo hi : ascii) (c : ascii) : bool :=
  (code lo <=? code c) && (code c <=? code hi).
Definition is_digit (c : ascii) : bool := in_range "0" "9" c.
Definition digit_val (c : ascii) : Z := code c - 48.
Definition is_char (x c : ascii) : bool := code x =? code c.

(** Group [Y]: four digits. *)
Definition match_Y (s : string) : option (Z * string) :=
  match s with
  | String a (String b (String c (String d rest))) =>
      if is_digit a && is_digit b && is_digit c && is_digit d
      then Some (1000 * digit_val a + 100 * digit_val b
                 + 10 * digit_val c + digit_val d, rest)
      else None
  | _ => None
  end.

Definition match_lit (x : ascii) (s : string) : option string :=
  match s with
  | String a rest => if is_char x a then Some rest else None
  | EmptyString => None
  end.

(** One alternative of two characters, one of one character. *)
Definition alt2 (p1 p2 : ascii -> bool) (s : string) : option (Z * string) :=
  match s with
  | String a (String b rest) =>
      if p1 a && p2 b then Some (10 * digit_val a + digit_val b, rest)
      else None
  | _ => None
  end.
Definition alt1 (p : ascii -> bool) (s : string) : option (Z * string) :=
  match s with
  | String a rest => if p a then Some (digit_val a, rest) else None
  | EmptyString => None
  end.
(** The alternative [ [1-9]]: a space, then a digit. *)
Definition alt_sp (s : string) : option (Z * string) :=
  match s with
  | String a (String b rest) =>
      if is_char " " a && in_range "1" "9" b then Some (digit_val b, rest)
      else None
  | _ => None
  end.

(** The alternatives of group [m] and of group [d], in the order the
    regular expression tries them. *)
Definition month_alts : list (string -> option (Z * string)) :=
  [ alt2 (is_char "1") (in_range "0" "2");
    alt2 (is_char "0") (in_range "1" "9");
    alt1 (in_range "1" "9") ].
Definition day_alts : list (string -> option (Z * string)) :=
  [ alt2 (is_char "3") (in_range "0" "1");
    alt2 (in_range "1" "2") is_digit;
    alt2 (is_char "0") (in_range "1" "9");
    alt1 (in_range "1" "9");
    alt_sp ].

(** Ordered choice with backtracking: the first alternative after which
    the continuation [k] matches. *)
Fixpoint first_alt {A : Type} (alts : list (string -> option (Z * string)))
    (k : Z -> string -> option A) (s : string) : option A :=
  match alts with
  | [] => None
  | alt :: alts' =>
      match alt s with
      | Some (v, rest) =>
          match k v rest with
          | Some r => Some r
          | None => first_alt alts' k s
          end
      | None => first_alt alts' k s
      end
  end.

(** The match of the whole expression: year, month, day and the text left. *)
Definition match_format (s : string) : option (Z * Z * Z * string) :=
  match match_Y s with
  | Some (y, s1) =>
      match match_lit "-" s1 with
      | Some s2 =>
          first_alt month_alts
            (fun m s3 =>
               match match_lit "-" s3 with
               | Some s4 =>
                   first_alt day_alts (fun d s5 => Some (y, m, d, s5)) s4
               | None => None
               end) s2
      | None => None
      end
  | None => None
  end.

Definition strptime_ymd (s : string) : result datetime :=
  match match_format s with
  | None =>
      Raise (ValueError
               ("time data '" ++ s ++ "' does not match format '%Y-%m-%d'"))
  | Some (y, m, d, EmptyString) => new_datetime y m d 0 0 0 0
  | Some (_, _, _, rest) =>
      Raise (ValueError ("unconverted data remains: " ++ rest))
  end.

End Datetime.

(* ===================================================================== *)
(** * The environment: [requests.get] and [os.getenv] *)
(* ===================================================================== *)

Module Http.

Record request : Type := mk_request {
  url : string;
  params : list (string * string);
  headers : list (string * string);
  timeout : option Z
}.

(** One series of a range-query answer: its [values], each pair already
    through [float(ts)] and [float(val)]. *)
Definition series : Type := list (float * float).

(** The decoded JSON body: [data["status"]] and [data["data"]["result"]]. *)
Record payload : Type := mk_payload {
  status : string;
  data_result : list series
}.

(** What [requests.get] and [r.json()] hand to the script: [NoReply]
    when the connection fails and [requests] raises; otherwise the status
    code and the decoded body. The failures of the decoding (a body that
    is not JSON or lacks a key that the scripts read, a value that
    [float] refuses) and a backend that never answers are outside the
    model. *)
Inductive reply : Type :=
| NoReply
| Reply (status_code : Z) (body : payload).

(** The world outside the process: what the backend answers to a request,
    given the requests it has seen; the environment variables; and the
    requests sent so far, the trace of the I/O done. *)
Record world : Type := mk_world {
  backend : list request -> request -> reply;
  getenv : string -> option string;
  sent : list request
}.

(** A computation that may do I/O and may raise. *)
Definition IO (A : Type) : Type := world -> result A * world.

Definition ret {A : Type} (a : A) : IO A := fun w => (Ok a, w).
Definition lift {A : Type} (c : result A) : IO A := fun w => (c, w).
Definition io_bind {A B : Type} (c : IO A) (k : A -> IO B) : IO B :=
  fun w =>
    match c w with
    | (Ok a, w') => k a w'
    | (Raise e, w') => (Raise e, w')
    end.

(** [requests.get(url, params=..., headers=..., timeout=...)] *)
Definition requests_get (req : request) : world -> reply * world :=
  fun w =>
    (backend w (sent w) req,
     mk_world (backend w) (getenv w) (sent w ++ [req])%list).

(** [r.raise_for_status()] raises for the 4xx and 5xx codes. *)
Definition is_error_status (code : Z) : bool :=
  (400 <=? code) && (code <? 600).

End Http.

Declare Scope io_scope.
Delimit Scope io_scope with io.
Notation "x <- c ;; k" := (Http.io_bind c (fun x => k))
  (at level 61, c at next level, right associativity) : io_scope.

(* ===================================================================== *)
(** * The code shared by the two scripts *)
(* ===================================================================== *)

Import Datetime Http.

Definition METRIC : string := "ceph_pool_bytes_used".
Definition STEP : string := "1h".

(** The double-quote character. *)
Definition dquote : string := String (ascii_of_nat 34) EmptyString.

Definition parse_date (s : string) : result datetime := strptime_ymd s.

Definition build_query (pool_id : string) : string :=
  METRIC ++ "{pool_id=" ++ dquote ++ pool_id ++ dquote ++ "}".

(** The [params] dictionary of [query_range]. *)
Definition query_params (pool_id : string) (start end_ : datetime)
    (step : string) : list (string * string) :=
  [ ("query", build_query pool_id);
    ("start", isoformat start ++ "Z");
    ("end", isoformat end_ ++ "Z");
    ("step", step) ].

(** What both [query_range] do with the answer; [label] is the prefix of the
    message of the [RuntimeError], whose tail (the printed body) is left out. *)
Definition samples_of_reply (label : string) (r : reply)
  : result (list (float * float)) :=
  match r with
  | NoReply => Raise ConnectionError
  | Reply code data =>
      if is_error_status code then Raise (HTTPError code)
      else if negb (String.eqb (status data) "success")
      then Raise (RuntimeError label)
      else
        match data_result data with
        | [] => Ok []
        | values :: _ => Ok values
        end
  end.

Definition bucket_key (ts : float) (group_by : string) : result string :=
  t <- utcfromtimestamp ts ;;
  if String.eqb group_by "day" then Ok (date_isoformat t)
  else if String.eqb group_by "month"
  then Ok (Fmt.zfill 4 (year t) ++ "-" ++ Fmt.zfill 2 (month t))
  else Raise (ValueError "group_by must be 'day' or 'month'").

(** ** [buckets = defaultdict(list)] *)

(** A dictionary from period to values, in insertion order. *)
Definition buckets_t : Type := list (string * list float).

(** [buckets[k].append(val)]: a missing key enters at the end with the list
    [[val]]. *)
Fixpoint bucket_append (k : string) (val : float) (buckets : buckets_t)
  : buckets_t :=
  match buckets with
  | [] => [(k, [val])]
  | (k', vals) :: rest =>
      if String.eqb k k' then (k', (vals ++ [val])%list) :: rest
      else (k', vals) :: bucket_append k val rest
  end.

(** [buckets.keys()] *)
Definition keys (buckets : buckets_t) : list string := map fst buckets.

(** [buckets[period]] as a value; on a miss a [defaultdict] gives a new empty
    list (and would store it, which no later step could see). *)
Fixpoint getitem (buckets : buckets_t) (period : string) : list float :=
  match buckets with
  | [] => []
  | (k, vals) :: rest =>
      if String.eqb period k then vals else getitem rest period
  end.

(** The loop [for ts, val in samples]. *)
Fixpoint fill_buckets (samples : list (float * float)) (group_by : string)
    (buckets : buckets_t) : result buckets_t :=
  match samples with
  | [] => Ok buckets
  | (ts, val) :: rest =>
      k <- bucket_key ts group_by ;;
      fill_buckets rest group_by (bucket_append k val buckets)
  end.

(** ** The builtins [sorted], [sum], [len], [max] *)

Fixpoint insert_sorted (x : string) (l : list string) : list string :=
  match l with
  | [] => [x]
  | y :: l' => if String.ltb x y then x :: l else y :: insert_sorted x l'
  end.

(** [sorted] on strings: a stable sort by code points. *)
Definition sorted (l : list string) : list string :=
  fold_left (fun acc x => insert_sorted x acc) l [].

(** The interpreter. [sum] adds floats one after the other before CPython
    3.12 and with the compensation of Neumaier from 3.12 on. *)
Inductive cpython : Type :=
| Before_3_12
| Since_3_12.

(** What [sum] returns: the [int] 0 it starts from when there is nothing to
    add, a [float] otherwise. *)
Inductive number : Type :=
| PyInt (n : Z)
| PyFloat (x : float).

(** The loop of [sum] from 3.12 on: the running sum [f] and the
    compensation [c]. *)
Fixpoint compensated (vals : list float) (f c : float) : float * float :=
  match vals with
  | [] => (f, c)
  | x :: rest =>
      let t := Float64.add f x in
      let c' :=
        if Float64.leb (Float64.abs x) (Float64.abs f)
        then Float64.add c (Float64.add (Float64.sub f t) x)
        else Float64.add c (Float64.add (Float64.sub x t) f) in
      compensated rest t c'
  end.

(** The float that [sum] returns for a list of floats that is not empty.
    The first value is added to the [int] 0; the compensation is added at
    the end when it is finite and not zero. *)
Definition float_sum (py : cpython) (vals : list float) : float :=
  match py with
  | Before_3_12 => fold_left Float64.add vals Float64.pos_zero
  | Since_3_12 =>
      match vals with
      | [] => Float64.pos_zero
      | v :: rest =>
          let '(f, c) :=
            compensated rest (Float64.add Float64.pos_zero v)
                        Float64.pos_zero in
          if negb (Float64.is_zero c) && Float64.is_finite c
          then Float64.add f c
          else f
      end
  end.

Definition py_sum (py : cpython) (vals : list float) : number :=
  match vals with
  | [] => PyInt 0
  | _ => PyFloat (float_sum py vals)
  end.

Definition len {A : Type} (l : list A) : Z := Z.of_nat (List.length l).

(** [number / int] *)
Definition py_truediv (a : number) (n : Z) : result float :=
  match a with
  | PyInt k =>
      if n =? 0 then Raise (ZeroDivisionError "division by zero")
      else Ok (Float64.div (Float64.of_int k) (Float64.of_int n))
  | PyFloat x => Float64.truediv_int x n
  end.

(** [max]: the first item that no later item exceeds. *)
Definition py_max (vals : list float) : result float :=
  match vals with
  | [] => Raise (ValueError "max() arg is an empty sequence")
  | v :: rest =>
      Ok (fold_left (fun m x => if Float64.gtb x m then x else m) rest v)
  end.

(** ** The rows *)

Record row : Type := mk_row {
  period : string;
  avg_bytes : float;
  max_bytes : float;
  avg_gib : float;
  max_gib : float
}.

(** The loop [for period in sorted(buckets.keys())]. *)
Fixpoint build_rows (py : cpython) (periods : list string)
    (buckets : buckets_t) : result (list row) :=
  match periods with
  | [] => Ok []
  | period :: rest =>
      let vals := getitem buckets period in
      avg_bytes <- py_truediv (py_sum py vals) (len vals) ;;
      max_bytes <- py_max vals ;;
      avg_gib <- Float64.truediv_int avg_bytes (1024 ^ 3) ;;
      max_gib <- Float64.truediv_int max_bytes (1024 ^ 3) ;;
      rows <- build_rows py rest buckets ;;
      Ok (mk_row period avg_bytes max_bytes avg_gib max_gib :: rows)
  end.

(** The body of [aggregate_usage] from [if not samples] on, the same in both
    scripts. *)
Definition aggregate_samples (py : cpython) (samples : list (float * float))
    (group_by : string) : result (list row) :=
  match samples with
  | [] => Raise (ValueError "No data in this interval")
  | _ =>
      buckets <- fill_buckets samples group_by [] ;;
      build_rows py (sorted (keys buckets)) buckets
  end.

(* ===================================================================== *)
(** * [ceph_usage_report.py] *)
(* ===================================================================== *)

Module Direct.

Definition PROM_URL : string := "http://171.244.195.198:9095".

Definition query_range (pool_id : string) (start end_ : datetime)
    (step : string) : IO (list (float * float)) :=
  fun w =>
    let req :=
      mk_request (PROM_URL ++ "/api/v1/query_range")
                 (query_params pool_id start end_ step) [] None in
    let '(r, w') := requests_get req w in
    (samples_of_reply "Prometheus error" r, w').

Definition aggregate_usage (py : cpython)
    (pool_id from_date to_date group_by : string) : IO (list row) :=
  (start <- lift (parse_date from_date) ;;
   end_ <- lift (t <- parse_date to_date ;; add_days t 1)%py ;;
   samples <- query_range pool_id start end_ STEP ;;
   lift (aggregate_samples py samples group_by))%io.

(** [main] without its [print]s: the rows of the daily and of the monthly
    report. *)
Definition main (py : cpython) : IO (list row * list row) :=
  (daily <- aggregate_usage py "7" "2025-10-01" "2025-11-30" "day" ;;
   monthly <- aggregate_usage py "7" "2025-10-01" "2025-11-30" "month" ;;
   ret (daily, monthly))%io.

End Direct.

(* ===================================================================== *)
(** * [ceph_usage_report_via_grafana.py] *)
(* ===================================================================== *)

Module Grafana.

Definition GRAFANA_URL : string := "http://192.168.169.30:3000".
Definition DATASOURCE_ID : Z := 2.

(** [API_TOKEN = os.getenv("GRAFANA_API_TOKEN")] *)
Definition API_TOKEN (w : world) : option string :=
  getenv w "GRAFANA_API_TOKEN".

Definition grafana_headers (w : world) : list (string * string) :=
  match API_TOKEN w with
  | Some (String c token) =>
      [("Authorization", "Bearer " ++ String c token)]
  | _ => []
  end.

Definition query_range (pool_id : string) (start end_ : datetime)
    (step : string) : IO (list (float * float)) :=
  fun w =>
    let url :=
      GRAFANA_URL ++ "/api/datasources/proxy/"
        ++ Fmt.str_of_int DATASOURCE_ID ++ "/api/v1/query_range" in
    let req :=
      mk_request url (query_params pool_id start end_ step)
                 (grafana_headers w) (Some 30) in
    let '(r, w') := requests_get req w in
    (samples_of_reply "Grafana/Prometheus error" r, w').

Definition aggregate_usage (py : cpython) (pool_id : string)
    (start end_ : datetime) (group_by : string) : IO (list row) :=
  (samples <- query_range pool_id start end_ STEP ;;
   lift (aggregate_samples py samples group_by))%io.

(** The result of [parse_args]; that [argparse] admits no [group_by] but
    [day] and [month] is not part of the record. *)
Record args_t : Type := mk_args {
  arg_pool_id : string;
  arg_from_date : string;
  arg_to_date : string;
  arg_group_by : string
}.

(** [main] after [parse_args], without its [print]s: the rows it prints. *)
Definition main (py : cpython) (args : args_t) : IO (list row) :=
  (from_date <- lift (parse_date (arg_from_date args)) ;;
   to_date <- lift (t <- parse_date (arg_to_date args) ;; add_days t 1)%py ;;
   aggregate_usage py (arg_pool_id args) from_date to_date
     (arg_group_by args))%io.

End Grafana.

(* ===================================================================== *)
(** * The vocabulary of the properties *)
(* ===================================================================== *)

(** The keys the bucket-key function gives to the samples, in order; the
    first error when it fails on one. *)
Fixpoint sample_keys (samples : list (float * float)) (group_by : string)
  : result (list string) :=
  match samples with
  | [] => Ok []
  | (ts, _) :: rest =>
      k <- bucket_key ts group_by ;;
      ks <- sample_keys rest group_by ;;
      Ok (k :: ks)
  end.

(** The values of the samples whose key is [p], in the order of the
    samples: the bucket of period [p]. *)
Fixpoint bucket_values (samples : list (float * float)) (group_by : string)
    (p : string) : list float :=
  match samples with
  | [] => []
  | (ts, val) :: rest =>
      match bucket_key ts group_by with
      | Ok k =>
          if String.eqb k p then val :: bucket_values rest group_by p
          else bucket_values rest group_by p
      | Raise _ => bucket_values rest group_by p
      end
  end.

(** Number of distinct strings of a list. *)
Definition distinct (ks : list string) : nat :=
  List.length (nodup string_dec ks).

(** [v] is a greatest (a least) element of [vals] for the order of floats. *)
Definition is_maximum (v : float) (vals : list float) : Prop :=
  In v vals /\ forall x, In x vals -> Float64.leb x v = true.
Definition is_minimum (v : float) (vals : list float) : Prop :=
  In v vals /\ forall x, In x vals -> Float64.leb v x = true.

Definition no_nan (vals : list float) : Prop :=
  forall x, In x vals -> Float64.is_nan x = false.

Definition Zsum (ns : list Z) : Z := fold_right Z.add 0 ns.

(** Floats that hold whole, non-negative byte counts whose total is below
    [2^53], so that every partial sum is a binary64. *)
Definition byte_counts (vals : list float) (ns : list Z) : Prop :=
  vals = map Float64.of_int ns /\ (forall n, In n ns -> 0 <= n) /\
  Zsum ns < 2 ^ 53.

(** What a row holds, given the dictionary. *)
Definition row_of_bucket (py : cpython) (buckets : buckets_t) (r : row)
  : Prop :=
  let vals := getitem buckets (period r) in
  vals <> [] /\
  avg_bytes r = Float64.div (float_sum py vals) (Float64.of_int (len vals)) /\
  py_max vals = Ok (max_bytes r) /\
  avg_gib r = Float64.div (avg_bytes r) (Float64.of_int (1024 ^ 3)) /\
  max_gib r = Float64.div (max_bytes r) (Float64.of_int (1024 ^ 3)).

(** The exceptions that the conversion of a timestamp and the check of the
    mode can raise. *)
Definition key_error (e : exn) : Prop :=
  match e with
  | ValueError _ | OverflowError _ | OSError _ => True
  | _ => False
  end.

(** Lexicographic order of strings by character code. *)
Definition str_le (a b : string) : Prop := String.leb a b = true.
Definition str_lt (a b : string) : Prop := String.ltb a b = true.

(** The key formats. *)
Definition day_key (y m d : Z) : string :=
  Fmt.zfill 4 y ++ "-" ++ Fmt.zfill 2 m ++ "-" ++ Fmt.zfill 2 d.
Definition month_key (y m : Z) : string :=
  Fmt.zfill 4 y ++ "-" ++ Fmt.zfill 2 m.

(** The UTC calendar day of an instant given exactly, as the number of days
    since the epoch: the floor of the float over 86400. *)
Definition exact_epoch_day (ts : float) : option Z :=
  match ts with
  | S754_zero _ => Some 0
  | S754_finite s m e =>
      if 0 <=? e then Some (cond_Zopp s (Z.pos m * 2 ^ e) / 86400)
      else Some (cond_Zopp s (Z.pos m) / (2 ^ (- e) * 86400))
  | _ => None
  end.

(** [(y, m, d)] is the date of the calendar whose day number, counted from
    the epoch, is [n]. *)
Definition date_of_epoch_day (n y m d : Z) : Prop :=
  1 <= m <= 12 /\ 1 <= d <= Calendar.days_in_month y m /\
  Calendar.ymd2ord y m d = Calendar.EPOCH_ORDINAL + n.

(** The seconds whose UTC date has a year [datetime] can hold. *)
Definition MIN_SECOND : Z := -62135596800.
Definition MAX_SECOND : Z := 253402300799.

(** ** The sentences of the specification that the code does not meet,
    as they are written *)

Module AsStated.

(** Every row has the maximum of its bucket and an average between the
    least and the greatest value of the bucket. *)
Definition avg_max_of_bucket (py : cpython)
    (samples : list (float * float)) (group_by : string) : Prop :=
  forall rows r,
    aggregate_samples py samples group_by = Ok rows -> In r rows ->
    let vals := bucket_values samples group_by (period r) in
    is_maximum (max_bytes r) vals /\
    forall lo hi, is_minimum lo vals -> is_maximum hi vals ->
      Float64.leb lo (avg_bytes r) = true /\
      Float64.leb (avg_bytes r) hi = true.

(** A non-empty sample sequence gives at least one row, as many rows as
    there are distinct keys. *)
Definition row_count (py : cpython) (samples : list (float * float))
    (group_by : string) : Prop :=
  samples <> [] ->
  exists rows,
    aggregate_samples py samples group_by = Ok rows /\
    (1 <= List.length rows)%nat /\
    forall ks, sample_keys samples group_by = Ok ks ->
               List.length rows = distinct ks.

(** The day key of a timestamp is the ISO form of its UTC calendar date,
    the month key the year and month of that date. *)
Definition key_is_utc_date (ts : float) : Prop :=
  exists n y m d,
    exact_epoch_day ts = Some n /\ date_of_epoch_day n y m d /\
    bucket_key ts "day" = Ok (day_key y m d) /\
    bucket_key ts "month" = Ok (month_key y m).

(** An unsupported mode fails with the error about the mode. *)
Definition bad_mode_is_invalid_argument (ts : float) (group_by : string)
  : Prop :=
  group_by <> "day" -> group_by <> "month" ->
  bucket_key ts group_by
  = Raise (ValueError "group_by must be 'day' or 'month'").

(** The end of the window is the day after the parsed to-date. *)
Definition window_end_is_next_day (to_date : string) : Prop :=
  forall t, parse_date to_date = Ok t ->
  exists end_,
    (t' <- parse_date to_date ;; add_days t' 1) = Ok end_ /\
    toordinal end_ = toordinal t + 1.

End AsStated.

(** ** Inputs of the worked examples *)

Module Examples.

(** The three samples of the scenario of the specification:
    2025-10-01T00:30:00Z, 2025-10-01T12:00:00Z and 2025-10-02T00:00:00Z,
    with the values 100, 300 and 500. *)
Definition t0 : float := Float64.of_int 1759278600.
Definition t1 : float := Float64.of_int 1759320000.
Definition t2 : float := Float64.of_int 1759363200.
Definition scenario : list (float * float) :=
  [ (t0, Float64.of_int 100); (t1, Float64.of_int 300);
    (t2, Float64.of_int 500) ].
Definition scenario_day1 : row :=
  mk_row "2025-10-01" (Float64.of_int 200) (Float64.of_int 300)
    (Float64.div (Float64.of_int 200) (Float64.of_int 1073741824))
    (Float64.div (Float64.of_int 300) (Float64.of_int 1073741824)).
Definition scenario_day2 : row :=
  mk_row "2025-10-02" (Float64.of_int 500) (Float64.of_int 500)
    (Float64.div (Float64.of_int 500) (Float64.of_int 1073741824))
    (Float64.div (Float64.of_int 500) (Float64.of_int 1073741824)).
Definition scenario_month : row :=
  mk_row "2025-10" (Float64.of_int 300) (Float64.of_int 500)
    (Float64.div (Float64.of_int 300) (Float64.of_int 1073741824))
    (Float64.div (Float64.of_int 500) (Float64.of_int 1073741824)).

(** Three samples of the value [0.1] on one day, and the row they give:
    the mean is the float after [0.1], [0.10000000000000002]. *)
Definition tenths : list (float * float) :=
  [ (Float64.of_int 0, Float64.one_tenth);
    (Float64.of_int 1, Float64.one_tenth);
    (Float64.of_int 2, Float64.one_tenth) ].
Definition above_one_tenth : float :=
  S754_finite false 7205759403792795 (-56).
Definition tenths_row : row :=
  mk_row "1970-01-01" above_one_tenth Float64.one_tenth
    (Float64.div above_one_tenth (Float64.of_int 1073741824))
    (Float64.div Float64.one_tenth (Float64.of_int 1073741824)).

(** The first second of the year 10000. *)
Definition year_10000 : float := Float64.of_int 253402300800.

(** The float [1e20], a second count beyond 64 bits. *)
Definition far_future : float := Float64.of_int (10 ^ 20).

(** The float [86399.9999999], a tenth of a microsecond before the end of
    1970-01-01. *)
Definition almost_midnight : float :=
  S754_finite false 5937362789983528 (-36).

(** A backend that answers with the given samples as its only series,
    and one that answers with no series. *)
Definition world_answering (samples : list (float * float)) : world :=
  mk_world (fun _ _ => Reply 200 (mk_payload "success" [samples]))
           (fun _ => None) [].
Definition world_without_series : world :=
  mk_world (fun _ _ => Reply 200 (mk_payload "success" []))
           (fun _ => None) [].

Definition oct_1st : datetime := mk_datetime 2025 10 1 0 0 0 0.
Definition oct_2nd : datetime := mk_datetime 2025 10 2 0 0 0 0.

End Examples.

(** ** Checking a predicate on a range of integers *)

(** [check_range fuel p lo hi]: [p] holds on [lo <= i < hi], by bisection. *)
Fixpoint check_range (fuel : nat) (p : Z -> bool) (lo hi : Z) : bool :=
  if hi <=? lo then true
  else if hi =? lo + 1 then p lo
  else
    match fuel with
    | O => false
    | S fuel' =>
        let mid := (lo + hi) / 2 in
        check_range fuel' p lo mid && check_range fuel' p mid hi
    end.

(** The part of [ord2ymd] that works inside one cycle of 400 years: the
    date of the day [n] of the cycle, [0 <= n < DI400Y], the cycle starting
    with year 1. *)
Definition cycle_date (n : Z) : Z * Z * Z := Calendar.ord2ymd (n + 1).

Definition check_cycle_day (n : Z) : bool :=
  let '(y, m, d) := cycle_date n in
  (1 <=? y) && (y <=? 400) && (1 <=? m) && (m <=? 12) && (1 <=? d)
  && (d <=? Calendar.days_in_month y m)
  && (Calendar.ymd2ord y m d =? n + 1).

(** Reading back a decimal field of a key. *)
Fixpoint decimal_value (s : string) (acc : Z) : Z :=
  match s with
  | EmptyString => acc
  | String c s' =>
      decimal_value s' (10 * acc + (Z.of_nat (nat_of_ascii c) - 48))
  end.

Definition check_zfill (width : nat) (n : Z) : bool :=
  (String.length (Fmt.zfill width n) =? width)%nat
  && (decimal_value (Fmt.zfill width n) 0 =? n).

(* ===================================================================== *)
(** * Further vocabulary: the rest of the two scripts *)
(* ===================================================================== *)

(** ** Checks on the decimal fields *)

(** The four characters of a year are read back by group [Y]. *)
Definition check_year_field (y : Z) : bool :=
  match match_Y (Fmt.zfill 4 y) with
  | Some (v, EmptyString) => v =? y
  | _ => false
  end.

Definition comparison_eqb (a b : comparison) : bool :=
  match a, b with
  | Eq, Eq | Lt, Lt | Gt, Gt => true
  | _, _ => false
  end.

(** Two fields of two characters compare as their numbers do. *)
Definition check_order2 (i : Z) : bool :=
  check_range 8
    (fun j => comparison_eqb (String.compare (Fmt.zfill 2 i) (Fmt.zfill 2 j))
                             (i ?= j)) 0 100.

(** A field of four characters is two fields of two. *)
Definition check_split4 (y : Z) : bool :=
  String.eqb (Fmt.zfill 4 y)
             (Fmt.zfill 2 (y / 100) ++ Fmt.zfill 2 (y mod 100)).

(** ** The day after a date *)

(** The date that follows [(y, m, d)] in the calendar. *)
Definition next_date (y m d : Z) : Z * Z * Z :=
  if d <? Calendar.days_in_month y m then (y, m, d + 1)
  else if m <? 12 then (y, m + 1, 1)
  else (y + 1, 1, 1).

(** The order of dates. *)
Definition date_le (a b : Z * Z * Z) : Prop :=
  let '(y1, m1, d1) := a in
  let '(y2, m2, d2) := b in
  y1 < y2 \/ (y1 = y2 /\ (m1 < m2 \/ (m1 = m2 /\ d1 <= d2))).

(** ** The request of the direct script *)

(** The request that [query_range] builds in the direct script. *)
Definition direct_request (pool_id : string) (start end_ : datetime)
    (step : string) : request :=
  mk_request (Direct.PROM_URL ++ "/api/v1/query_range")
             (query_params pool_id start end_ step) [] None.

(** ** Scaling by a power of two *)

(** The float [x * 2^-30], given without rounding: the exponent moved down
    by 30. *)
Definition scale_down_30 (x : float) : float :=
  match x with
  | S754_finite s m e => S754_finite s m (e - 30)
  | _ => x
  end.

(* ===================================================================== *)
(** * What [main] prints *)
(* ===================================================================== *)

(** The quotient [a / b] rounded to the nearest integer, ties to even,
    [0 <= a] and [0 < b]. *)
Definition round_half_even_div (a b : Z) : Z :=
  let q := a / b in
  let r := a mod b in
  if 2 * r <? b then q
  else if b <? 2 * r then q + 1
  else if Z.even q then q else q + 1.

(** The number of hundredths nearest to [m * 2^e]. *)
Definition hundredths (m : positive) (e : Z) : Z :=
  if 0 <=? e then Z.pos m * 2 ^ e * 100
  else round_half_even_div (Z.pos m * 100) (2 ^ (- e)).

(** [format(x, ".2f")]: the exact value of the float rounded once to two
    decimals, ties to even; the sign is kept on a zero. *)
Definition format_2f (x : float) : string :=
  match x with
  | S754_nan => "nan"
  | S754_infinity s => if s then "-inf" else "inf"
  | S754_zero s => if s then "-0.00" else "0.00"
  | S754_finite s m e =>
      let n := hundredths m e in
      (if s then "-" else EmptyString)
        ++ Fmt.str_of_nonneg (n / 100) ++ "." ++ Fmt.zfill 2 (n mod 100)
  end.

(** [str(t)] for a [datetime]: [isoformat] with a space for the [T]. *)
Definition str_datetime (t : datetime) : string :=
  date_isoformat t ++ " " ++ Fmt.zfill 2 (hour t) ++ ":"
    ++ Fmt.zfill 2 (minute t) ++ ":" ++ Fmt.zfill 2 (second t)
    ++ (if microsecond t =? 0 then EmptyString
        else "." ++ Fmt.zfill 6 (microsecond t)).

(** [s * n] on a [str]. *)
Fixpoint str_mul (s : string) (n : nat) : string :=
  match n with
  | O => EmptyString
  | S n' => s ++ str_mul s n'
  end.

(** The line that both scripts print for a row. *)
Definition row_line (r : row) : string :=
  period r ++ ": avg=" ++ format_2f (avg_gib r) ++ " GiB, max="
    ++ format_2f (max_gib r) ++ " GiB".

(** [main] of the Grafana script after [parse_args], with its [print]s:
    the outcome, the world after it and the lines written to the standard
    output. *)
Module GrafanaRun.

Definition header (pool_id : string) (from_date to_date : datetime)
    (group_by : string) : list string :=
  [ "Pool ID: " ++ pool_id;
    "Range : " ++ str_datetime from_date ++ " -> " ++ str_datetime to_date;
    "Group : " ++ group_by;
    str_mul "-" 60 ].

Definition main (py : cpython) (args : Grafana.args_t) (w : world)
  : result unit * world * list string :=
  match parse_date (Grafana.arg_from_date args) with
  | Raise e => (Raise e, w, [])
  | Ok from_date =>
      match
        (t <- parse_date (Grafana.arg_to_date args) ;; add_days t 1)
      with
      | Raise e => (Raise e, w, [])
      | Ok to_date =>
          let out :=
            header (Grafana.arg_pool_id args) from_date to_date
                   (Grafana.arg_group_by args) in
          match
            Grafana.aggregate_usage py (Grafana.arg_pool_id args)
              from_date to_date (Grafana.arg_group_by args) w
          with
          | (Raise e, w') => (Raise e, w', out)
          | (Ok usage, w') => (Ok tt, w', (out ++ map row_line usage)%list)
          end
      end
  end.

End GrafanaRun.

(** ** The window in seconds *)

(** The POSIX second of the midnight, UTC, that begins the date of [t]. *)
Definition midnight_second (t : datetime) : Z :=
  (toordinal t - Calendar.EPOCH_ORDINAL) * 86400.

(** ** Proof steps *)

(** Linear arithmetic with division and remainder by constants. *)
Ltac div_lia := Z.to_euclidean_division_equations; lia.

(* ===================================================================== *)
(** * Checking by enumeration *)
(* ===================================================================== *)

Lemma check_range_sound (fuel : nat) (p : Z -> bool) :
  forall lo hi, check_range fuel p lo hi = true ->
  forall i, lo <= i < hi -> p i = true.
Proof.
  induction fuel as [|fuel IH]; intros lo hi H i Hi; simpl in H.
  - destruct (Z.leb_spec hi lo); [lia|].
    destruct (Z.eqb_spec hi (lo + 1)); [|discriminate].
    replace i with lo by lia. exact H.
  - destruct (Z.leb_spec hi lo); [lia|].
    destruct (Z.eqb_spec hi (lo + 1)).
    + replace i with lo by lia. exact H.
    + apply andb_prop in H. destruct H as [H1 H2].
      destruct (Z_lt_le_dec i ((lo + hi) / 2)).
      * apply (IH _ _ H1). lia.
      * apply (IH _ _ H2). lia.
Qed.

Lemma cycle_days_checked :
  check_range 20 check_cycle_day 0 Calendar.DI400Y = true.
Proof. vm_compute. reflexivity. Qed.

(* ===================================================================== *)
(** * The calendar *)
(* ===================================================================== *)

Section CalendarFacts.
Import Calendar.

Lemma is_leap_shift (y q : Z) : is_leap (y + 400 * q) = is_leap y.
Proof.
  unfold is_leap.
  replace ((y + 400 * q) mod 4) with (y mod 4)
    by (replace (y + 400 * q) with (y + (100 * q) * 4) by lia;
        now rewrite Z_mod_plus_full).
  replace ((y + 400 * q) mod 100) with (y mod 100)
    by (replace (y + 400 * q) with (y + (4 * q) * 100) by lia;
        now rewrite Z_mod_plus_full).
  replace ((y + 400 * q) mod 400) with (y mod 400)
    by (replace (y + 400 * q) with (y + q * 400) by lia;
        now rewrite Z_mod_plus_full).
  reflexivity.
Qed.

Lemma days_before_year_shift (y q : Z) :
  days_before_year (y + 400 * q) = days_before_year y + DI400Y * q.
Proof. unfold days_before_year, DI400Y. cbv zeta. div_lia. Qed.

Lemma days_in_month_shift (y q m : Z) :
  days_in_month (y + 400 * q) m = days_in_month y m.
Proof. unfold days_in_month. now rewrite is_leap_shift. Qed.

Lemma ymd2ord_shift (y q m d : Z) :
  ymd2ord (y + 400 * q) m d = ymd2ord y m d + DI400Y * q.
Proof.
  unfold ymd2ord, days_before_month.
  rewrite is_leap_shift, days_before_year_shift. lia.
Qed.

(** [ord2ymd] works cycle by cycle. *)
Lemma ord2ymd_cycle (n : Z) :
  ord2ymd n =
  let '(y, m, d) := cycle_date ((n - 1) mod DI400Y) in
  (y + 400 * ((n - 1) / DI400Y), m, d).
Proof.
  pose proof (Z.mod_pos_bound (n - 1) DI400Y eq_refl) as Hr.
  set (r := (n - 1) mod DI400Y) in *.
  unfold cycle_date, ord2ymd. cbv zeta.
  replace (r + 1 - 1) with r by lia.
  rewrite (Z.div_small r DI400Y) by lia.
  rewrite (Z.mod_small r DI400Y) by lia.
  fold r.
  repeat match goal with
         | |- context [if ?c then _ else _] => destruct c
         end; f_equal; try f_equal; lia.
Qed.

(** The date [ord2ymd] gives is a date of the calendar, and it is the one
    whose ordinal is [n]. *)
Lemma ord2ymd_spec (n y m d : Z) :
  ord2ymd n = (y, m, d) ->
  1 <= m <= 12 /\ 1 <= d <= days_in_month y m /\ ymd2ord y m d = n.
Proof.
  rewrite ord2ymd_cycle.
  pose proof (Z.mod_pos_bound (n - 1) DI400Y eq_refl) as Hr.
  pose proof (Z.div_mod (n - 1) DI400Y ltac:(discriminate)) as Hdm.
  set (r := (n - 1) mod DI400Y) in *. set (q := (n - 1) / DI400Y) in *.
  pose proof (check_range_sound _ _ _ _ cycle_days_checked r Hr) as Hc.
  unfold check_cycle_day in Hc.
  destruct (cycle_date r) as [[y0 m0] d0]. cbv beta iota.
  intros E.
  assert (y = y0 + 400 * q /\ m = m0 /\ d = d0) as (-> & -> & ->)
    by (now inversion E).
  repeat (apply andb_prop in Hc; destruct Hc as [Hc ?]).
  rewrite days_in_month_shift, ymd2ord_shift. lia.
Qed.

Lemma days_before_year_succ (y : Z) :
  days_before_year (y + 1)
  = days_before_year y + 365 + (if is_leap y then 1 else 0).
Proof.
  unfold days_before_year, is_leap. cbv zeta.
  destruct (Z.eqb_spec (y mod 4) 0), (Z.eqb_spec (y mod 100) 0),
    (Z.eqb_spec (y mod 400) 0); simpl; div_lia.
Qed.

Lemma days_before_year_mono (y y' : Z) :
  y <= y' -> days_before_year y <= days_before_year y'.
Proof. unfold days_before_year. cbv zeta. div_lia. Qed.

(** A date of year [y] lies after the days before [y] and within the
    days before [y + 1]. *)
Lemma ymd2ord_in_year (y m d : Z) :
  1 <= m <= 12 -> 1 <= d <= days_in_month y m ->
  days_before_year y < ymd2ord y m d <= days_before_year (y + 1).
Proof.
  intros Hm Hd. rewrite days_before_year_succ.
  unfold ymd2ord, days_before_month, days_in_month in *.
  assert (m = 1 \/ m = 2 \/ m = 3 \/ m = 4 \/ m = 5 \/ m = 6 \/ m = 7
          \/ m = 8 \/ m = 9 \/ m = 10 \/ m = 11 \/ m = 12) as Hcases by lia.
  set (b := is_leap y) in *. clearbody b.
  destruct b;
    repeat (destruct Hcases as [-> | Hcases]; [simpl in *; lia|]);
    subst m; simpl in *; lia.
Qed.

Lemma ymd2ord_inj (y m d y' m' d' : Z) :
  1 <= m <= 12 -> 1 <= d <= days_in_month y m ->
  1 <= m' <= 12 -> 1 <= d' <= days_in_month y' m' ->
  ymd2ord y m d = ymd2ord y' m' d' -> y = y' /\ m = m' /\ d = d'.
Proof.
  intros Hm Hd Hm' Hd' E.
  pose proof (ymd2ord_in_year y m d Hm Hd) as B.
  pose proof (ymd2ord_in_year y' m' d' Hm' Hd') as B'.
  assert (y = y') as <-.
  { destruct (Z.lt_trichotomy y y') as [L | [L | L]]; [|exact L|].
    - pose proof (days_before_year_mono (y + 1) y' ltac:(lia)). lia.
    - pose proof (days_before_year_mono (y' + 1) y ltac:(lia)). lia. }
  split; [reflexivity|].
  unfold ymd2ord, days_before_month, days_in_month in *.
  assert (m = 1 \/ m = 2 \/ m = 3 \/ m = 4 \/ m = 5 \/ m = 6 \/ m = 7
          \/ m = 8 \/ m = 9 \/ m = 10 \/ m = 11 \/ m = 12) as Hc by lia.
  assert (m' = 1 \/ m' = 2 \/ m' = 3 \/ m' = 4 \/ m' = 5 \/ m' = 6 \/ m' = 7
          \/ m' = 8 \/ m' = 9 \/ m' = 10 \/ m' = 11 \/ m' = 12) as Hc' by lia.
  set (b := is_leap y) in *. clearbody b.
  destruct b;
    repeat (destruct Hc as [-> | Hc]); try subst m;
    repeat (destruct Hc' as [-> | Hc']); try subst m'; simpl in *; lia.
Qed.

(** [ord2ymd] is the inverse of [ymd2ord] on the dates of the calendar. *)
Lemma ord2ymd_ymd2ord (y m d : Z) :
  1 <= m <= 12 -> 1 <= d <= days_in_month y m ->
  ord2ymd (ymd2ord y m d) = (y, m, d).
Proof.
  intros Hm Hd.
  destruct (ord2ymd (ymd2ord y m d)) as [[y' m'] d'] eqn:E.
  apply ord2ymd_spec in E. destruct E as (Hm' & Hd' & E).
  destruct (ymd2ord_inj _ _ _ _ _ _ Hm' Hd' Hm Hd E) as (-> & -> & ->).
  reflexivity.
Qed.

(** The ordinals of the years 1 to 9999 are those from 1 to [MAXORDINAL]. *)
Lemma ymd2ord_year_range (y m d : Z) :
  1 <= m <= 12 -> 1 <= d <= days_in_month y m ->
  (1 <= ymd2ord y m d <= MAXORDINAL <-> MINYEAR <= y <= MAXYEAR).
Proof.
  intros Hm Hd. pose proof (ymd2ord_in_year y m d Hm Hd) as B.
  unfold MINYEAR, MAXYEAR, MAXORDINAL. split; intros H.
  - split.
    + destruct (Z_lt_le_dec y 1); [|lia].
      pose proof (days_before_year_mono (y + 1) 1 ltac:(lia)) as M.
      change (days_before_year 1) with 0 in M. lia.
    + destruct (Z_lt_le_dec 9999 y); [|lia].
      pose proof (days_before_year_mono 10000 y ltac:(lia)) as M.
      change (days_before_year 10000) with 3652059 in M. lia.
  - pose proof (days_before_year_mono 1 y ltac:(lia)) as M1.
    pose proof (days_before_year_mono (y + 1) 10000 ltac:(lia)) as M2.
    change (days_before_year 1) with 0 in M1.
    change (days_before_year 10000) with 3652059 in M2. lia.
Qed.

Lemma valid_date_iff (y m d : Z) :
  valid_date y m d = true <->
  MINYEAR <= y <= MAXYEAR /\ 1 <= m <= 12 /\ 1 <= d <= days_in_month y m.
Proof.
  unfold valid_date. rewrite !andb_true_iff, !Z.leb_le. lia.
Qed.

End CalendarFacts.

(* ===================================================================== *)
(** * The key formats *)
(* ===================================================================== *)

Lemma zfill4_checked : check_range 20 (check_zfill 4) 0 10000 = true.
Proof. vm_compute. reflexivity. Qed.

Lemma zfill2_checked : check_range 20 (check_zfill 2) 0 100 = true.
Proof. vm_compute. reflexivity. Qed.

Lemma zfill4_spec (n : Z) :
  0 <= n < 10000 ->
  String.length (Fmt.zfill 4 n) = 4%nat /\ decimal_value (Fmt.zfill 4 n) 0 = n.
Proof.
  intros H. pose proof (check_range_sound _ _ _ _ zfill4_checked n H) as C.
  unfold check_zfill in C. apply andb_prop in C. destruct C as [C1 C2].
  apply Nat.eqb_eq in C1. apply Z.eqb_eq in C2. now split.
Qed.

Lemma zfill2_spec (n : Z) :
  0 <= n < 100 ->
  String.length (Fmt.zfill 2 n) = 2%nat /\ decimal_value (Fmt.zfill 2 n) 0 = n.
Proof.
  intros H. pose proof (check_range_sound _ _ _ _ zfill2_checked n H) as C.
  unfold check_zfill in C. apply andb_prop in C. destruct C as [C1 C2].
  apply Nat.eqb_eq in C1. apply Z.eqb_eq in C2. now split.
Qed.

Lemma string_app_inj (a a' b b' : string) :
  String.length a = String.length a' ->
  (a ++ b = a' ++ b')%string -> a = a' /\ b = b'.
Proof.
  revert a'. induction a as [|c a IH]; intros [|c' a'] L E; simpl in *;
    try discriminate.
  - now split.
  - injection E as -> E. injection L as L.
    destruct (IH _ L E) as [-> ->]. now split.
Qed.

Lemma zfill4_inj (n n' : Z) :
  0 <= n < 10000 -> 0 <= n' < 10000 -> Fmt.zfill 4 n = Fmt.zfill 4 n' -> n = n'.
Proof.
  intros H H' E. destruct (zfill4_spec n H) as [_ <-].
  destruct (zfill4_spec n' H') as [_ <-]. now rewrite E.
Qed.

Lemma zfill2_inj (n n' : Z) :
  0 <= n < 100 -> 0 <= n' < 100 -> Fmt.zfill 2 n = Fmt.zfill 2 n' -> n = n'.
Proof.
  intros H H' E. destruct (zfill2_spec n H) as [_ <-].
  destruct (zfill2_spec n' H') as [_ <-]. now rewrite E.
Qed.

Lemma month_key_inj (y m y' m' : Z) :
  0 <= y < 10000 -> 0 <= m < 100 -> 0 <= y' < 10000 -> 0 <= m' < 100 ->
  month_key y m = month_key y' m' -> y = y' /\ m = m'.
Proof.
  intros Hy Hm Hy' Hm' E. unfold month_key in E.
  apply string_app_inj in E.
  2:{ now rewrite (proj1 (zfill4_spec y Hy)), (proj1 (zfill4_spec y' Hy')). }
  destruct E as [Ey E]. injection E as E.
  split; [now apply zfill4_inj | now apply zfill2_inj].
Qed.

Lemma day_key_inj (y m d y' m' d' : Z) :
  0 <= y < 10000 -> 0 <= m < 100 -> 0 <= d < 100 ->
  0 <= y' < 10000 -> 0 <= m' < 100 -> 0 <= d' < 100 ->
  day_key y m d = day_key y' m' d' -> y = y' /\ m = m' /\ d = d'.
Proof.
  intros Hy Hm Hd Hy' Hm' Hd' E. unfold day_key in E.
  apply string_app_inj in E.
  2:{ now rewrite (proj1 (zfill4_spec y Hy)), (proj1 (zfill4_spec y' Hy')). }
  destruct E as [Ey E]. injection E as E.
  apply string_app_inj in E.
  2:{ now rewrite (proj1 (zfill2_spec m Hm)), (proj1 (zfill2_spec m' Hm')). }
  destruct E as [Em E]. injection E as E.
  repeat split; [now apply zfill4_inj | now apply zfill2_inj
                | now apply zfill2_inj].
Qed.

Lemma string_app_assoc (a b c : string) :
  ((a ++ b) ++ c = a ++ (b ++ c))%string.
Proof. induction a as [|x a IH]; simpl; [reflexivity | now f_equal]. Qed.

(** The day key is the month key followed by the day. *)
Lemma day_key_month_key (y m d : Z) :
  day_key y m d = (month_key y m ++ "-" ++ Fmt.zfill 2 d)%string.
Proof.
  unfold day_key, month_key. now rewrite !string_app_assoc.
Qed.

(* ===================================================================== *)
(** * [utcfromtimestamp] and [bucket_key] *)
(* ===================================================================== *)

Section TimestampFacts.
Import Calendar.

Lemma bind_ok {A B : Type} (c : result A) (k : A -> result B) (b : B) :
  Py.bind c k = Ok b -> exists a, c = Ok a /\ k a = Ok b.
Proof. destruct c as [a|e]; simpl; [eauto | discriminate]. Qed.

Lemma epoch_day_range (sec : Z) :
  MIN_SECOND <= sec <= MAX_SECOND <->
  1 <= epoch_day sec + EPOCH_ORDINAL <= MAXORDINAL.
Proof.
  unfold MIN_SECOND, MAX_SECOND, epoch_day, EPOCH_ORDINAL, MAXORDINAL.
  div_lia.
Qed.

(** A second of the years 1 to 9999 converts, to the date of its day. *)
Lemma gmtime_date (sec : Z) :
  MIN_SECOND <= sec <= MAX_SECOND ->
  exists y m d,
    ord2ymd (epoch_day sec + EPOCH_ORDINAL) = (y, m, d) /\
    valid_date y m d = true /\
    ymd2ord y m d = EPOCH_ORDINAL + epoch_day sec /\
    gmtime sec
    = Ok (y, m, d, sec mod 86400 / 3600, sec mod 86400 mod 3600 / 60,
          sec mod 86400 mod 60).
Proof.
  intros R. apply epoch_day_range in R.
  destruct (ord2ymd (epoch_day sec + EPOCH_ORDINAL)) as [[y m] d] eqn:E.
  destruct (ord2ymd_spec _ _ _ _ E) as (Hm & Hd & O).
  assert (MINYEAR <= y <= MAXYEAR) as Hy
      by (apply (ymd2ord_year_range y m d Hm Hd); lia).
  exists y, m, d. repeat split.
  - apply valid_date_iff. auto.
  - lia.
  - unfold gmtime. rewrite E.
    replace ((INT_MIN <=? y - 1900) && (y - 1900 <=? INT_MAX)) with true;
      [reflexivity|].
    symmetry. apply andb_true_iff. unfold INT_MIN, INT_MAX, MINYEAR, MAXYEAR in *.
    rewrite !Z.leb_le. lia.
Qed.

Lemma new_datetime_valid (y m d hh mm ss us : Z) :
  valid_date y m d = true ->
  new_datetime y m d hh mm ss us = Ok (mk_datetime y m d hh mm ss us).
Proof.
  intros V. unfold new_datetime. unfold valid_date in V.
  repeat (apply andb_prop in V; destruct V as [V ?]).
  repeat match goal with H : _ = true |- _ => rewrite H; clear H end.
  reflexivity.
Qed.

Lemma new_datetime_ok (y m d hh mm ss us : Z) (t : datetime) :
  new_datetime y m d hh mm ss us = Ok t ->
  valid_date y m d = true /\ t = mk_datetime y m d hh mm ss us.
Proof.
  unfold new_datetime, valid_date.
  destruct (MINYEAR <=? y), (y <=? MAXYEAR); simpl; try discriminate.
  destruct (1 <=? m), (m <=? 12); simpl; try discriminate.
  destruct (1 <=? d), (d <=? days_in_month y m); simpl; try discriminate.
  intros [= <-]. now split.
Qed.

(** The timestamps [utcfromtimestamp] accepts are those whose rounded
    second lies in the years 1 to 9999; the date it gives is the date of
    the day of that second. *)
Lemma utcfromtimestamp_accepts (ts : float) (sec us : Z) :
  timeval_of_float ts = Ok (sec, us) ->
  MIN_SECOND <= sec <= MAX_SECOND ->
  exists t,
    utcfromtimestamp ts = Ok t /\
    valid_date (year t) (month t) (day t) = true /\
    ymd2ord (year t) (month t) (day t) = EPOCH_ORDINAL + epoch_day sec /\
    ord2ymd (epoch_day sec + EPOCH_ORDINAL) = (year t, month t, day t).
Proof.
  intros T R. destruct (gmtime_date sec R) as (y & m & d & E & V & O & G).
  exists (mk_datetime y m d (sec mod 86400 / 3600)
            (sec mod 86400 mod 3600 / 60) (sec mod 86400 mod 60) us).
  unfold utcfromtimestamp. rewrite T. unfold Py.bind at 1.
  rewrite G. unfold Py.bind.
  rewrite (new_datetime_valid _ _ _ _ _ _ _ V).
  cbn [year month day]. auto.
Qed.

Lemma utcfromtimestamp_ok (ts : float) (t : datetime) :
  utcfromtimestamp ts = Ok t ->
  exists sec us,
    timeval_of_float ts = Ok (sec, us) /\ MIN_SECOND <= sec <= MAX_SECOND.
Proof.
  unfold utcfromtimestamp. intros H.
  apply bind_ok in H. destruct H as ([sec us] & T & H).
  apply bind_ok in H. destruct H as ([[[[[y m] d] hh] mm] ss] & G & H).
  apply new_datetime_ok in H. destruct H as [V _].
  exists sec, us. split; [exact T|].
  unfold gmtime in G.
  destruct (ord2ymd (epoch_day sec + EPOCH_ORDINAL)) as [[y' m'] d'] eqn:E.
  destruct ((INT_MIN <=? y' - 1900) && (y' - 1900 <=? INT_MAX));
    [|discriminate].
  assert (y' = y /\ m' = m /\ d' = d) as (-> & -> & ->) by (now inversion G).
  destruct (ord2ymd_spec _ _ _ _ E) as (Hm & Hd & O).
  apply valid_date_iff in V.
  apply epoch_day_range. rewrite <- O.
  apply (ymd2ord_year_range y m d Hm Hd). tauto.
Qed.

Lemma bucket_key_day (ts : float) :
  bucket_key ts "day"
  = (t <- utcfromtimestamp ts ;; Ok (day_key (year t) (month t) (day t))).
Proof. reflexivity. Qed.

Lemma bucket_key_month (ts : float) :
  bucket_key ts "month"
  = (t <- utcfromtimestamp ts ;; Ok (month_key (year t) (month t))).
Proof. reflexivity. Qed.

Lemma bucket_key_bad_mode (ts : float) (group_by : string) :
  group_by <> "day" -> group_by <> "month" ->
  bucket_key ts group_by
  = (t <- utcfromtimestamp ts ;;
     Raise (ValueError "group_by must be 'day' or 'month'")).
Proof.
  intros Hd Hm. unfold bucket_key.
  apply String.eqb_neq in Hd. apply String.eqb_neq in Hm.
  now rewrite Hd, Hm.
Qed.

End TimestampFacts.

(* ===================================================================== *)
(** * [sorted] *)
(* ===================================================================== *)

Section SortedFacts.

Lemma ltb_false_leb (x y : string) :
  String.ltb x y = false -> str_le y x.
Proof.
  unfold String.ltb, str_le, String.leb. rewrite (String.compare_antisym y x).
  now destruct (String.compare x y).
Qed.

Lemma ltb_true_leb (x y : string) : String.ltb x y = true -> str_le x y.
Proof.
  unfold String.ltb, str_le, String.leb. now destruct (String.compare x y).
Qed.

Lemma str_le_neq_lt (x y : string) : str_le x y -> x <> y -> str_lt x y.
Proof.
  unfold str_le, str_lt, String.leb, String.ltb. intros L N.
  destruct (String.compare x y) eqn:C; try easy.
  apply String.compare_eq_iff in C. contradiction.
Qed.

Lemma insert_sorted_perm (x : string) (l : list string) :
  Permutation (x :: l) (insert_sorted x l).
Proof.
  induction l as [|y l IH]; simpl; [reflexivity|].
  destruct (String.ltb x y); [reflexivity|].
  rewrite perm_swap. now constructor.
Qed.

Lemma insert_sorted_hd (x y : string) (l : list string) :
  str_le y x -> HdRel str_le y l -> HdRel str_le y (insert_sorted x l).
Proof.
  intros Hyx H. destruct l as [|z l]; simpl; [now constructor|].
  inversion_clear H. destruct (String.ltb x z); now constructor.
Qed.

Lemma insert_sorted_sorted (x : string) (l : list string) :
  Sorted str_le l -> Sorted str_le (insert_sorted x l).
Proof.
  induction 1 as [|y l S IH H]; simpl.
  - repeat constructor.
  - destruct (String.ltb x y) eqn:E.
    + constructor; [now constructor|]. constructor. now apply ltb_true_leb.
    + constructor; [exact IH|].
      apply insert_sorted_hd; [now apply ltb_false_leb | exact H].
Qed.

Lemma fold_insert_sorted (l acc : list string) :
  Sorted str_le acc ->
  Sorted str_le (fold_left (fun acc x => insert_sorted x acc) l acc)
  /\ Permutation (l ++ acc)
       (fold_left (fun acc x => insert_sorted x acc) l acc).
Proof.
  revert acc. induction l as [|x l IH]; intros acc S; simpl.
  - split; [exact S | reflexivity].
  - destruct (IH (insert_sorted x acc) (insert_sorted_sorted x acc S))
      as [S' P]. split; [exact S'|].
    rewrite <- P. rewrite <- insert_sorted_perm.
    now rewrite Permutation_middle.
Qed.

Lemma sorted_is_sorted (l : list string) : Sorted str_le (sorted l).
Proof. apply fold_insert_sorted. constructor. Qed.

Lemma sorted_perm (l : list string) : Permutation l (sorted l).
Proof.
  destruct (fold_insert_sorted l [] (Sorted_nil _)) as [_ P].
  now rewrite app_nil_r in P.
Qed.

(** Without repetitions the order is strict. *)
Lemma sorted_strict (l : list string) :
  NoDup l -> Sorted str_lt (sorted l).
Proof.
  intros N. assert (NoDup (sorted l)) as N'
      by (eapply Permutation_NoDup; [apply sorted_perm | exact N]).
  pose proof (sorted_is_sorted l) as S.
  induction S as [|y s S IH H]; [constructor|].
  inversion_clear N' as [|? ? Hy Hs].
  constructor; [now apply IH|].
  destruct H as [|z s' Hz]; constructor.
  apply str_le_neq_lt; [exact Hz|].
  intros ->. apply Hy. now left.
Qed.

Lemma string_compare_lt_trans (x : string) :
  forall y z, String.compare x y = Lt -> String.compare y z = Lt ->
              String.compare x z = Lt.
Proof.
  induction x as [|a x IH]; intros [|b y] [|c z]; simpl; try easy.
  destruct (Ascii.compare a b) eqn:Eab; try discriminate.
  - apply Ascii.compare_eq_iff in Eab. subst b.
    destruct (Ascii.compare a c); try easy. apply IH.
  - intros _. destruct (Ascii.compare b c) eqn:Ebc; try discriminate.
    + apply Ascii.compare_eq_iff in Ebc. subst c. now rewrite Eab.
    + intros _. unfold Ascii.compare in *.
      apply N.compare_lt_iff in Eab, Ebc.
      assert (E : ((N_of_ascii a ?= N_of_ascii c) = Lt)%N)
        by (apply N.compare_lt_iff; now apply N.lt_trans with (N_of_ascii b)).
      now rewrite E.
Qed.

Lemma str_lt_trans (x y z : string) : str_lt x y -> str_lt y z -> str_lt x z.
Proof.
  unfold str_lt, String.ltb. intros Hxy Hyz.
  destruct (String.compare x y) eqn:Exy; try discriminate.
  destruct (String.compare y z) eqn:Eyz; try discriminate.
  now rewrite (string_compare_lt_trans x y z Exy Eyz).
Qed.

(** Every period is below all those that come after it. *)
Lemma sorted_strongly (l : list string) :
  NoDup l -> StronglySorted str_lt (sorted l).
Proof.
  intros N. apply Sorted_StronglySorted; [|now apply sorted_strict].
  intros x y z. apply str_lt_trans.
Qed.

End SortedFacts.

(* ===================================================================== *)
(** * The dictionary of buckets *)
(* ===================================================================== *)

Section BucketFacts.

Lemma getitem_bucket_append (k p : string) (v : float) (b : buckets_t) :
  getitem (bucket_append k v b) p
  = if String.eqb p k then (getitem b p ++ [v])%list else getitem b p.
Proof.
  induction b as [|[k' vs] b IH]; simpl.
  - now destruct (String.eqb p k).
  - destruct (String.eqb_spec k k') as [<-|N]; simpl.
    + now destruct (String.eqb p k).
    + rewrite IH.
      destruct (String.eqb_spec p k') as [->|N']; [|reflexivity].
      destruct (String.eqb_spec k' k) as [->|]; [contradiction|reflexivity].
Qed.

Lemma keys_bucket_append (k : string) (v : float) (b : buckets_t) :
  keys (bucket_append k v b)
  = if existsb (String.eqb k) (keys b) then keys b
    else (keys b ++ [k])%list.
Proof.
  induction b as [|[k' vs] b IH]; simpl; [reflexivity|].
  destruct (String.eqb k k'); simpl; [reflexivity|].
  fold (keys (bucket_append k v b)). fold (keys b). rewrite IH.
  now destruct (existsb (String.eqb k) (keys b)).
Qed.

Lemma existsb_eqb_In (k : string) (l : list string) :
  existsb (String.eqb k) l = true <-> In k l.
Proof.
  rewrite existsb_exists. split.
  - intros (x & H & E). apply String.eqb_eq in E. now subst.
  - intros H. exists k. split; [exact H | apply String.eqb_refl].
Qed.

Lemma In_keys_bucket_append (k p : string) (v : float) (b : buckets_t) :
  In p (keys (bucket_append k v b)) <-> p = k \/ In p (keys b).
Proof.
  rewrite keys_bucket_append.
  destruct (existsb (String.eqb k) (keys b)) eqn:E.
  - apply existsb_eqb_In in E. split; [auto|]. intros [->|H]; auto.
  - rewrite in_app_iff. simpl. intuition.
Qed.

Lemma NoDup_keys_bucket_append (k : string) (v : float) (b : buckets_t) :
  NoDup (keys b) -> NoDup (keys (bucket_append k v b)).
Proof.
  intros N. rewrite keys_bucket_append.
  destruct (existsb (String.eqb k) (keys b)) eqn:E; [exact N|].
  apply NoDup_app; [exact N | repeat constructor; easy |].
  intros x Hx [<-|[]]. apply existsb_eqb_In in Hx. congruence.
Qed.

Lemma sample_keys_cons (ts val : float) (rest : list (float * float))
    (group_by : string) (ks : list string) :
  sample_keys ((ts, val) :: rest) group_by = Ok ks ->
  exists k ks', bucket_key ts group_by = Ok k /\
                sample_keys rest group_by = Ok ks' /\ ks = k :: ks'.
Proof.
  simpl. intros H. apply bind_ok in H. destruct H as (k & -> & H).
  apply bind_ok in H. destruct H as (ks' & -> & [= <-]). eauto.
Qed.

(** The bucket of a period is not empty exactly when the period is the
    key of a sample. *)
Lemma bucket_values_nonempty (samples : list (float * float))
    (group_by : string) (ks : list string) (p : string) :
  sample_keys samples group_by = Ok ks ->
  (In p ks <-> bucket_values samples group_by p <> []).
Proof.
  revert ks. induction samples as [|[ts val] rest IH]; intros ks H.
  - injection H as <-. simpl. tauto.
  - apply sample_keys_cons in H. destruct H as (k & ks' & Hk & Hks & ->).
    simpl. rewrite Hk. specialize (IH ks' Hks).
    destruct (String.eqb_spec k p) as [->|N].
    + split; [discriminate | auto].
    + rewrite <- IH. intuition.
Qed.

(** What the first loop leaves in the dictionary. *)
Lemma fill_buckets_ok (samples : list (float * float)) (group_by : string) :
  forall (ks : list string) (b0 : buckets_t),
  sample_keys samples group_by = Ok ks ->
  exists b,
    fill_buckets samples group_by b0 = Ok b /\
    (forall p, getitem b p
               = (getitem b0 p ++ bucket_values samples group_by p)%list) /\
    (forall p, In p (keys b) <-> In p (keys b0) \/ In p ks) /\
    (NoDup (keys b0) -> NoDup (keys b)).
Proof.
  induction samples as [|[ts val] rest IH]; intros ks b0 H.
  - injection H as <-. exists b0. simpl. repeat split; try tauto.
    intros p. now rewrite app_nil_r.
  - apply sample_keys_cons in H. destruct H as (k & ks' & Hk & Hks & ->).
    destruct (IH ks' (bucket_append k val b0) Hks) as (b & F & G & K & N).
    exists b. simpl. rewrite Hk. simpl. split; [exact F|]. repeat split.
    + intros p. rewrite G, getitem_bucket_append.
      rewrite (String.eqb_sym k p).
      destruct (String.eqb p k); [|reflexivity].
      now rewrite <- app_assoc.
    + rewrite K, In_keys_bucket_append. simpl. intuition.
    + rewrite K, In_keys_bucket_append. simpl. intuition.
    + intros N0. apply N. now apply NoDup_keys_bucket_append.
Qed.

(** The first key on which [bucket_key] fails stops the loop. *)
Lemma fill_buckets_raise (samples : list (float * float))
    (group_by : string) (e : exn) :
  forall b0, sample_keys samples group_by = Raise e ->
             fill_buckets samples group_by b0 = Raise e.
Proof.
  induction samples as [|[ts val] rest IH]; intros b0 H; simpl in *.
  - discriminate.
  - destruct (bucket_key ts group_by) as [k|e']; simpl in *;
      [|congruence].
    apply IH. destruct (sample_keys rest group_by); simpl in *;
      [discriminate | congruence].
Qed.

Lemma fill_buckets_keys (samples : list (float * float))
    (group_by : string) (b0 b : buckets_t) :
  fill_buckets samples group_by b0 = Ok b ->
  exists ks, sample_keys samples group_by = Ok ks.
Proof.
  intros F. destruct (sample_keys samples group_by) as [ks|e] eqn:E;
    [eauto|].
  rewrite (fill_buckets_raise _ _ _ b0 E) in F. discriminate.
Qed.

(** As many keys as distinct strings among the keys of the samples. *)
Lemma keys_count (b : buckets_t) (ks : list string) :
  NoDup (keys b) -> (forall p, In p (keys b) <-> In p ks) ->
  List.length (keys b) = distinct ks.
Proof.
  intros N H. unfold distinct. apply Permutation_length.
  apply NoDup_Permutation; [exact N | apply NoDup_nodup |].
  intros p. rewrite nodup_In. apply H.
Qed.

Lemma distinct_pos (ks : list string) :
  ks <> [] -> (1 <= distinct ks)%nat.
Proof.
  destruct ks as [|k ks]; [congruence|]. intros _. unfold distinct.
  assert (In k (nodup string_dec (k :: ks))) as H
      by (apply nodup_In; now left).
  destruct (nodup string_dec (k :: ks)); [destruct H | simpl; lia].
Qed.

End BucketFacts.

(* ===================================================================== *)
(** * Binary64 arithmetic on whole numbers *)
(* ===================================================================== *)

Section FloatFacts.
Import Float64.

(** ** Number of binary digits *)

Lemma digits2_pos_size (p : positive) : digits2_pos p = Pos.size p.
Proof. induction p; simpl; congruence. Qed.

Lemma Zdigits2_log2 (p : positive) :
  Zdigits2 (Z.pos p) = Z.log2 (Z.pos p) + 1.
Proof.
  simpl. rewrite digits2_pos_size.
  destruct p; simpl; rewrite ?Pos2Z.inj_succ; lia.
Qed.

Lemma Zdigits2_bounds (p : positive) :
  2 ^ (Zdigits2 (Z.pos p) - 1) <= Z.pos p < 2 ^ Zdigits2 (Z.pos p).
Proof.
  rewrite Zdigits2_log2.
  pose proof (Z.log2_spec (Z.pos p) ltac:(lia)) as H.
  replace (Z.log2 (Z.pos p) + 1 - 1) with (Z.log2 (Z.pos p)) by lia.
  exact H.
Qed.

Lemma Zdigits2_unique (p : positive) (k : Z) :
  2 ^ (k - 1) <= Z.pos p < 2 ^ k -> Zdigits2 (Z.pos p) = k.
Proof.
  intros H. rewrite Zdigits2_log2.
  assert (1 <= k) as Hk.
  { destruct (Z_lt_le_dec k 1) as [L|]; [|lia].
    destruct (Z.eq_dec k 0) as [->|]; [simpl in H; lia|].
    rewrite (Z.pow_neg_r 2 k) in H by lia. lia. }
  rewrite (Z.log2_unique (Z.pos p) (k - 1)); [lia | lia |].
  now replace (Z.succ (k - 1)) with k by lia.
Qed.

Lemma digits2_pos_Zdigits2 (p : positive) :
  Z.pos (digits2_pos p) = Zdigits2 (Z.pos p).
Proof. reflexivity. Qed.

(** ** Shifts *)

Lemma pos_iter_xO (m d : positive) :
  Z.pos (Pos.iter xO m d) = Z.pos m * 2 ^ Z.pos d.
Proof.
  induction d as [|d IH] using Pos.peano_ind.
  - simpl. lia.
  - rewrite Pos.iter_succ, Pos2Z.inj_xO, IH, Pos2Z.inj_succ, Z.pow_succ_r by lia.
    lia.
Qed.

Lemma iter_pos_nat {A : Type} (f : A -> A) (n : positive) (x : A) :
  iter_pos f n x = Nat.iter (Pos.to_nat n) f x.
Proof.
  revert x. induction n as [n IH|n IH|]; intros x; cbn [iter_pos].
  - rewrite !IH, Pos2Nat.inj_xI.
    replace (S (2 * Pos.to_nat n))
      with (Pos.to_nat n + (Pos.to_nat n + 1))%nat by lia.
    rewrite !Nat.iter_add. reflexivity.
  - rewrite !IH, Pos2Nat.inj_xO.
    replace (2 * Pos.to_nat n)%nat with (Pos.to_nat n + Pos.to_nat n)%nat
      by lia.
    now rewrite Nat.iter_add.
  - reflexivity.
Qed.

(** One step of the right shift on a non-negative mantissa. *)
Lemma shr_1_spec (m : Z) (r s : bool) :
  0 <= m ->
  shr_1 (Build_shr_record m r s)
  = Build_shr_record (m / 2) (Z.odd m) (r || s).
Proof.
  intros H. rewrite <- Z.div2_div.
  destruct m as [|[p|p|]|]; try reflexivity. lia.
Qed.

(** [k] steps: the quotient by [2^k]; the two guard bits are both clear
    exactly when nothing was lost. *)
Lemma shr_iter_spec (k : nat) (m : Z) (r s : bool) :
  0 <= m ->
  let mrs := Nat.iter k shr_1 (Build_shr_record m r s) in
  shr_m mrs = m / 2 ^ Z.of_nat k /\
  (shr_r mrs || shr_s mrs = false <->
   m mod 2 ^ Z.of_nat k = 0 /\ r || s = false).
Proof.
  intros Hm. induction k as [|k IH].
  - simpl. rewrite Z.div_1_r, Z.mod_1_r. tauto.
  - cbv zeta in *. rewrite Nat.iter_succ.
    destruct (Nat.iter k shr_1 (Build_shr_record m r s)) as [mk rk sk].
    simpl in IH. destruct IH as [IHm IHrs].
    assert (0 < 2 ^ Z.of_nat k) as Hp by (apply Z.pow_pos_nonneg; lia).
    assert (0 <= mk) as Hmk by (subst mk; apply Z.div_pos; lia).
    rewrite shr_1_spec by exact Hmk. simpl shr_m. simpl shr_r. simpl shr_s.
    rewrite Nat2Z.inj_succ, Z.pow_succ_r by lia.
    split.
    + subst mk. rewrite Z.mul_comm, <- Z.div_div by lia. reflexivity.
    + rewrite orb_false_iff, IHrs.
      pose proof (Z.div_mod m (2 ^ Z.of_nat k) ltac:(lia)) as D.
      pose proof (Z.mod_pos_bound m (2 ^ Z.of_nat k) Hp) as B.
      rewrite <- IHm in D.
      pose proof (Z.div_mod mk 2 ltac:(lia)) as D2.
      pose proof (Z.mod_pos_bound mk 2 ltac:(lia)) as B2.
      rewrite (Zodd_mod mk).
      assert (m mod (2 * 2 ^ Z.of_nat k)
              = 2 ^ Z.of_nat k * (mk mod 2) + m mod 2 ^ Z.of_nat k) as E.
      { symmetry. apply Z.mod_unique_pos with (q := mk / 2); [nia|].
        rewrite D at 1. rewrite D2 at 1. ring. }
      rewrite E.
      destruct (Z.eqb_spec (mk mod 2) 1) as [E1|E1].
      * rewrite E1. split; [intros [? _]; discriminate|]. nia.
      * replace (mk mod 2) with 0 by lia. split.
        -- intros (_ & ? & ?). split; [lia | assumption].
        -- intros [? ?]. split; [reflexivity|]. split; [lia | assumption].
Qed.

Lemma shr_spec (m e n : Z) (r s : bool) :
  0 <= m -> 0 <= n ->
  let '(mrs, e') := shr (Build_shr_record m r s) e n in
  e' = e + n /\ shr_m mrs = m / 2 ^ n /\
  (shr_r mrs || shr_s mrs = false <-> m mod 2 ^ n = 0 /\ r || s = false).
Proof.
  intros Hm Hn. destruct n as [|p|p]; [| |lia].
  - simpl. rewrite Z.div_1_r, Z.mod_1_r. split; [lia|tauto].
  - unfold shr. rewrite iter_pos_nat.
    pose proof (shr_iter_spec (Pos.to_nat p) m r s Hm) as H.
    cbv zeta in H. rewrite positive_nat_Z in H. split; [reflexivity|exact H].
Qed.

Lemma shl_align_spec (mx : positive) (ex ex' : Z) :
  let '(m, e) := shl_align mx ex ex' in
  if ex' <? ex then Z.pos m = Z.pos mx * 2 ^ (ex - ex') /\ e = ex'
  else m = mx /\ e = ex.
Proof.
  unfold shl_align. destruct (Z.ltb_spec ex' ex) as [L|L].
  - destruct (ex' - ex) as [|p|p] eqn:E; try lia.
    rewrite pos_iter_xO. replace (ex - ex') with (Z.pos p) by lia. tauto.
  - destruct (ex' - ex) as [|p|p] eqn:E; try lia; tauto.
Qed.

(** ** Rounding a mantissa that needs none *)

Lemma fexp_53 (e : Z) : -1074 <= e -> fexp prec emax (53 + e) = e.
Proof. unfold fexp, emin, prec, emax. lia. Qed.

Lemma round_aux_exact (sx : bool) (m : positive) (e k : Z) (M : positive) :
  canonical m -> 0 <= k -> Z.pos M = Z.pos m * 2 ^ k ->
  -1074 <= e + k <= 971 ->
  binary_round_aux prec emax sx (Z.pos M) e loc_Exact
  = S754_finite sx m (e + k).
Proof.
  intros C Hk HM He. unfold canonical in C.
  assert (0 < 2 ^ k) as Hp by (apply Z.pow_pos_nonneg; lia).
  assert (Zdigits2 (Z.pos M) = 53 + k) as DM.
  { apply Zdigits2_unique. rewrite HM.
    replace (53 + k - 1) with (52 + k) by lia.
    rewrite !Z.pow_add_r by lia. nia. }
  assert (Zdigits2 (Z.pos m) = 53) as Dm by (apply Zdigits2_unique; exact C).
  unfold binary_round_aux, shr_fexp. rewrite DM.
  replace (53 + k + e) with (53 + (e + k)) by lia.
  rewrite fexp_53 by lia. replace (e + k - e) with k by lia.
  unfold shr_record_of_loc.
  pose proof (shr_spec (Z.pos M) e k false false ltac:(lia) Hk) as S.
  destruct (shr (Build_shr_record (Z.pos M) false false) e k)
    as [[m1 r1 s1] e1].
  simpl in S. destruct S as (-> & -> & S).
  assert (Z.pos M / 2 ^ k = Z.pos m) as Q
      by (rewrite HM; apply Z.div_mul; lia).
  assert (r1 || s1 = false) as RS.
  { apply S. split; [|reflexivity]. rewrite HM. apply Z.mod_mul. lia. }
  apply orb_false_iff in RS. destruct RS as [-> ->].
  rewrite Q. simpl round_nearest_even. rewrite Dm.
  rewrite fexp_53 by lia. rewrite Z.sub_diag. simpl shr.
  simpl shr_m. unfold prec, emax.
  destruct (Z.leb_spec (e + k) (1024 - 53)); [reflexivity | lia].
Qed.

(** ** [float(n)] for a whole number below [2^53] *)

Lemma log2_range (n : Z) : 0 < n < 2 ^ 53 -> 0 <= Z.log2 n <= 52.
Proof.
  intros H. split; [apply Z.log2_nonneg|].
  assert (Z.log2 n < 53); [|lia].
  apply Z.log2_lt_pow2; lia.
Qed.

Lemma mant_spec (n : Z) :
  0 < n < 2 ^ 53 ->
  Z.pos (mant n) = n * 2 ^ (52 - Z.log2 n) /\ canonical (mant n).
Proof.
  intros H. pose proof (log2_range n H) as L.
  pose proof (Z.log2_spec n ltac:(lia)) as S.
  assert (0 < 2 ^ (52 - Z.log2 n)) as Hp by (apply Z.pow_pos_nonneg; lia).
  assert (Z.pos (mant n) = n * 2 ^ (52 - Z.log2 n)) as E
      by (unfold mant; rewrite Z2Pos.id; nia).
  split; [exact E|]. unfold canonical. rewrite E.
  replace (2 ^ 52) with (2 ^ Z.log2 n * 2 ^ (52 - Z.log2 n))
    by (rewrite <- Z.pow_add_r by lia; f_equal; lia).
  replace (2 ^ 53) with (2 ^ Z.succ (Z.log2 n) * 2 ^ (52 - Z.log2 n))
    by (rewrite <- Z.pow_add_r by lia; f_equal; lia).
  nia.
Qed.

Lemma of_int_pos (n : Z) :
  0 < n < 2 ^ 53 -> of_int n = S754_finite false (mant n) (expo n).
Proof.
  intros H. pose proof (log2_range n H) as L.
  destruct (mant_spec n H) as [E C].
  destruct n as [|p|p]; try lia.
  unfold of_int, binary_normalize, binary_round.
  rewrite digits2_pos_Zdigits2, Zdigits2_log2, Z.add_0_r.
  assert (fexp prec emax (Z.log2 (Z.pos p) + 1) = expo (Z.pos p)) as ->
      by (unfold fexp, emin, prec, emax, expo; lia).
  pose proof (shl_align_spec p 0 (expo (Z.pos p))) as A.
  destruct (shl_align p 0 (expo (Z.pos p))) as [mz ez].
  unfold expo in *.
  destruct (Z.ltb_spec (Z.log2 (Z.pos p) - 52) 0) as [Lt|Ge].
  - destruct A as [A ->].
    rewrite (round_aux_exact false (mant (Z.pos p)) _ 0 mz C); try lia.
    + now rewrite Z.add_0_r.
    + rewrite A, E. rewrite Z.mul_1_r. f_equal. f_equal. lia.
  - destruct A as [-> ->].
    assert (Z.log2 (Z.pos p) = 52) as L52 by lia.
    rewrite (round_aux_exact false (mant (Z.pos p)) _ 0 p C); try lia.
    + rewrite L52. reflexivity.
    + rewrite E, L52. simpl. lia.
Qed.

Lemma of_int_zero : of_int 0 = S754_zero false.
Proof. reflexivity. Qed.

(** [float(n)] is zero for no [n] but 0. *)
Lemma of_int_small_nonzero (n : Z) :
  0 < n < 2 ^ 53 -> is_zero (of_int n) = false.
Proof. intros H. now rewrite of_int_pos. Qed.

End FloatFacts.

Section FloatOrder.
Import Float64.

(** ** The order of floats *)

Lemma lex_compare_le (a b : Z * Z * Z) :
  lex_compare a b <> Gt <-> lex_le a b.
Proof.
  destruct a as [[a1 a2] a3], b as [[b1 b2] b3]. unfold lex_compare, lex_le.
  destruct (Z.compare_spec a1 b1), (Z.compare_spec a2 b2),
    (Z.compare_spec a3 b3); split; intros G; try lia; try congruence;
    try discriminate.
Qed.

Lemma lex_compare_antisym (a b : Z * Z * Z) :
  lex_compare a b = CompOpp (lex_compare b a).
Proof.
  destruct a as [[a1 a2] a3], b as [[b1 b2] b3]. unfold lex_compare.
  rewrite (Z.compare_antisym b1 a1), (Z.compare_antisym b2 a2),
    (Z.compare_antisym b3 a3).
  destruct (b1 ?= a1), (b2 ?= a2), (b3 ?= a3); reflexivity.
Qed.

Lemma SFcompare_rank (x y : float) :
  is_nan x = false -> is_nan y = false ->
  SFcompare x y = Some (lex_compare (rank x) (rank y)).
Proof.
  intros Hx Hy.
  destruct x as [sx|sx| |sx mx ex], y as [sy|sy| |sy my ey];
    try discriminate;
    try (destruct sx); try (destruct sy); try reflexivity.
  unfold SFcompare, rank, lex_compare.
  change (-1 ?= -1) with Eq. cbv iota.
    rewrite !Z.compare_opp, (Z.compare_antisym ex ey).
    change (Z.pos my ?= Z.pos mx) with (Pos.compare my mx).
    rewrite (Pos.compare_antisym mx my).
    fold (Pos.compare mx my).
    destruct (ex ?= ey); reflexivity.
Qed.

Lemma leb_rank (x y : float) :
  is_nan x = false -> is_nan y = false ->
  (leb x y = true <-> lex_le (rank x) (rank y)).
Proof.
  intros Hx Hy. unfold leb, SFleb. rewrite (SFcompare_rank x y Hx Hy).
  rewrite <- lex_compare_le.
  destruct (lex_compare (rank x) (rank y)); split; congruence.
Qed.

Lemma leb_refl (x : float) : is_nan x = false -> leb x x = true.
Proof.
  intros H. apply leb_rank; [exact H | exact H |].
  destruct (rank x) as [[a b] c]. simpl. lia.
Qed.

Lemma leb_trans (x y z : float) :
  is_nan x = false -> is_nan y = false -> is_nan z = false ->
  leb x y = true -> leb y z = true -> leb x z = true.
Proof.
  intros Hx Hy Hz. rewrite !leb_rank by assumption.
  destruct (rank x) as [[a1 a2] a3], (rank y) as [[b1 b2] b3],
    (rank z) as [[c1 c2] c3]. simpl. lia.
Qed.

(** What is not greater is less or equal. *)
Lemma gtb_false_leb (x y : float) :
  is_nan x = false -> is_nan y = false ->
  gtb x y = false -> leb x y = true.
Proof.
  intros Hx Hy. unfold gtb, leb, SFltb, SFleb.
  rewrite (SFcompare_rank y x Hy Hx), (SFcompare_rank x y Hx Hy).
  rewrite (lex_compare_antisym (rank x) (rank y)).
  destruct (lex_compare (rank y) (rank x)); simpl; congruence.
Qed.

Lemma gtb_true_leb (x y : float) : gtb x y = true -> leb y x = true.
Proof.
  unfold gtb, leb, SFltb, SFleb. destruct (SFcompare y x) as [[]|]; congruence.
Qed.

(** ** [max] *)

Lemma fold_max_spec (rest : list float) :
  forall v0, no_nan (v0 :: rest) ->
  is_maximum (fold_left (fun m x => if gtb x m then x else m) rest v0)
             (v0 :: rest).
Proof.
  induction rest as [|x rest IH]; intros v0 N.
  - simpl. split; [now left|]. intros y [<-|[]]. apply leb_refl.
    apply N. now left.
  - simpl fold_left.
    assert (is_nan v0 = false) as N0 by (apply N; now left).
    assert (is_nan x = false) as Nx by (apply N; right; now left).
    set (m := if gtb x v0 then x else v0).
    assert (is_nan m = false) as Nm by (unfold m; now destruct (gtb x v0)).
    assert (leb v0 m = true /\ leb x m = true /\ (m = v0 \/ m = x))
      as (L0 & Lx & Hm).
    { unfold m. destruct (gtb x v0) eqn:G.
      - repeat split; [now apply gtb_true_leb | now apply leb_refl | auto].
      - repeat split; [now apply leb_refl | now apply gtb_false_leb | auto]. }
    assert (no_nan (m :: rest)) as N'.
    { intros y [<-|Hy]; [exact Nm|]. apply N. right. now right. }
    destruct (IH m N') as [I M]. split.
    + destruct I as [I|I]; [|right; now right].
      rewrite <- I. destruct Hm as [->| ->]; [now left | right; now left].
    + set (res := fold_left _ rest m) in *.
      assert (is_nan res = false) as Nr.
      { destruct I as [<-|I]; [exact Nm|]. apply N. right. now right. }
      assert (leb m res = true) as Lm by (apply M; now left).
      intros y [E|[E|Hy]].
      * subst y. now apply (leb_trans v0 m res).
      * subst y. now apply (leb_trans x m res).
      * apply M. now right.
Qed.

Lemma py_max_spec (vals : list float) (v : float) :
  py_max vals = Ok v -> no_nan vals -> is_maximum v vals.
Proof.
  destruct vals as [|v0 rest]; simpl; [discriminate|].
  intros [= <-] N. now apply fold_max_spec.
Qed.

(** ** Whole numbers: order and sum *)

Lemma pow2_split (a b : Z) : 0 <= a -> 0 <= b -> 2 ^ (a + b) = 2 ^ a * 2 ^ b.
Proof. intros. now apply Z.pow_add_r. Qed.

Lemma pow2_pos (a : Z) : 0 <= a -> 0 < 2 ^ a.
Proof. intros. now apply Z.pow_pos_nonneg. Qed.

Lemma compare_of_int (a b : Z) :
  0 <= a < 2 ^ 53 -> 0 <= b < 2 ^ 53 ->
  SFcompare (of_int a) (of_int b) = Some (a ?= b).
Proof.
  intros Ha Hb.
  destruct (Z.eq_dec a 0) as [->|Na], (Z.eq_dec b 0) as [->|Nb].
  - reflexivity.
  - rewrite of_int_zero, of_int_pos by lia. unfold SFcompare.
    destruct (Z.compare_spec 0 b); try lia; reflexivity.
  - rewrite of_int_zero, of_int_pos by lia. unfold SFcompare.
    destruct (Z.compare_spec a 0); try lia; reflexivity.
  - rewrite !of_int_pos by lia. unfold SFcompare.
    destruct (mant_spec a ltac:(lia)) as [Ea _].
    destruct (mant_spec b ltac:(lia)) as [Eb _].
    pose proof (log2_range a ltac:(lia)) as La.
    pose proof (log2_range b ltac:(lia)) as Lb.
    pose proof (Z.log2_spec a ltac:(lia)) as Sa.
    pose proof (Z.log2_spec b ltac:(lia)) as Sb.
    unfold expo. f_equal.
    destruct (Z.compare_spec (Z.log2 a - 52) (Z.log2 b - 52)) as [E|L|L].
    + change (Pos.compare_cont Eq (mant a) (mant b))
        with (Z.pos (mant a) ?= Z.pos (mant b)).
      rewrite Ea, Eb.
      replace (Z.log2 b) with (Z.log2 a) by lia.
      pose proof (pow2_pos (52 - Z.log2 a) ltac:(lia)) as P.
      destruct (Z.compare_spec a b).
      * apply Z.compare_eq_iff. now subst.
      * apply Z.compare_lt_iff. nia.
      * apply Z.compare_gt_iff. nia.
    + symmetry. apply Z.compare_lt_iff.
      assert (2 ^ Z.succ (Z.log2 a) <= 2 ^ Z.log2 b)
        by (apply Z.pow_le_mono_r; lia). lia.
    + symmetry. apply Z.compare_gt_iff.
      assert (2 ^ Z.succ (Z.log2 b) <= 2 ^ Z.log2 a)
        by (apply Z.pow_le_mono_r; lia). lia.
Qed.

Lemma leb_of_int (a b : Z) :
  0 <= a < 2 ^ 53 -> 0 <= b < 2 ^ 53 ->
  (leb (of_int a) (of_int b) = true <-> a <= b).
Proof.
  intros Ha Hb. unfold leb, SFleb. rewrite compare_of_int by assumption.
  destruct (Z.compare_spec a b); split; intros; try lia; congruence.
Qed.

(** The order of two positive floats of full width is the order of their
    values, which [K] scales to whole numbers. *)
Lemma leb_finite_pos (m1 m2 : positive) (e1 e2 K : Z) :
  canonical m1 -> canonical m2 -> 0 <= e1 + K -> 0 <= e2 + K ->
  Z.pos m1 * 2 ^ (e1 + K) <= Z.pos m2 * 2 ^ (e2 + K) ->
  leb (S754_finite false m1 e1) (S754_finite false m2 e2) = true.
Proof.
  unfold canonical. intros C1 C2 H1 H2 H.
  unfold leb, SFleb, SFcompare.
  destruct (Z.compare_spec e1 e2) as [E|L|L]; [| reflexivity |].
  - subst e2. fold (Pos.compare m1 m2).
    pose proof (pow2_pos (e1 + K) H1) as P.
    destruct (Pos.compare_spec m1 m2) as [?|?|G]; try reflexivity.
    assert (Z.pos m2 < Z.pos m1) by lia. nia.
  - exfalso.
    pose proof (pow2_pos (e2 + K) H2) as P.
    assert (2 ^ (e1 + K) = 2 ^ (e2 + K) * 2 ^ (e1 - e2)) as E
        by (rewrite <- pow2_split by lia; f_equal; lia).
    assert (2 <= 2 ^ (e1 - e2)) as G
        by (change 2 with (2 ^ 1) at 1; apply Z.pow_le_mono_r; lia).
    rewrite E in H. nia.
Qed.

(** Rounding a whole number [k], given as [M * 2^ez]: nothing is lost. *)
Lemma binary_round_int (s : bool) (M : positive) (ez k : Z) :
  0 < k < 2 ^ 53 -> -1074 <= ez <= 0 -> Z.pos M = k * 2 ^ (- ez) ->
  binary_round prec emax s M ez = S754_finite s (mant k) (expo k).
Proof.
  intros Hk Hz EM.
  destruct (mant_spec k Hk) as [Ek Ck].
  pose proof (log2_range k Hk) as Lk.
  pose proof (Z.log2_spec k ltac:(lia)) as Sk.
  pose proof (pow2_pos (- ez) ltac:(lia)) as Pz.
  assert (Zdigits2 (Z.pos M) = Z.log2 k + 1 - ez) as DM.
  { apply Zdigits2_unique. rewrite EM.
    replace (Z.log2 k + 1 - ez - 1) with (Z.log2 k + - ez) by lia.
    replace (Z.log2 k + 1 - ez) with (Z.succ (Z.log2 k) + - ez) by lia.
    rewrite !pow2_split by lia. nia. }
  unfold binary_round, expo. rewrite digits2_pos_Zdigits2, DM.
  replace (Z.log2 k + 1 - ez + ez) with (53 + (Z.log2 k - 52)) by lia.
  rewrite fexp_53 by lia.
  pose proof (shl_align_spec M ez (Z.log2 k - 52)) as A.
  destruct (shl_align M ez (Z.log2 k - 52)) as [mz ez'].
  destruct (Z.ltb_spec (Z.log2 k - 52) ez) as [Lt|Ge].
  - destruct A as [A ->].
    rewrite (round_aux_exact s (mant k) _ 0 mz Ck); try lia.
    + f_equal. lia.
    + rewrite A, EM, Ek, Z.mul_1_r, <- Z.mul_assoc, <- pow2_split by lia.
      f_equal. f_equal. lia.
  - destruct A as [-> ->].
    rewrite (round_aux_exact s (mant k) ez (Z.log2 k - 52 - ez) M Ck);
      try lia.
    + f_equal. lia.
    + rewrite EM, Ek, <- Z.mul_assoc, <- pow2_split by lia.
      f_equal. f_equal. lia.
Qed.

(** The two mantissas of a sum or a difference, brought to the lesser
    exponent. *)
Lemma aligned_mant (a : Z) (ez : Z) :
  0 < a < 2 ^ 53 -> ez <= expo a -> -52 <= ez ->
  Z.pos (fst (shl_align (mant a) (expo a) ez)) = a * 2 ^ (- ez).
Proof.
  intros Ha Hz Hz'. destruct (mant_spec a Ha) as [Ea _].
  pose proof (log2_range a Ha) as La. unfold expo in *.
  pose proof (shl_align_spec (mant a) (Z.log2 a - 52) ez) as A.
  destruct (shl_align (mant a) (Z.log2 a - 52) ez) as [m e]. simpl.
  destruct (Z.ltb_spec ez (Z.log2 a - 52)).
  - destruct A as [-> _]. rewrite Ea, <- Z.mul_assoc, <- pow2_split by lia.
    f_equal. f_equal. lia.
  - destruct A as [-> _]. rewrite Ea. f_equal. f_equal. lia.
Qed.

(** The sum of two whole numbers is exact as long as it stays below
    [2^53]. *)
Lemma add_of_int (a b : Z) :
  0 <= a -> 0 <= b -> a + b < 2 ^ 53 ->
  add (of_int a) (of_int b) = of_int (a + b).
Proof.
  intros Ha Hb H.
  destruct (Z.eq_dec a 0) as [->|Na].
  { rewrite of_int_zero. simpl Z.add.
    destruct (Z.eq_dec b 0) as [->|Nb]; [reflexivity|].
    now rewrite of_int_pos by lia. }
  destruct (Z.eq_dec b 0) as [->|Nb].
  { rewrite of_int_zero, Z.add_0_r. now rewrite of_int_pos by lia. }
  rewrite !of_int_pos by lia.
  pose proof (log2_range a ltac:(lia)) as La.
  pose proof (log2_range b ltac:(lia)) as Lb.
  unfold add, SFadd.
  set (ez := Z.min (expo a) (expo b)).
  assert (ez <= expo a /\ ez <= expo b /\ -52 <= ez <= 0)
    as (Hza & Hzb & Hz) by (unfold ez, expo; lia).
  pose proof (aligned_mant a ez ltac:(lia) Hza ltac:(lia)) as Aa.
  pose proof (aligned_mant b ez ltac:(lia) Hzb ltac:(lia)) as Ab.
  set (ma := fst (shl_align (mant a) (expo a) ez)) in *.
  set (mb := fst (shl_align (mant b) (expo b) ez)) in *.
  unfold cond_Zopp. change (Z.pos ma + Z.pos mb) with (Z.pos (ma + mb)).
  unfold binary_normalize.
  apply binary_round_int; [lia | lia |].
  rewrite Pos2Z.inj_add, Aa, Ab. ring.
Qed.

(** The difference of a whole number and a greater one is exact too. *)
Lemma sub_of_int (a b : Z) :
  0 <= a -> a < b < 2 ^ 53 ->
  sub (of_int a) (of_int b) = SFopp (of_int (b - a)).
Proof.
  intros Ha Hb.
  destruct (Z.eq_dec a 0) as [->|Na].
  { rewrite of_int_zero, Z.sub_0_r. now rewrite of_int_pos by lia. }
  rewrite !of_int_pos by lia.
  pose proof (log2_range a ltac:(lia)) as La.
  pose proof (log2_range b ltac:(lia)) as Lb.
  unfold sub, SFsub, SFopp.
  set (ez := Z.min (expo a) (expo b)).
  assert (ez <= expo a /\ ez <= expo b /\ -52 <= ez <= 0)
    as (Hza & Hzb & Hz) by (unfold ez, expo; lia).
  pose proof (aligned_mant a ez ltac:(lia) Hza ltac:(lia)) as Aa.
  pose proof (aligned_mant b ez ltac:(lia) Hzb ltac:(lia)) as Ab.
  set (ma := fst (shl_align (mant a) (expo a) ez)) in *.
  set (mb := fst (shl_align (mant b) (expo b) ez)) in *.
  unfold cond_Zopp.
  pose proof (pow2_pos (- ez) ltac:(lia)) as Pz.
  destruct (Z.pos ma - Z.pos mb) as [|p|p] eqn:E; try nia.
  unfold binary_normalize. cbn [negb].
  apply binary_round_int; [lia | lia |].
  assert (Z.pos p = Z.pos mb - Z.pos ma) as -> by lia.
  rewrite Aa, Ab. ring.
Qed.

Lemma sub_of_int_same (a : Z) :
  0 <= a < 2 ^ 53 -> sub (of_int a) (of_int a) = pos_zero.
Proof.
  intros Ha. destruct (Z.eq_dec a 0) as [->|Na]; [reflexivity|].
  rewrite of_int_pos by lia. unfold sub, SFsub.
  now rewrite Z.sub_diag.
Qed.

(** A whole number and its opposite add up to the positive zero. *)
Lemma add_opp_of_int (k : Z) :
  0 < k < 2 ^ 53 -> add (SFopp (of_int k)) (of_int k) = pos_zero.
Proof.
  intros Hk. rewrite of_int_pos by lia. unfold add, SFopp, SFadd.
  cbn [negb cond_Zopp]. rewrite Z.add_opp_diag_l. reflexivity.
Qed.

(** The correction that the compensated sum computes for a step that is
    exact is the positive zero. *)
Lemma compensation_of_int (a b : Z) :
  0 <= a -> 0 <= b -> a + b < 2 ^ 53 ->
  add (sub (of_int a) (of_int (a + b))) (of_int b) = pos_zero.
Proof.
  intros Ha Hb H. destruct (Z.eq_dec b 0) as [->|Nb].
  - rewrite Z.add_0_r, sub_of_int_same by lia. reflexivity.
  - rewrite sub_of_int by lia. replace (a + b - a) with b by lia.
    apply add_opp_of_int. lia.
Qed.

Lemma Zsum_nonneg (ns : list Z) :
  (forall n, In n ns -> 0 <= n) -> 0 <= Zsum ns.
Proof.
  induction ns as [|n ns IH]; intros H; [cbn; lia|].
  cbn [Zsum fold_right]. fold (Zsum ns).
  assert (0 <= n) by (apply H; now left).
  assert (0 <= Zsum ns) by (apply IH; intros; apply H; now right). lia.
Qed.

Lemma fold_add_of_int (ns : list Z) :
  forall acc, 0 <= acc -> (forall n, In n ns -> 0 <= n) ->
  acc + Zsum ns < 2 ^ 53 ->
  fold_left add (map of_int ns) (of_int acc) = of_int (acc + Zsum ns).
Proof.
  induction ns as [|n ns IH]; intros acc Ha Hn H.
  - cbn. now rewrite Z.add_0_r.
  - cbn [map fold_left Zsum fold_right] in *. fold (Zsum ns) in *.
    assert (0 <= n) by (apply Hn; now left).
    assert (0 <= Zsum ns) by (apply Zsum_nonneg; intros; apply Hn; now right).
    rewrite add_of_int by lia. rewrite IH; try lia.
    + f_equal. lia.
    + intros. apply Hn. now right.
Qed.

Lemma compensated_of_int (ns : list Z) :
  forall acc, 0 <= acc -> (forall n, In n ns -> 0 <= n) ->
  acc + Zsum ns < 2 ^ 53 ->
  compensated (map of_int ns) (of_int acc) pos_zero
  = (of_int (acc + Zsum ns), pos_zero).
Proof.
  induction ns as [|n ns IH]; intros acc Ha Hn H.
  - cbn. now rewrite Z.add_0_r.
  - cbn [map compensated Zsum fold_right] in *. fold (Zsum ns) in *.
    assert (0 <= n) by (apply Hn; now left).
    assert (0 <= Zsum ns) by (apply Zsum_nonneg; intros; apply Hn; now right).
    rewrite add_of_int by lia.
    rewrite (compensation_of_int acc n) by lia.
    replace (acc + n) with (n + acc) at 2 by lia.
    rewrite (compensation_of_int n acc) by lia.
    replace (if leb (abs (of_int n)) (abs (of_int acc))
             then add pos_zero pos_zero else add pos_zero pos_zero)
      with pos_zero by (now destruct (leb _ _)).
    rewrite IH; try lia.
    + f_equal. f_equal. lia.
    + intros. apply Hn. now right.
Qed.

(** The sum of whole byte counts, as either interpreter computes it, is
    their sum. *)
Lemma float_sum_of_int (py : cpython) (ns : list Z) :
  (forall n, In n ns -> 0 <= n) -> Zsum ns < 2 ^ 53 ->
  float_sum py (map of_int ns) = of_int (Zsum ns).
Proof.
  intros Hn H. destruct py; unfold float_sum.
  - change pos_zero with (of_int 0).
    now rewrite (fold_add_of_int ns 0 ltac:(lia) Hn ltac:(lia)).
  - destruct ns as [|n ns]; [reflexivity|].
    cbn [map Zsum fold_right] in *. fold (Zsum ns) in *.
    assert (0 <= n) by (apply Hn; now left).
    assert (0 <= Zsum ns) by (apply Zsum_nonneg; intros; apply Hn; now right).
    change pos_zero with (of_int 0) at 1.
    rewrite add_of_int by lia. simpl Z.add.
    rewrite compensated_of_int; try lia.
    + reflexivity.
    + intros. apply Hn. now right.
Qed.

End FloatOrder.

Section FloatRounding.
Import Float64.

(** ** Rounding a mantissa of 53 bits or more *)

Lemma round_nearest_even_cases (mx : Z) (lx : location) :
  round_nearest_even mx lx = mx \/
  (round_nearest_even mx lx = mx + 1 /\ lx <> loc_Exact).
Proof.
  destruct lx as [|[]]; simpl; auto.
  - destruct (Z.even mx); [auto | right; split; [reflexivity|discriminate]].
  - right. split; [reflexivity|discriminate].
Qed.

Lemma loc_of_shr_record_exact (m : Z) (r s : bool) :
  loc_of_shr_record (Build_shr_record m r s) = loc_Exact <-> r || s = false.
Proof. destruct r, s; simpl; split; congruence. Qed.

Lemma shr_record_of_loc_exact (m : Z) (l : location) :
  exists r s, shr_record_of_loc m l = Build_shr_record m r s /\
              (r || s = false <-> l = loc_Exact).
Proof.
  destruct l as [|[]]; simpl; eexists; eexists; split; try reflexivity;
    simpl; split; congruence.
Qed.

Lemma new_location_exact (nb k : Z) :
  new_location nb k = loc_Exact <-> k = 0.
Proof.
  unfold new_location, new_location_even, new_location_odd.
  destruct (Z.even nb), (Z.eqb_spec k 0); split; congruence.
Qed.

(** The result of rounding [q * 2^e] when [q] has [53 + k] bits: the
    mantissa [q / 2^k], or the next one when something was lost, scaled
    back to full width. *)
Lemma round_aux_spec (sx : bool) (q : positive) (e k : Z) (l : location) :
  0 <= k -> Zdigits2 (Z.pos q) = 53 + k -> -1074 <= e ->
  exists (m2 : positive) (e2 m1 : Z),
    canonical m2 /\ e + k <= e2 <= e + k + 1 /\
    binary_round_aux prec emax sx (Z.pos q) e l
    = (if e2 <=? 971 then S754_finite sx m2 e2 else S754_infinity sx) /\
    Z.pos m2 * 2 ^ (e2 - e) = m1 * 2 ^ k /\
    (m1 = Z.pos q / 2 ^ k \/
     (m1 = Z.pos q / 2 ^ k + 1 /\
      (Z.pos q mod 2 ^ k <> 0 \/ l <> loc_Exact))).
Proof.
  intros Hk D He.
  pose proof (Zdigits2_bounds q) as B. rewrite D in B.
  replace (53 + k - 1) with (52 + k) in B by lia.
  rewrite !pow2_split in B by lia.
  pose proof (pow2_pos k Hk) as Pk.
  unfold binary_round_aux, shr_fexp. rewrite D.
  replace (53 + k + e) with (53 + (e + k)) by lia.
  rewrite fexp_53 by lia. replace (e + k - e) with k by lia.
  destruct (shr_record_of_loc_exact (Z.pos q) l) as (r0 & s0 & -> & L0).
  pose proof (shr_spec (Z.pos q) e k r0 s0 ltac:(lia) Hk) as S.
  destruct (shr (Build_shr_record (Z.pos q) r0 s0) e k) as [[m1 r1 s1] e1].
  simpl in S. destruct S as (-> & -> & S).
  set (m1 := Z.pos q / 2 ^ k) in *.
  assert (2 ^ 52 <= m1 < 2 ^ 53) as B1.
  { unfold m1. split.
    - apply Z.div_le_lower_bound; lia.
    - apply Z.div_lt_upper_bound; lia. }
  cbn [shr_m].
  set (l1 := loc_of_shr_record (Build_shr_record m1 r1 s1)).
  assert (l1 <> loc_Exact -> Z.pos q mod 2 ^ k <> 0 \/ l <> loc_Exact) as I1.
  { intros N. unfold l1 in N. rewrite loc_of_shr_record_exact in N.
    rewrite S, L0 in N.
    destruct (Z.eq_dec (Z.pos q mod 2 ^ k) 0) as [Z0|Z0]; [|now left].
    right. intros E. apply N. now split. }
  set (m1' := round_nearest_even m1 l1).
  assert (m1' = m1 \/
          (m1' = m1 + 1 /\ (Z.pos q mod 2 ^ k <> 0 \/ l <> loc_Exact)))
    as C1.
  { destruct (round_nearest_even_cases m1 l1) as [E|[E N]]; [now left|].
    right. split; [exact E | now apply I1]. }
  assert (2 ^ 52 <= m1' <= 2 ^ 53) as B1' by lia.
  destruct m1' as [|p1|p1] eqn:E1; try lia.
  destruct (Z_lt_le_dec (Z.pos p1) (2 ^ 53)) as [Lt|Ge].
  - (* no carry *)
    assert (Zdigits2 (Z.pos p1) = 53) as D1 by (apply Zdigits2_unique; lia).
    rewrite D1, fexp_53 by lia. rewrite Z.sub_diag.
    cbn [shr_record_of_loc shr shr_m].
    exists p1, (e + k), (Z.pos p1).
    split; [unfold canonical; lia|]. split; [lia|].
    split; [unfold prec, emax; reflexivity|].
    split; [f_equal; f_equal; lia | exact C1].
  - (* the rounding carried into a 54th bit *)
    assert (Z.pos p1 = 2 ^ 53) as E53 by lia.
    assert (Zdigits2 (Z.pos p1) = 54)
      as D1 by (apply Zdigits2_unique; rewrite E53; simpl; lia).
    rewrite D1. replace (54 + (e + k)) with (53 + (e + k + 1)) by lia.
    rewrite fexp_53 by lia. replace (e + k + 1 - (e + k)) with 1 by lia.
    unfold shr_record_of_loc, shr. cbn [iter_pos].
    rewrite shr_1_spec by lia. cbn [shr_m].
    rewrite E53. change (2 ^ 53 / 2) with (Z.pos (Z.to_pos (2 ^ 52))).
    exists (Z.to_pos (2 ^ 52)), (e + k + 1), (Z.pos p1).
    split; [unfold canonical; simpl; lia|]. split; [lia|].
    split; [unfold prec, emax; reflexivity|].
    split; [|exact C1].
    replace (e + k + 1 - e) with (1 + k) by lia.
    rewrite pow2_split, E53 by lia.
    change (Z.pos (Z.to_pos (2 ^ 52))) with (2 ^ 52).
    change (2 ^ 53) with (2 ^ 52 * 2 ^ 1). ring.
Qed.

(** [float(n)] is zero for no positive [n], however large. *)
Lemma of_int_nonzero (n : Z) : 0 < n -> is_zero (of_int n) = false.
Proof.
  intros H. destruct n as [|p|p]; try lia.
  unfold of_int, binary_normalize, binary_round.
  rewrite digits2_pos_Zdigits2, Z.add_0_r.
  pose proof (Zdigits2_bounds p) as B.
  set (d := Zdigits2 (Z.pos p)) in *.
  assert (1 <= d) as Hd.
  { destruct (Z_lt_le_dec d 1); [|lia]. exfalso.
    destruct (Z.eq_dec d 0) as [E|E].
    - rewrite E in B. simpl in B. lia.
    - rewrite (Z.pow_neg_r 2 d) in B by lia. lia. }
  assert (fexp prec emax d = d - 53) as -> by (unfold fexp, emin, prec, emax; lia).
  pose proof (shl_align_spec p 0 (d - 53)) as A.
  destruct (shl_align p 0 (d - 53)) as [mz ez].
  assert (exists k, 0 <= k /\ Zdigits2 (Z.pos mz) = 53 + k /\ -1074 <= ez)
    as (k & Hk & Dz & Hez).
  { destruct (Z.ltb_spec (d - 53) 0) as [Lt|Ge].
    - destruct A as [A ->]. exists 0. repeat split; try lia.
      apply Zdigits2_unique. rewrite A.
      pose proof (pow2_pos (0 - (d - 53)) ltac:(lia)) as P.
      replace (2 ^ (53 + 0 - 1)) with (2 ^ (d - 1) * 2 ^ (0 - (d - 53)))
        by (rewrite <- pow2_split by lia; f_equal; lia).
      replace (2 ^ (53 + 0)) with (2 ^ d * 2 ^ (0 - (d - 53)))
        by (rewrite <- pow2_split by lia; f_equal; lia).
      nia.
    - destruct A as [-> ->]. exists (d - 53). fold d.
      repeat split; lia. }
  destruct (round_aux_spec false mz ez k loc_Exact Hk Dz Hez)
    as (m2 & e2 & m1 & _ & _ & -> & _).
  now destruct (e2 <=? 971).
Qed.

End FloatRounding.

Section FloatDivision.
Import Float64.

(** ** The quotient of two whole numbers *)

(** [float(S) / float(n)] is a positive float of full width; scaled by
    [2^t] it is a whole number [V] that no whole bound of the exact
    quotient separates from the quotient: the rounding never crosses a
    whole number. *)
Lemma div_of_int_spec (S n : Z) :
  0 < S < 2 ^ 53 -> 0 < n < 2 ^ 53 ->
  exists (m2 : positive) (e2 t : Z),
    canonical m2 /\
    div (of_int S) (of_int n) = S754_finite false m2 e2 /\
    1 <= t <= 105 /\ 0 <= e2 + t <= 2 /\
    (forall x, 0 <= x -> x * n <= S -> x * 2 ^ t <= Z.pos m2 * 2 ^ (e2 + t)) /\
    (forall x, 0 <= x -> S <= x * n -> Z.pos m2 * 2 ^ (e2 + t) <= x * 2 ^ t).
Proof.
  intros HS Hn.
  destruct (mant_spec S HS) as [ES CS]. destruct (mant_spec n Hn) as [En Cn].
  pose proof (log2_range S HS) as LS. pose proof (log2_range n Hn) as Ln.
  rewrite !of_int_pos by assumption.
  unfold div, SFdiv, SFdiv_core_binary. cbn [xorb].
  rewrite (Zdigits2_unique (mant S) 53 CS), (Zdigits2_unique (mant n) 53 Cn).
  unfold expo.
  set (t := 53 + Z.log2 n - Z.log2 S).
  replace (53 + (Z.log2 S - 52) - (53 + (Z.log2 n - 52)))
    with (53 + - t) by (unfold t; lia).
  rewrite fexp_53 by (unfold t; lia).
  replace (Z.log2 S - 52 - (Z.log2 n - 52)) with (- t + 53) by (unfold t; lia).
  rewrite Z.min_l by lia.
  replace (- t + 53 - - t) with 53 by lia.
  cbv iota. rewrite Z.shiftl_mul_pow2 by lia.
  set (A := Z.pos (mant S) * 2 ^ 53). set (B := Z.pos (mant n)).
  pose proof (Z_div_mod A B ltac:(lia)) as DM.
  destruct (Z.div_eucl A B) as [q r]. destruct DM as [DM R].
  unfold canonical in CS, Cn. fold B in Cn.
  assert (2 ^ 52 <= q < 2 ^ 54) as Bq.
  { assert (2 ^ 52 * 2 ^ 53 <= A < 2 ^ 53 * 2 ^ 53) as BA
        by (unfold A; lia).
    split; [|nia].
    destruct (Z_lt_le_dec q (2 ^ 52)); [|lia]. exfalso. nia. }
  destruct q as [|qp|qp]; try lia.
  (* the scale shared by the dividend and the divisor *)
  set (P := 2 ^ (105 - Z.log2 S)).
  assert (0 < P) as HP by (apply pow2_pos; lia).
  assert (1 <= t <= 105) as Ht by (unfold t; lia).
  pose proof (pow2_pos t ltac:(lia)) as Pt.
  assert (A = S * P) as EA.
  { unfold A, P. rewrite ES, <- Z.mul_assoc, <- pow2_split by lia.
    f_equal. f_equal. lia. }
  assert (B * 2 ^ t = n * P) as EB.
  { unfold B, P, t. rewrite En, <- Z.mul_assoc, <- pow2_split by lia.
    f_equal. f_equal. lia. }
  assert (forall x, 0 <= x -> x * n <= S -> x * 2 ^ t <= Z.pos qp) as Lo.
  { intros x Hx H.
    assert (x * 2 ^ t * B <= A) by (rewrite EA; nia).
    nia. }
  assert (forall x, 0 <= x -> S <= x * n ->
                    Z.pos qp <= x * 2 ^ t /\
                    (r <> 0 -> Z.pos qp < x * 2 ^ t)) as Hi.
  { intros x Hx H.
    assert (A <= x * 2 ^ t * B) by (rewrite EA; nia).
    split; [nia|]. intros Hr. nia. }
  assert (exists z, 2 ^ t = 2 * z /\ 0 < z) as (z & Ez & Hz).
  { exists (2 ^ (t - 1)). split; [|apply pow2_pos; lia].
    replace t with (1 + (t - 1)) at 1 by lia.
    now rewrite pow2_split by lia. }
  assert (exists k, (k = 0 \/ k = 1) /\ Zdigits2 (Z.pos qp) = 53 + k)
    as (k & Hk & Dk).
  { destruct (Z_lt_le_dec (Z.pos qp) (2 ^ 53)).
    - exists 0. split; [now left|]. apply Zdigits2_unique. simpl. lia.
    - exists 1. split; [now right|]. apply Zdigits2_unique. simpl. lia. }
  destruct (round_aux_spec false qp (- t) k (new_location B r)
              ltac:(lia) Dk ltac:(lia))
    as (m2 & e2 & m1 & C2 & He2 & -> & EV & C1).
  exists m2, e2, t.
  split; [exact C2|].
  split; [destruct (Z.leb_spec e2 971); [reflexivity | lia]|].
  split; [exact Ht|]. split; [lia|].
  replace (e2 - - t) with (e2 + t) in EV by lia. rewrite EV.
  rewrite new_location_exact in C1.
  destruct Hk as [-> | ->].
  - (* the quotient has 53 bits *)
    change (2 ^ 0) with 1 in *. rewrite Z.div_1_r, Z.mod_1_r in C1.
    split.
    + intros x Hx H. specialize (Lo x Hx H). lia.
    + intros x Hx H. destruct (Hi x Hx H) as [H1 H2].
      destruct C1 as [->|[-> [N|N]]]; try lia; specialize (H2 N); lia.
  - (* the quotient has 54 bits *)
    change (2 ^ 1) with 2 in *. rewrite Ez in *.
    split.
    + intros x Hx H. specialize (Lo x Hx H).
      destruct C1 as [->|[-> _]]; div_lia.
    + intros x Hx H. destruct (Hi x Hx H) as [H1 H2].
      destruct C1 as [->|[-> [N|N]]]; try div_lia;
        specialize (H2 N); div_lia.
Qed.

Lemma scaled_mant (a K : Z) :
  0 < a < 2 ^ 53 -> 52 <= K ->
  Z.pos (mant a) * 2 ^ (expo a + K) = a * 2 ^ K.
Proof.
  intros Ha HK. destruct (mant_spec a Ha) as [E _].
  pose proof (log2_range a Ha) as L. unfold expo.
  rewrite E, <- Z.mul_assoc, <- pow2_split by lia. f_equal. f_equal. lia.
Qed.

(** The float quotient of two whole numbers lies between the whole
    numbers that bound the exact quotient. *)
Lemma div_of_int_bounds (lo hi S n : Z) :
  0 <= lo -> hi < 2 ^ 53 -> 0 <= S < 2 ^ 53 -> 0 < n < 2 ^ 53 ->
  lo * n <= S -> S <= hi * n ->
  leb (of_int lo) (div (of_int S) (of_int n)) = true /\
  leb (div (of_int S) (of_int n)) (of_int hi) = true.
Proof.
  intros Hlo Hhi HS Hn L H.
  assert (0 <= hi) as Hhi0 by nia.
  assert (lo <= S) as HloS by nia.
  destruct (Z.eq_dec S 0) as [->|NS].
  - assert (lo = 0) as -> by nia.
    assert (div (of_int 0) (of_int n) = of_int 0) as ->
        by (rewrite (of_int_pos n) by lia; reflexivity).
    split; apply leb_of_int; lia.
  - destruct (div_of_int_spec S n ltac:(lia) Hn)
      as (m2 & e2 & t & C2 & -> & Ht & He2 & Lo & Hi).
    pose proof (pow2_pos (200 - t) ltac:(lia)) as P.
    assert (Z.pos m2 * 2 ^ (e2 + 200)
            = Z.pos m2 * 2 ^ (e2 + t) * 2 ^ (200 - t)) as EV.
    { rewrite <- Z.mul_assoc, <- pow2_split by lia. f_equal. f_equal. lia. }
    assert (forall x, x * 2 ^ 200 = x * 2 ^ t * 2 ^ (200 - t)) as EX.
    { intros x. rewrite <- Z.mul_assoc, <- pow2_split by lia.
      f_equal. f_equal. lia. }
    split.
    + destruct (Z.eq_dec lo 0) as [->|Nlo]; [reflexivity|].
      rewrite of_int_pos by lia.
      pose proof (log2_range lo ltac:(lia)) as Ll.
      destruct (mant_spec lo ltac:(lia)) as [_ Cl].
      apply (leb_finite_pos _ _ _ _ 200 Cl C2); unfold expo; try lia.
      fold (expo lo). rewrite scaled_mant, EV, EX by lia.
      specialize (Lo lo Hlo L). nia.
    + assert (0 < hi) as Hhi1 by nia.
      rewrite (of_int_pos hi) by lia.
      pose proof (log2_range hi ltac:(lia)) as Lh.
      destruct (mant_spec hi ltac:(lia)) as [_ Ch].
      apply (leb_finite_pos _ _ _ _ 200 C2 Ch); unfold expo; try lia.
      fold (expo hi). rewrite scaled_mant, EV, EX by lia.
      specialize (Hi hi Hhi0 H). nia.
Qed.

Lemma Zsum_bounds (ns : list Z) (lo hi : Z) :
  (forall n, In n ns -> lo <= n <= hi) ->
  lo * len ns <= Zsum ns <= hi * len ns.
Proof.
  unfold len. induction ns as [|n ns IH]; intros H.
  - cbn. lia.
  - cbn [Zsum fold_right List.length]. fold (Zsum ns).
    rewrite Nat2Z.inj_succ.
    assert (lo <= n <= hi) by (apply H; now left).
    assert (lo * Z.of_nat (List.length ns) <= Zsum ns
            <= hi * Z.of_nat (List.length ns))
      by (apply IH; intros; apply H; now right).
    lia.
Qed.

Lemma In_le_Zsum (ns : list Z) (n : Z) :
  (forall k, In k ns -> 0 <= k) -> In n ns -> n <= Zsum ns.
Proof.
  induction ns as [|k ns IH]; intros H I; [destruct I|].
  cbn [Zsum fold_right]. fold (Zsum ns).
  assert (0 <= k) by (apply H; now left).
  assert (0 <= Zsum ns) by (apply Zsum_nonneg; intros; apply H; now right).
  destruct I as [->|I]; [lia|].
  assert (n <= Zsum ns) by (apply IH; [intros; apply H; now right|exact I]).
  lia.
Qed.

(** The mean of whole byte counts, as the scripts compute it, lies
    between the least and the greatest of them. *)
Lemma mean_between (py : cpython) (vals : list float) (ns : list Z)
    (lo hi : float) :
  byte_counts vals ns -> 0 < len vals < 2 ^ 53 ->
  is_minimum lo vals -> is_maximum hi vals ->
  leb lo (div (float_sum py vals) (of_int (len vals))) = true /\
  leb (div (float_sum py vals) (of_int (len vals))) hi = true.
Proof.
  intros (-> & Hn & HS) Hl [Ilo Mlo] [Ihi Mhi].
  assert (forall n, In n ns -> 0 <= n < 2 ^ 53) as Hr.
  { intros n I. split; [now apply Hn|].
    pose proof (In_le_Zsum ns n Hn I). lia. }
  apply in_map_iff in Ilo. destruct Ilo as (nlo & <- & Ilo).
  apply in_map_iff in Ihi. destruct Ihi as (nhi & <- & Ihi).
  assert (forall n, In n ns -> nlo <= n <= nhi) as B.
  { intros n I. split.
    - apply (leb_of_int nlo n); [now apply Hr | now apply Hr |].
      apply Mlo. now apply in_map.
    - apply (leb_of_int n nhi); [now apply Hr | now apply Hr |].
      apply Mhi. now apply in_map. }
  pose proof (Zsum_bounds ns nlo nhi B) as SB.
  rewrite float_sum_of_int by assumption.
  assert (len (map of_int ns) = len ns) as E
      by (unfold len; now rewrite length_map).
  rewrite E in *.
  pose proof (Zsum_nonneg ns Hn).
  apply div_of_int_bounds; try lia.
  - now apply Hr.
  - now apply Hr.
Qed.

End FloatDivision.

(* ===================================================================== *)
(** * The rows *)
(* ===================================================================== *)

Section RowFacts.

Lemma gib_divisor_nonzero : Float64.is_zero (Float64.of_int (1024 ^ 3)) = false.
Proof. reflexivity. Qed.

Lemma truediv_gib (x : float) :
  Float64.truediv_int x (1024 ^ 3)
  = Ok (Float64.div x (Float64.of_int (1024 ^ 3))).
Proof.
  unfold Float64.truediv_int, Float64.truediv.
  now rewrite gib_divisor_nonzero.
Qed.

Lemma len_pos {A : Type} (l : list A) : l <> [] -> 0 < len l.
Proof. destruct l; [congruence|]. intros _. unfold len. simpl. lia. Qed.

(** The mean of a bucket that has a value. *)
Lemma mean_nonempty (py : cpython) (vals : list float) :
  vals <> [] ->
  py_truediv (py_sum py vals) (len vals)
  = Ok (Float64.div (float_sum py vals) (Float64.of_int (len vals))).
Proof.
  intros N. pose proof (len_pos vals N) as L.
  destruct vals as [|v vals]; [congruence|].
  unfold py_sum, py_truediv, Float64.truediv_int, Float64.truediv.
  now rewrite of_int_nonzero by exact L.
Qed.

(** A bucket without values would stop the second loop at its mean. *)
Lemma mean_empty (py : cpython) :
  py_truediv (py_sum py []) (len (@nil float))
  = Raise (ZeroDivisionError "division by zero").
Proof. reflexivity. Qed.

Lemma py_max_nonempty (vals : list float) :
  vals <> [] -> exists v, py_max vals = Ok v.
Proof. destruct vals; [congruence|]. simpl. eauto. Qed.

Lemma build_rows_spec (py : cpython) (buckets : buckets_t)
    (periods : list string) :
  forall rows, build_rows py periods buckets = Ok rows ->
  map period rows = periods /\
  forall r, In r rows -> row_of_bucket py buckets r.
Proof.
  induction periods as [|p periods IH]; intros rows H.
  - injection H as <-. split; [reflexivity | intros r []].
  - cbn [build_rows] in H.
    destruct (getitem buckets p) as [|v vals] eqn:G; [discriminate|].
    rewrite mean_nonempty in H by discriminate.
    cbn [Py.bind] in H.
    apply bind_ok in H. destruct H as (mx & Hmx & H).
    rewrite !truediv_gib in H. cbn [Py.bind] in H.
    apply bind_ok in H. destruct H as (rows' & Hrows & [= <-]).
    destruct (IH rows' Hrows) as [IHp IHr].
    split; [cbn; now rewrite IHp|].
    intros r [<-|I]; [|now apply IHr].
    unfold row_of_bucket. cbn [period avg_bytes max_bytes avg_gib max_gib].
    rewrite G. repeat split; try reflexivity; [discriminate | exact Hmx].
Qed.

Lemma build_rows_ok (py : cpython) (buckets : buckets_t)
    (periods : list string) :
  (forall p, In p periods -> getitem buckets p <> []) ->
  exists rows, build_rows py periods buckets = Ok rows.
Proof.
  induction periods as [|p periods IH]; intros H.
  - exists []. reflexivity.
  - destruct IH as [rows Hrows]; [intros; apply H; now right|].
    assert (getitem buckets p <> []) as N by (apply H; now left).
    destruct (py_max_nonempty _ N) as [mx Hmx].
    eexists. cbn [build_rows].
    rewrite (mean_nonempty py _ N), Hmx. cbn [Py.bind].
    rewrite !truediv_gib. cbn [Py.bind]. rewrite Hrows. reflexivity.
Qed.

(** ** The whole aggregation *)

Lemma aggregate_samples_ok (py : cpython) (samples : list (float * float))
    (group_by : string) (ks : list string) :
  samples <> [] -> sample_keys samples group_by = Ok ks ->
  exists buckets rows,
    fill_buckets samples group_by [] = Ok buckets /\
    aggregate_samples py samples group_by = Ok rows /\
    map period rows = sorted (keys buckets) /\
    NoDup (keys buckets) /\
    (forall p, In p (keys buckets) <-> In p ks) /\
    (forall p, getitem buckets p = bucket_values samples group_by p) /\
    (forall r, In r rows -> row_of_bucket py buckets r).
Proof.
  intros N K.
  destruct (fill_buckets_ok samples group_by ks [] K) as (b & F & G & I & D).
  assert (forall p, In p (sorted (keys b)) -> getitem b p <> []) as NE.
  { intros p Hp. rewrite G. simpl.
    apply (bucket_values_nonempty samples group_by ks p K).
    apply (Permutation_in p (Permutation_sym (sorted_perm (keys b)))) in Hp.
    apply I in Hp. destruct Hp as [[]|Hp]. exact Hp. }
  destruct (build_rows_ok py b _ NE) as [rows R].
  destruct (build_rows_spec py b _ rows R) as [P S].
  exists b, rows. split; [exact F|]. split.
  { unfold aggregate_samples. destruct samples; [congruence|].
    rewrite F. exact R. }
  split; [exact P|]. split; [apply D; constructor|].
  split; [intros p; rewrite I; simpl; tauto|].
  split; [intros p; now rewrite G | exact S].
Qed.

Lemma aggregate_samples_keys (py : cpython)
    (samples : list (float * float)) (group_by : string)
    (rows : list row) :
  aggregate_samples py samples group_by = Ok rows ->
  samples <> [] /\ exists ks, sample_keys samples group_by = Ok ks.
Proof.
  unfold aggregate_samples. destruct samples as [|s samples]; [discriminate|].
  intros H. split; [discriminate|].
  apply bind_ok in H. destruct H as (b & F & _).
  now apply fill_buckets_keys in F.
Qed.

Lemma aggregate_samples_raise (py : cpython)
    (samples : list (float * float)) (group_by : string) (e : exn) :
  samples <> [] -> sample_keys samples group_by = Raise e ->
  aggregate_samples py samples group_by = Raise e.
Proof.
  intros N K. unfold aggregate_samples.
  destruct samples; [congruence|].
  now rewrite (fill_buckets_raise _ _ _ [] K).
Qed.

(** Every row of a result is the row of the bucket of its period. *)
Lemma aggregate_samples_row (py : cpython)
    (samples : list (float * float)) (group_by : string)
    (rows : list row) (r : row) :
  aggregate_samples py samples group_by = Ok rows -> In r rows ->
  let vals := bucket_values samples group_by (period r) in
  vals <> [] /\
  avg_bytes r
  = Float64.div (float_sum py vals) (Float64.of_int (len vals)) /\
  py_max vals = Ok (max_bytes r) /\
  avg_gib r = Float64.div (avg_bytes r) (Float64.of_int (1024 ^ 3)) /\
  max_gib r = Float64.div (max_bytes r) (Float64.of_int (1024 ^ 3)).
Proof.
  intros H I.
  destruct (aggregate_samples_keys _ _ _ _ H) as [N [ks K]].
  destruct (aggregate_samples_ok py _ _ _ N K)
    as (b & rows' & _ & H' & _ & _ & _ & G & S).
  rewrite H in H'. injection H' as <-.
  specialize (S r I). unfold row_of_bucket in S. rewrite G in S. exact S.
Qed.

End RowFacts.

(* ===================================================================== *)
(** * The properties of the aggregation *)
(* ===================================================================== *)

(** ** The worked scenario of the specification *)

Lemma scenario_by_day (py : cpython) :
  aggregate_samples py Examples.scenario "day"
  = Ok [Examples.scenario_day1; Examples.scenario_day2].
Proof. destruct py; vm_compute; reflexivity. Qed.

Lemma scenario_by_month (py : cpython) :
  aggregate_samples py Examples.scenario "month"
  = Ok [Examples.scenario_month].
Proof. destruct py; vm_compute; reflexivity. Qed.

Lemma tenths_by_day (py : cpython) :
  aggregate_samples py Examples.tenths "day" = Ok [Examples.tenths_row].
Proof. destruct py; vm_compute; reflexivity. Qed.

(** ** Maximum and mean of a bucket *)

(** C1, as amended. Every row of a result is built from the bucket of its
    period, which is not empty. Its [avg_bytes] is the binary64 quotient of
    the binary64 sum of the bucket, as the interpreter computes it, by the
    number of its values. Its [max_bytes] is the maximum of the bucket when
    no value is a NaN. When the values are whole, non-negative byte counts
    whose total is below [2^53], [avg_bytes] lies between the least and the
    greatest value of the bucket, both included. *)
Theorem C1_row_max_and_mean :
  forall (py : cpython) (samples : list (float * float)) (group_by : string)
         (rows : list row) (r : row),
    aggregate_samples py samples group_by = Ok rows -> In r rows ->
    let vals := bucket_values samples group_by (period r) in
    vals <> [] /\
    avg_bytes r
    = Float64.div (float_sum py vals) (Float64.of_int (len vals)) /\
    (no_nan vals -> is_maximum (max_bytes r) vals) /\
    (forall ns lo hi,
        byte_counts vals ns -> len vals < 2 ^ 53 ->
        is_minimum lo vals -> is_maximum hi vals ->
        Float64.leb lo (avg_bytes r) = true /\
        Float64.leb (avg_bytes r) hi = true).
Proof.
  intros py samples group_by rows r H I.
  destruct (aggregate_samples_row _ _ _ _ _ H I) as (N & A & M & _).
  cbv zeta. split; [exact N|]. split; [exact A|]. split.
  - intros NN. now apply py_max_spec.
  - intros ns lo hi B L Hlo Hhi. rewrite A.
    apply (mean_between py _ ns); try assumption.
    split; [now apply len_pos | exact L].
Qed.

Lemma C1_row_max_and_mean_witness :
  aggregate_samples Since_3_12 Examples.scenario "day"
  = Ok [Examples.scenario_day1; Examples.scenario_day2] /\
  In Examples.scenario_day1 [Examples.scenario_day1; Examples.scenario_day2] /\
  bucket_values Examples.scenario "day" "2025-10-01"
  = [Float64.of_int 100; Float64.of_int 300] /\
  is_maximum (Float64.of_int 300) [Float64.of_int 100; Float64.of_int 300] /\
  Float64.leb (Float64.of_int 100) (Float64.of_int 200) = true /\
  Float64.leb (Float64.of_int 200) (Float64.of_int 300) = true.
Proof.
  pose proof (scenario_by_day Since_3_12) as E.
  assert (In Examples.scenario_day1
             [Examples.scenario_day1; Examples.scenario_day2]) as I
      by (now left).
  assert (bucket_values Examples.scenario "day" "2025-10-01"
          = [Float64.of_int 100; Float64.of_int 300]) as V
      by (vm_compute; reflexivity).
  pose proof (C1_row_max_and_mean _ _ _ _ _ E I) as H.
  cbv zeta in H. change (period Examples.scenario_day1) with "2025-10-01" in H.
  rewrite V in H. destruct H as (_ & _ & M & B).
  assert (no_nan [Float64.of_int 100; Float64.of_int 300]) as NN
      by (intros x [<-|[<-|[]]]; reflexivity).
  assert (byte_counts [Float64.of_int 100; Float64.of_int 300] [100; 300])
    as BC.
  { split; [reflexivity|]. split; [|reflexivity].
    intros n [<-|[<-|[]]]; lia. }
  assert (is_minimum (Float64.of_int 100)
                     [Float64.of_int 100; Float64.of_int 300]) as Hlo.
  { split; [now left|]. intros x [<-|[<-|[]]]; reflexivity. }
  assert (is_maximum (Float64.of_int 300)
                     [Float64.of_int 100; Float64.of_int 300]) as Hhi.
  { split; [right; now left|]. intros x [<-|[<-|[]]]; reflexivity. }
  split; [exact E|]. split; [exact I|]. split; [exact V|].
  split; [exact (M NN)|].
  exact (B [100; 300] _ _ BC eq_refl Hlo Hhi).
Defined.

(** C1, as written, fails, with either way of summing: three samples of
    [0.1] on one day give the mean [0.10000000000000002], above the maximum
    [0.1] of their bucket. *)
Lemma C1_mean_above_maximum :
  ~ AsStated.avg_max_of_bucket Before_3_12 Examples.tenths "day" /\
  ~ AsStated.avg_max_of_bucket Since_3_12 Examples.tenths "day".
Proof.
  assert (forall py, ~ AsStated.avg_max_of_bucket py Examples.tenths "day")
    as A; [|now split].
  intros py H.
  specialize (H _ Examples.tenths_row (tenths_by_day py)
                (or_introl eq_refl)).
  cbv zeta in H. destruct H as [_ H].
  assert (bucket_values Examples.tenths "day" (period Examples.tenths_row)
          = [Float64.one_tenth; Float64.one_tenth; Float64.one_tenth]) as V
      by (vm_compute; reflexivity).
  rewrite V in H.
  destruct (H Float64.one_tenth Float64.one_tenth) as [_ Above].
  - split; [now left|]. intros x [<-|[<-|[<-|[]]]]; reflexivity.
  - split; [now left|]. intros x [<-|[<-|[<-|[]]]]; reflexivity.
  - vm_compute in Above. discriminate.
Qed.

(** ** Number of rows *)

(** C2, as amended. For a non-empty sample sequence on whose timestamps the
    bucket-key function succeeds, aggregation returns at least one row and
    as many rows as there are distinct keys; when the bucket-key function
    fails on a sample, aggregation raises that first error and returns no
    row. *)
Theorem C2_row_count :
  forall (py : cpython) (samples : list (float * float))
         (group_by : string),
    samples <> [] ->
    match sample_keys samples group_by with
    | Ok ks =>
        exists rows,
          aggregate_samples py samples group_by = Ok rows /\
          (1 <= List.length rows)%nat /\
          List.length rows = distinct ks
    | Raise e => aggregate_samples py samples group_by = Raise e
    end.
Proof.
  intros py samples group_by N.
  destruct (sample_keys samples group_by) as [ks|e] eqn:K.
  - destruct (aggregate_samples_ok py _ _ _ N K)
      as (b & rows & _ & H & P & D & I & _).
    exists rows. split; [exact H|].
    assert (List.length rows = distinct ks) as L.
    { rewrite <- (length_map period rows), P.
      rewrite <- (Permutation_length (sorted_perm (keys b))).
      now apply keys_count. }
    split; [|exact L]. rewrite L. apply distinct_pos.
    destruct samples as [|[ts val] rest]; [congruence|].
    apply sample_keys_cons in K. destruct K as (k & ks' & _ & _ & ->).
    discriminate.
  - now apply aggregate_samples_raise.
Qed.

Lemma C2_row_count_witness :
  Examples.scenario <> [] /\
  sample_keys Examples.scenario "day"
  = Ok ["2025-10-01"; "2025-10-01"; "2025-10-02"] /\
  exists rows,
    aggregate_samples Since_3_12 Examples.scenario "day" = Ok rows /\
    (1 <= List.length rows)%nat /\
    List.length rows = distinct ["2025-10-01"; "2025-10-01"; "2025-10-02"].
Proof.
  assert (Examples.scenario <> []) as N by discriminate.
  assert (sample_keys Examples.scenario "day"
          = Ok ["2025-10-01"; "2025-10-01"; "2025-10-02"]) as K
      by (vm_compute; reflexivity).
  pose proof (C2_row_count Since_3_12 Examples.scenario "day" N) as H.
  rewrite K in H. split; [exact N|]. split; [exact K | exact H].
Defined.

(** C2, as written, fails: one sample in the year 10000 is a non-empty
    sequence for which aggregation returns no row. *)
Lemma C2_no_row_beyond_datetime :
  ~ AsStated.row_count Since_3_12
      [(Examples.year_10000, Float64.of_int 1)] "day".
Proof.
  intros H. destruct H as (rows & E & _); [discriminate|].
  vm_compute in E. discriminate.
Qed.

(** ** Order of the rows *)

(** C4. The periods of the rows of a result are in non-decreasing
    lexicographic order; no period occurring twice, the order is strict:
    the period of a row is below the periods of all the rows after it. *)
Theorem C4_rows_sorted :
  forall (py : cpython) (samples : list (float * float))
         (group_by : string) (rows : list row),
    aggregate_samples py samples group_by = Ok rows ->
    Sorted str_le (map period rows) /\
    StronglySorted str_lt (map period rows).
Proof.
  intros py samples group_by rows H.
  destruct (aggregate_samples_keys _ _ _ _ H) as [N [ks K]].
  destruct (aggregate_samples_ok py _ _ _ N K)
    as (b & rows' & _ & H' & P & D & _).
  rewrite H in H'. injection H' as <-. rewrite P.
  split; [apply sorted_is_sorted | now apply sorted_strongly].
Qed.

Lemma C4_rows_sorted_witness :
  aggregate_samples Since_3_12 Examples.scenario "day"
  = Ok [Examples.scenario_day1; Examples.scenario_day2] /\
  Sorted str_le ["2025-10-01"; "2025-10-02"] /\
  StronglySorted str_lt ["2025-10-01"; "2025-10-02"].
Proof.
  split; [exact (scenario_by_day Since_3_12)|].
  exact (C4_rows_sorted _ _ _ _ (scenario_by_day Since_3_12)).
Defined.

(** ** Gibibytes *)

(** C5. In every row of a result, [avg_gib] is the quotient of [avg_bytes]
    by [1073741824] and [max_gib] the quotient of [max_bytes] by
    [1073741824], the divisor [1024 ** 3] of the code being [2^30] and not
    [10^9]. *)
Theorem C5_gib_is_bytes_over_2_30 :
  forall (py : cpython) (samples : list (float * float)) (group_by : string)
         (rows : list row) (r : row),
    aggregate_samples py samples group_by = Ok rows -> In r rows ->
    avg_gib r = Float64.div (avg_bytes r) (Float64.of_int 1073741824) /\
    max_gib r = Float64.div (max_bytes r) (Float64.of_int 1073741824) /\
    1024 ^ 3 = 1073741824 /\ 2 ^ 30 = 1073741824 /\ 1073741824 <> 10 ^ 9.
Proof.
  intros py samples group_by rows r H I.
  destruct (aggregate_samples_row _ _ _ _ _ H I) as (_ & _ & _ & A & M).
  repeat split; try assumption; try reflexivity. discriminate.
Qed.

Lemma C5_gib_is_bytes_over_2_30_witness :
  aggregate_samples Since_3_12 Examples.scenario "month"
  = Ok [Examples.scenario_month] /\
  avg_gib Examples.scenario_month
  = Float64.div (Float64.of_int 300) (Float64.of_int 1073741824) /\
  max_gib Examples.scenario_month
  = Float64.div (Float64.of_int 500) (Float64.of_int 1073741824).
Proof.
  split; [exact (scenario_by_month Since_3_12)|].
  destruct (C5_gib_is_bytes_over_2_30 _ _ _ _ Examples.scenario_month
              (scenario_by_month Since_3_12) (or_introl eq_refl))
    as (A & M & _).
  split; [exact A | exact M].
Defined.

(** ** Empty input *)

Section EntryPoints.

Lemma grafana_aggregate_usage_eq (py : cpython) (pool_id : string)
    (start end_ : datetime) (group_by : string) (w : world) :
  Grafana.aggregate_usage py pool_id start end_ group_by w
  = ((samples <- fst (Grafana.query_range pool_id start end_ STEP w) ;;
      aggregate_samples py samples group_by),
     snd (Grafana.query_range pool_id start end_ STEP w)).
Proof.
  unfold Grafana.aggregate_usage, io_bind, lift.
  now destruct (Grafana.query_range pool_id start end_ STEP w) as [[s|e] w'].
Qed.

Lemma direct_aggregate_usage_eq (py : cpython)
    (pool_id from_date to_date group_by : string) (w : world) :
  Direct.aggregate_usage py pool_id from_date to_date group_by w
  = match parse_date from_date with
    | Raise e => (Raise e, w)
    | Ok start =>
        match (t <- parse_date to_date ;; add_days t 1) with
        | Raise e => (Raise e, w)
        | Ok end_ =>
            ((samples <- fst (Direct.query_range pool_id start end_ STEP w) ;;
              aggregate_samples py samples group_by),
             snd (Direct.query_range pool_id start end_ STEP w))
        end
    end.
Proof.
  unfold Direct.aggregate_usage, io_bind, lift.
  destruct (parse_date from_date) as [start|e]; [|reflexivity].
  destruct (t <- parse_date to_date ;; add_days t 1) as [end_|e];
    [|reflexivity].
  now destruct (Direct.query_range pool_id start end_ STEP w) as [[s|e] w'].
Qed.

Lemma grafana_main_eq (py : cpython) (args : Grafana.args_t) (w : world) :
  Grafana.main py args w
  = match parse_date (Grafana.arg_from_date args) with
    | Raise e => (Raise e, w)
    | Ok start =>
        match (t <- parse_date (Grafana.arg_to_date args) ;; add_days t 1) with
        | Raise e => (Raise e, w)
        | Ok end_ =>
            Grafana.aggregate_usage py (Grafana.arg_pool_id args) start end_
              (Grafana.arg_group_by args) w
        end
    end.
Proof.
  unfold Grafana.main, io_bind, lift.
  destruct (parse_date (Grafana.arg_from_date args)) as [start|e];
    [|reflexivity].
  now destruct (t <- parse_date (Grafana.arg_to_date args) ;; add_days t 1).
Qed.

(** The one request of each [query_range], and the world after it. *)
Lemma direct_query_range_world (pool_id : string) (start end_ : datetime)
    (step : string) (w : world) :
  snd (Direct.query_range pool_id start end_ step w)
  = mk_world (backend w) (getenv w)
      (sent w ++ [mk_request (Direct.PROM_URL ++ "/api/v1/query_range")
                    (query_params pool_id start end_ step) [] None]).
Proof. reflexivity. Qed.

Lemma grafana_query_range_world (pool_id : string) (start end_ : datetime)
    (step : string) (w : world) :
  snd (Grafana.query_range pool_id start end_ step w)
  = mk_world (backend w) (getenv w)
      (sent w ++ [mk_request
                    "http://192.168.169.30:3000/api/datasources/proxy/2/api/v1/query_range"
                    (query_params pool_id start end_ step)
                    (Grafana.grafana_headers w) (Some 30)]).
Proof. reflexivity. Qed.

End EntryPoints.

(** C6. With no sample, aggregation raises [ValueError] with the message
    [No data in this interval], whatever the grouping mode, supported or
    not; so does [aggregate_usage] in both scripts when the fetch returns
    no sample. *)
Theorem C6_empty_input :
  forall py : cpython,
  (forall group_by : string,
      aggregate_samples py [] group_by
      = Raise (ValueError "No data in this interval")) /\
  (forall (pool_id : string) (start end_ : datetime) (group_by : string)
          (w : world),
      fst (Grafana.query_range pool_id start end_ STEP w) = Ok [] ->
      fst (Grafana.aggregate_usage py pool_id start end_ group_by w)
      = Raise (ValueError "No data in this interval")) /\
  (forall (pool_id from_date to_date group_by : string) (w : world)
          (start end_ : datetime),
      parse_date from_date = Ok start ->
      (t <- parse_date to_date ;; add_days t 1) = Ok end_ ->
      fst (Direct.query_range pool_id start end_ STEP w) = Ok [] ->
      fst (Direct.aggregate_usage py pool_id from_date to_date group_by w)
      = Raise (ValueError "No data in this interval")).
Proof.
  intros py. split; [reflexivity|]. split.
  - intros pool_id start end_ group_by w H.
    rewrite grafana_aggregate_usage_eq. cbn [fst]. now rewrite H.
  - intros pool_id from_date to_date group_by w start end_ Hs He H.
    rewrite direct_aggregate_usage_eq, Hs, He. cbn [fst]. now rewrite H.
Qed.

Lemma C6_empty_input_witness :
  fst (Grafana.query_range "7" Examples.oct_1st Examples.oct_2nd STEP
         Examples.world_without_series) = Ok [] /\
  fst (Grafana.aggregate_usage Since_3_12 "7" Examples.oct_1st
         Examples.oct_2nd "week" Examples.world_without_series)
  = Raise (ValueError "No data in this interval") /\
  fst (Direct.aggregate_usage Since_3_12 "7" "2025-10-01" "2025-10-01"
         "month" Examples.world_without_series)
  = Raise (ValueError "No data in this interval").
Proof.
  destruct (C6_empty_input Since_3_12) as (_ & G & D).
  split; [reflexivity|]. split.
  - apply G. reflexivity.
  - apply (D "7" "2025-10-01" "2025-10-01" "month"
             Examples.world_without_series Examples.oct_1st Examples.oct_2nd);
      reflexivity.
Defined.

(** ** Division by the count *)

Section Errors.

Lemma timeval_of_float_error (ts : float) (e : exn) :
  timeval_of_float ts = Raise e -> key_error e.
Proof.
  unfold timeval_of_float.
  destruct ts as [s|s| |s m x]; try (intros [= <-]; exact I).
  destruct (modf (S754_finite s m x)) as [frac ip].
  repeat match goal with
         | |- context [if ?c then _ else _] => destruct c
         end; try discriminate; intros [= <-]; exact I.
Qed.

Lemma utcfromtimestamp_error (ts : float) (e : exn) :
  utcfromtimestamp ts = Raise e -> key_error e.
Proof.
  unfold utcfromtimestamp.
  destruct (timeval_of_float ts) as [[sec us]|e'] eqn:T; cbn [Py.bind].
  - unfold gmtime.
    destruct (Calendar.ord2ymd (epoch_day sec + Calendar.EPOCH_ORDINAL))
      as [[y m] d].
    match goal with
    | |- context [if ?c then _ else _] => destruct c
    end; cbn [Py.bind]; [|intros [= <-]; exact I].
    unfold new_datetime.
    repeat match goal with
           | |- context [if ?c then _ else _] => destruct c
           end; try discriminate; intros [= <-]; exact I.
  - intros [= <-]. now apply (timeval_of_float_error ts).
Qed.

Lemma bucket_key_error (ts : float) (group_by : string) (e : exn) :
  bucket_key ts group_by = Raise e -> key_error e.
Proof.
  unfold bucket_key.
  destruct (utcfromtimestamp ts) as [t|e'] eqn:U; cbn [Py.bind].
  - destruct (String.eqb group_by "day"); [discriminate|].
    destruct (String.eqb group_by "month"); [discriminate|].
    intros [= <-]. exact I.
  - intros [= <-]. now apply (utcfromtimestamp_error ts).
Qed.

Lemma sample_keys_error (samples : list (float * float))
    (group_by : string) (e : exn) :
  sample_keys samples group_by = Raise e -> key_error e.
Proof.
  induction samples as [|[ts val] rest IH]; simpl; [discriminate|].
  destruct (bucket_key ts group_by) as [k|e'] eqn:K; cbn [Py.bind].
  - destruct (sample_keys rest group_by) as [ks|e'']; cbn [Py.bind];
      [discriminate|].
    intros [= <-]. now apply IH.
  - intros [= <-]. now apply (bucket_key_error ts group_by).
Qed.

End Errors.

(** C10. Every bucket that the second loop reduces holds at least one
    value, so the division that computes its mean has a divisor of at least
    1 and gives the binary64 quotient; aggregation never raises
    [ZeroDivisionError]. *)
Theorem C10_divisor_at_least_one :
  forall (py : cpython) (samples : list (float * float))
         (group_by : string),
    (forall msg : string,
        aggregate_samples py samples group_by <> Raise (ZeroDivisionError msg)) /\
    (forall buckets : buckets_t,
        fill_buckets samples group_by [] = Ok buckets ->
        forall p : string, In p (sorted (keys buckets)) ->
          let vals := getitem buckets p in
          1 <= len vals /\
          vals = bucket_values samples group_by p /\
          py_truediv (py_sum py vals) (len vals)
          = Ok (Float64.div (float_sum py vals)
                  (Float64.of_int (len vals)))).
Proof.
  intros py samples group_by. split.
  - intros msg H.
    destruct samples as [|s samples]; [discriminate|].
    assert (s :: samples <> []) as N by discriminate.
    destruct (sample_keys (s :: samples) group_by) as [ks|e] eqn:K.
    + destruct (aggregate_samples_ok py _ _ _ N K)
        as (b & rows & _ & H' & _). congruence.
    + rewrite (aggregate_samples_raise py _ _ _ N K) in H.
      injection H as ->. exact (sample_keys_error _ _ _ K).
  - intros buckets F p Hp.
    destruct (fill_buckets_keys _ _ _ _ F) as [ks K].
    destruct (fill_buckets_ok samples group_by ks [] K)
      as (b & F' & G & I & _).
    rewrite F in F'. injection F' as <-.
    assert (getitem buckets p <> []) as N.
    { rewrite G. simpl.
      apply (bucket_values_nonempty samples group_by ks p K).
      apply (Permutation_in p (Permutation_sym (sorted_perm (keys buckets))))
        in Hp.
      apply I in Hp. destruct Hp as [[]|Hp]. exact Hp. }
    cbv zeta. split; [pose proof (len_pos _ N); lia|].
    split; [now rewrite G | now apply mean_nonempty].
Qed.

Lemma C10_divisor_at_least_one_witness :
  fill_buckets Examples.scenario "day" []
  = Ok [("2025-10-01", [Float64.of_int 100; Float64.of_int 300]);
        ("2025-10-02", [Float64.of_int 500])] /\
  In "2025-10-01" ["2025-10-01"; "2025-10-02"] /\
  1 <= len [Float64.of_int 100; Float64.of_int 300] /\
  py_truediv (py_sum Since_3_12 [Float64.of_int 100; Float64.of_int 300]) 2
  = Ok (Float64.div
          (float_sum Since_3_12 [Float64.of_int 100; Float64.of_int 300])
          (Float64.of_int 2)).
Proof.
  assert (fill_buckets Examples.scenario "day" []
          = Ok [("2025-10-01", [Float64.of_int 100; Float64.of_int 300]);
                ("2025-10-02", [Float64.of_int 500])]) as F
      by (vm_compute; reflexivity).
  assert (In "2025-10-01" ["2025-10-01"; "2025-10-02"]) as I by (now left).
  destruct (C10_divisor_at_least_one Since_3_12 Examples.scenario "day")
    as [_ H].
  destruct (H _ F "2025-10-01" I) as (L & _ & M).
  split; [exact F|]. split; [exact I|]. split; [exact L | exact M].
Defined.

(** ** Unsupported modes *)

(** C7, as amended. For a mode that is neither [day] nor [month] the
    bucket-key function fails on every timestamp and returns no key: with
    the [ValueError] about the mode when the timestamp converts, and with
    the error of the conversion, raised first, when it does not. *)
Theorem C7_unsupported_mode_fails :
  forall (ts : float) (group_by : string),
    group_by <> "day" -> group_by <> "month" ->
    (exists e, bucket_key ts group_by = Raise e) /\
    (forall t, utcfromtimestamp ts = Ok t ->
               bucket_key ts group_by
               = Raise (ValueError "group_by must be 'day' or 'month'")) /\
    (forall e, utcfromtimestamp ts = Raise e ->
               bucket_key ts group_by = Raise e).
Proof.
  intros ts group_by Hd Hm. rewrite (bucket_key_bad_mode ts group_by Hd Hm).
  destruct (utcfromtimestamp ts) as [t|e]; cbn [Py.bind].
  - split; [eauto|]. split; [reflexivity | discriminate].
  - split; [eauto|]. split; [discriminate | now intros e' [= ->]].
Qed.

Lemma C7_unsupported_mode_fails_witness :
  "week" <> "day" /\ "week" <> "month" /\
  bucket_key Examples.t0 "week"
  = Raise (ValueError "group_by must be 'day' or 'month'").
Proof.
  assert ("week" <> "day") as Hd by discriminate.
  assert ("week" <> "month") as Hm by discriminate.
  destruct (C7_unsupported_mode_fails Examples.t0 "week" Hd Hm) as (_ & H & _).
  split; [exact Hd|]. split; [exact Hm|].
  apply (H (mk_datetime 2025 10 1 0 30 0 0)). vm_compute. reflexivity.
Defined.

(** C7, as written, fails: on the timestamp [1e20] an unsupported mode
    gives the [OverflowError] of the conversion, not the error about the
    mode. *)
Lemma C7_overflow_before_mode_check :
  ~ AsStated.bad_mode_is_invalid_argument Examples.far_future "week".
Proof.
  intros H. specialize (H ltac:(discriminate) ltac:(discriminate)).
  vm_compute in H. discriminate.
Qed.

(** ** The bucket key *)

Section KeyFacts.
Import Calendar.

Lemma string_length_app (a b : string) :
  String.length (a ++ b) = (String.length a + String.length b)%nat.
Proof. induction a as [|c a IH]; simpl; [reflexivity | now rewrite IH]. Qed.

Lemma days_in_month_le_31 (y m : Z) : days_in_month y m <= 31.
Proof.
  unfold days_in_month.
  repeat match goal with
         | |- context [match ?x with _ => _ end] => destruct x
         end; lia.
Qed.

Lemma valid_date_fields (y m d : Z) :
  valid_date y m d = true ->
  1 <= y <= 9999 /\ 1 <= m <= 12 /\ 1 <= d <= 31 /\
  1 <= d <= days_in_month y m.
Proof.
  intros V. apply valid_date_iff in V. unfold MINYEAR, MAXYEAR in V.
  pose proof (days_in_month_le_31 y m). lia.
Qed.

Lemma month_key_length (y m : Z) :
  0 <= y < 10000 -> 0 <= m < 100 -> String.length (month_key y m) = 7%nat.
Proof.
  intros Hy Hm. unfold month_key. rewrite !string_length_app.
  rewrite (proj1 (zfill4_spec y Hy)), (proj1 (zfill2_spec m Hm)).
  reflexivity.
Qed.

Lemma day_key_length (y m d : Z) :
  0 <= y < 10000 -> 0 <= m < 100 -> 0 <= d < 100 ->
  String.length (day_key y m d) = 10%nat.
Proof.
  intros Hy Hm Hd. unfold day_key. rewrite !string_length_app.
  rewrite (proj1 (zfill4_spec y Hy)), (proj1 (zfill2_spec m Hm)),
    (proj1 (zfill2_spec d Hd)).
  reflexivity.
Qed.

(** A day has one date. *)
Lemma date_of_epoch_day_unique (n y m d y' m' d' : Z) :
  date_of_epoch_day n y m d -> date_of_epoch_day n y' m' d' ->
  y = y' /\ m = m' /\ d = d'.
Proof.
  intros (Hm & Hd & O) (Hm' & Hd' & O').
  apply ymd2ord_inj; try assumption. congruence.
Qed.

(** The keys of one timestamp that [utcfromtimestamp] accepts. *)
Lemma bucket_key_accepted (ts : float) (sec us : Z) :
  timeval_of_float ts = Ok (sec, us) -> MIN_SECOND <= sec <= MAX_SECOND ->
  exists y m d,
    valid_date y m d = true /\
    date_of_epoch_day (epoch_day sec) y m d /\
    ord2ymd (epoch_day sec + EPOCH_ORDINAL) = (y, m, d) /\
    bucket_key ts "day" = Ok (day_key y m d) /\
    bucket_key ts "month" = Ok (month_key y m).
Proof.
  intros T R.
  destruct (utcfromtimestamp_accepts ts sec us T R) as (t & U & V & O & E).
  exists (year t), (month t), (day t).
  destruct (valid_date_fields _ _ _ V) as (Hy & Hm & Hd & Hd').
  split; [exact V|]. split; [unfold date_of_epoch_day; auto|].
  split; [exact E|].
  rewrite bucket_key_day, bucket_key_month, U. split; reflexivity.
Qed.

End KeyFacts.

(** C3, as amended. For the timestamps that [utcfromtimestamp] accepts,
    those whose value rounded to the nearest microsecond falls in the years
    1 to 9999, the key of mode [day] is the date of the UTC calendar day of
    the rounded second, written [YYYY-MM-DD] on ten characters, and the key
    of mode [month] its year and month, written [YYYY-MM] on seven; two
    such timestamps have the same day key exactly when their rounded
    seconds fall on the same UTC day, and the same month key exactly when
    the dates have the same year and month. The function takes no argument
    from the host: neither key depends on its time zone. *)
Theorem C3_bucket_key_is_utc_date :
  forall (ts1 ts2 : float) (sec1 us1 sec2 us2 : Z),
    timeval_of_float ts1 = Ok (sec1, us1) ->
    MIN_SECOND <= sec1 <= MAX_SECOND ->
    timeval_of_float ts2 = Ok (sec2, us2) ->
    MIN_SECOND <= sec2 <= MAX_SECOND ->
    exists y1 m1 d1 y2 m2 d2,
      date_of_epoch_day (epoch_day sec1) y1 m1 d1 /\
      date_of_epoch_day (epoch_day sec2) y2 m2 d2 /\
      1 <= y1 <= 9999 /\ 1 <= y2 <= 9999 /\
      bucket_key ts1 "day" = Ok (day_key y1 m1 d1) /\
      bucket_key ts1 "month" = Ok (month_key y1 m1) /\
      bucket_key ts2 "day" = Ok (day_key y2 m2 d2) /\
      bucket_key ts2 "month" = Ok (month_key y2 m2) /\
      String.length (day_key y1 m1 d1) = 10%nat /\
      String.length (month_key y1 m1) = 7%nat /\
      (bucket_key ts1 "day" = bucket_key ts2 "day"
       <-> epoch_day sec1 = epoch_day sec2) /\
      (bucket_key ts1 "month" = bucket_key ts2 "month"
       <-> y1 = y2 /\ m1 = m2).
Proof.
  intros ts1 ts2 sec1 us1 sec2 us2 T1 R1 T2 R2.
  destruct (bucket_key_accepted ts1 sec1 us1 T1 R1)
    as (y1 & m1 & d1 & V1 & D1 & E1 & K1 & M1).
  destruct (bucket_key_accepted ts2 sec2 us2 T2 R2)
    as (y2 & m2 & d2 & V2 & D2 & E2 & K2 & M2).
  destruct (valid_date_fields _ _ _ V1) as (Hy1 & Hm1 & Hd1 & _).
  destruct (valid_date_fields _ _ _ V2) as (Hy2 & Hm2 & Hd2 & _).
  exists y1, m1, d1, y2, m2, d2.
  split; [exact D1|]. split; [exact D2|]. split; [exact Hy1|].
  split; [exact Hy2|]. split; [exact K1|]. split; [exact M1|].
  split; [exact K2|]. split; [exact M2|].
  split; [apply day_key_length; lia|].
  split; [apply month_key_length; lia|].
  rewrite K1, K2, M1, M2. split; split.
  - intros [= E]. apply day_key_inj in E; try lia.
    destruct E as (-> & -> & ->).
    destruct D1 as (_ & _ & O1), D2 as (_ & _ & O2). lia.
  - intros E. rewrite E in E1. rewrite E1 in E2. now injection E2 as -> -> ->.
  - intros [= E]. apply month_key_inj in E; lia.
  - now intros [-> ->].
Qed.

Lemma C3_bucket_key_is_utc_date_witness :
  timeval_of_float Examples.t0 = Ok (1759278600, 0) /\
  timeval_of_float Examples.t1 = Ok (1759320000, 0) /\
  MIN_SECOND <= 1759278600 <= MAX_SECOND /\
  MIN_SECOND <= 1759320000 <= MAX_SECOND /\
  epoch_day 1759278600 = epoch_day 1759320000 /\
  bucket_key Examples.t0 "day" = bucket_key Examples.t1 "day".
Proof.
  assert (timeval_of_float Examples.t0 = Ok (1759278600, 0)) as T0
      by (vm_compute; reflexivity).
  assert (timeval_of_float Examples.t1 = Ok (1759320000, 0)) as T1
      by (vm_compute; reflexivity).
  assert (MIN_SECOND <= 1759278600 <= MAX_SECOND) as R0
      by (unfold MIN_SECOND, MAX_SECOND; lia).
  assert (MIN_SECOND <= 1759320000 <= MAX_SECOND) as R1
      by (unfold MIN_SECOND, MAX_SECOND; lia).
  assert (epoch_day 1759278600 = epoch_day 1759320000) as E by reflexivity.
  destruct (C3_bucket_key_is_utc_date _ _ _ _ _ _ T0 R0 T1 R1)
    as (y1 & m1 & d1 & y2 & m2 & d2 & _ & _ & _ & _ & _ & _ & _ & _ & _ & _
        & Hday & _).
  split; [exact T0|]. split; [exact T1|]. split; [exact R0|].
  split; [exact R1|]. split; [exact E|].
  apply Hday. exact E.
Defined.

(** C3, as written, fails twice: the first second of the year 10000 has a
    UTC date and no key, the conversion raising; and [86399.9999999], an
    instant of 1970-01-01, is rounded to the next microsecond, which is
    midnight, and gets the key of 1970-01-02. *)
Lemma C3_no_key_or_next_day :
  ~ AsStated.key_is_utc_date Examples.year_10000 /\
  ~ AsStated.key_is_utc_date Examples.almost_midnight.
Proof.
  split.
  - intros (n & y & m & d & _ & _ & K & _).
    assert (bucket_key Examples.year_10000 "day"
            = Raise (ValueError "year 10000 is out of range")) as E
        by (vm_compute; reflexivity).
    rewrite E in K. congruence.
  - intros (n & y & m & d & E & D & K & _).
    assert (exact_epoch_day Examples.almost_midnight = Some 0) as E0
        by (vm_compute; reflexivity).
    rewrite E0 in E. injection E as <-.
    assert (date_of_epoch_day 0 1970 1 1) as D0
        by (unfold date_of_epoch_day; simpl; repeat split; lia).
    destruct (date_of_epoch_day_unique _ _ _ _ _ _ _ D D0) as (-> & -> & ->).
    vm_compute in K. discriminate.
Qed.

(** ** The query window *)

Section WindowFacts.
Import Calendar.

Lemma parse_date_ok (s : string) (t : datetime) :
  parse_date s = Ok t ->
  valid_date (year t) (month t) (day t) = true /\
  hour t = 0 /\ minute t = 0 /\ second t = 0 /\ microsecond t = 0.
Proof.
  unfold parse_date, strptime_ymd.
  destruct (match_format s) as [[[[y m] d] rest]|]; [|discriminate].
  destruct rest; [|discriminate].
  intros H. apply new_datetime_ok in H. destruct H as [V ->]. auto.
Qed.

Lemma add_days_next (t : datetime) :
  valid_date (year t) (month t) (day t) = true ->
  toordinal t < MAXORDINAL ->
  exists e,
    add_days t 1 = Ok e /\
    valid_date (year e) (month e) (day e) = true /\
    toordinal e = toordinal t + 1 /\
    hour e = hour t /\ minute e = minute t /\ second e = second t /\
    microsecond e = microsecond t.
Proof.
  intros V L. apply valid_date_iff in V. destruct V as (Hy & Hm & Hd).
  pose proof (proj2 (ymd2ord_year_range _ _ _ Hm Hd) Hy) as R.
  fold (toordinal t) in R.
  unfold add_days.
  destruct (ord2ymd (toordinal t + 1)) as [[y m] d] eqn:E.
  destruct (ord2ymd_spec _ _ _ _ E) as (Hm' & Hd' & O).
  replace ((1 <=? toordinal t + 1) && (toordinal t + 1 <=? MAXORDINAL))
    with true
    by (symmetry; apply andb_true_iff; rewrite !Z.leb_le; lia).
  eexists. split; [reflexivity|]. cbn [year month day hour minute second
                                        microsecond toordinal].
  split.
  - apply valid_date_iff. split; [|auto].
    apply (ymd2ord_year_range y m d Hm' Hd'). lia.
  - auto.
Qed.

Lemma isoformat_midnight (t : datetime) :
  hour t = 0 -> minute t = 0 -> second t = 0 -> microsecond t = 0 ->
  isoformat t = (date_isoformat t ++ "T00:00:00")%string.
Proof.
  intros H M S U. unfold isoformat. rewrite H, M, S, U. reflexivity.
Qed.

End WindowFacts.

(** C8, as amended. For every to-date that parses and is before
    9999-12-31, the end of the query window is midnight of the day after
    the to-date, and both scripts send the start date and that end, each
    written with the time [T00:00:00] and the suffix [Z], as the [start]
    and [end] of their one request; with the from-date equal to the
    to-date the window is one whole day. *)
Theorem C8_window_end_is_next_day :
  forall (py : cpython) (from_date to_date : string) (start t : datetime),
    parse_date from_date = Ok start -> parse_date to_date = Ok t ->
    toordinal t < Calendar.MAXORDINAL ->
    exists end_ : datetime,
      (t' <- parse_date to_date ;; add_days t' 1) = Ok end_ /\
      Calendar.valid_date (year end_) (month end_) (day end_) = true /\
      toordinal end_ = toordinal t + 1 /\
      isoformat start = (date_isoformat start ++ "T00:00:00")%string /\
      isoformat end_ = (date_isoformat end_ ++ "T00:00:00")%string /\
      (from_date = to_date -> toordinal end_ = toordinal start + 1) /\
      (forall (pool_id group_by : string) (w : world),
          sent (snd (Direct.aggregate_usage py pool_id from_date to_date
                       group_by w))
          = (sent w
             ++ [mk_request "http://171.244.195.198:9095/api/v1/query_range"
                   (query_params pool_id start end_ STEP) [] None])%list) /\
      (forall (pool_id group_by : string) (w : world),
          sent (snd (Grafana.main py
                       (Grafana.mk_args pool_id from_date to_date group_by) w))
          = (sent w
             ++ [mk_request
                   "http://192.168.169.30:3000/api/datasources/proxy/2/api/v1/query_range"
                   (query_params pool_id start end_ STEP)
                   (Grafana.grafana_headers w) (Some 30)])%list).
Proof.
  intros py from_date to_date start t Ps Pt L.
  destruct (parse_date_ok _ _ Ps) as (Vs & Hs & Ms & Ss & Us).
  destruct (parse_date_ok _ _ Pt) as (Vt & Ht & Mt & St & Ut).
  destruct (add_days_next t Vt L) as (e & A & Ve & O & He & Me & Se & Ue).
  assert ((t' <- parse_date to_date ;; add_days t' 1) = Ok e) as W
      by (rewrite Pt; exact A).
  exists e. split; [exact W|]. split; [exact Ve|]. split; [exact O|].
  split; [now apply isoformat_midnight|].
  split; [apply isoformat_midnight; congruence|].
  split; [intros ->; rewrite Ps in Pt; injection Pt as ->; exact O|].
  split.
  - intros pool_id group_by w.
    rewrite direct_aggregate_usage_eq, Ps, W. cbn [snd].
    now rewrite direct_query_range_world.
  - intros pool_id group_by w.
    rewrite grafana_main_eq. cbn [Grafana.arg_from_date Grafana.arg_to_date
                                    Grafana.arg_pool_id Grafana.arg_group_by].
    rewrite Ps, W, grafana_aggregate_usage_eq. cbn [snd].
    now rewrite grafana_query_range_world.
Qed.

Lemma C8_window_end_is_next_day_witness :
  parse_date "2025-10-01" = Ok Examples.oct_1st /\
  toordinal Examples.oct_1st < Calendar.MAXORDINAL /\
  exists end_ : datetime,
    (t' <- parse_date "2025-10-01" ;; add_days t' 1) = Ok end_ /\
    end_ = Examples.oct_2nd /\
    toordinal end_ = toordinal Examples.oct_1st + 1 /\
    (isoformat Examples.oct_1st ++ "Z")%string = "2025-10-01T00:00:00Z" /\
    (isoformat end_ ++ "Z")%string = "2025-10-02T00:00:00Z".
Proof.
  assert (parse_date "2025-10-01" = Ok Examples.oct_1st) as P
      by (vm_compute; reflexivity).
  assert (toordinal Examples.oct_1st < Calendar.MAXORDINAL) as L
      by (vm_compute; reflexivity).
  destruct (C8_window_end_is_next_day Since_3_12 "2025-10-01" "2025-10-01"
              _ _ P P L)
    as (e & W & _ & O & _).
  split; [exact P|]. split; [exact L|]. exists e.
  assert (e = Examples.oct_2nd) as E
      by (vm_compute in W; now injection W as <-).
  split; [exact W|]. split; [exact E|]. split; [exact O|].
  rewrite E. split; vm_compute; reflexivity.
Defined.

(** C8, as written, fails: the to-date 9999-12-31 parses, and adding one
    day to it raises [OverflowError], so that the window has no end. *)
Lemma C8_no_day_after_the_last :
  ~ AsStated.window_end_is_next_day "9999-12-31".
Proof.
  intros H.
  destruct (H (mk_datetime 9999 12 31 0 0 0 0)) as (e & W & _).
  - vm_compute. reflexivity.
  - vm_compute in W. discriminate.
Qed.

(* ===================================================================== *)
(** * [parse_date] and [build_query] *)
(* ===================================================================== *)

Section ParseFacts.
Import Calendar.

Lemma year_field_checked : check_range 20 check_year_field 0 10000 = true.
Proof. vm_compute. reflexivity. Qed.

Lemma match_Y_app (s rest : string) (v : Z) :
  match_Y s = Some (v, EmptyString) ->
  match_Y (s ++ rest) = Some (v, rest).
Proof.
  destruct s as [|a [|b [|c [|d s]]]]; try discriminate.
  simpl. destruct (is_digit a && is_digit b && is_digit c && is_digit d);
    [|discriminate].
  intros [= <- ->]. reflexivity.
Qed.

Lemma match_Y_zfill (y : Z) (rest : string) :
  0 <= y < 10000 -> match_Y (Fmt.zfill 4 y ++ rest) = Some (y, rest).
Proof.
  intros H. pose proof (check_range_sound _ _ _ _ year_field_checked y H) as C.
  unfold check_year_field in C. apply match_Y_app.
  destruct (match_Y (Fmt.zfill 4 y)) as [[v [|c s]]|]; try discriminate.
  apply Z.eqb_eq in C. now subst v.
Qed.

(** Group [m] on a month written with two digits. *)
Lemma month_alts_zfill {A : Type} (k : Z -> string -> option A) (m : Z)
    (rest : string) (r : A) :
  1 <= m <= 12 -> k m rest = Some r ->
  first_alt month_alts k (Fmt.zfill 2 m ++ rest) = Some r.
Proof.
  intros H K.
  assert (m = 1 \/ m = 2 \/ m = 3 \/ m = 4 \/ m = 5 \/ m = 6 \/ m = 7
          \/ m = 8 \/ m = 9 \/ m = 10 \/ m = 11 \/ m = 12) as C by lia.
  repeat match goal with
         | C : _ \/ _ |- _ => destruct C as [C|C]
         end; subst m; vm_compute in K |- *; now rewrite K.
Qed.

(** Group [d] on a day written with two digits. *)
Lemma day_alts_zfill {A : Type} (k : Z -> string -> option A) (d : Z)
    (rest : string) (r : A) :
  1 <= d <= 31 -> k d rest = Some r ->
  first_alt day_alts k (Fmt.zfill 2 d ++ rest) = Some r.
Proof.
  intros H K.
  assert (d = 1 \/ d = 2 \/ d = 3 \/ d = 4 \/ d = 5 \/ d = 6 \/ d = 7
          \/ d = 8 \/ d = 9 \/ d = 10 \/ d = 11 \/ d = 12 \/ d = 13
          \/ d = 14 \/ d = 15 \/ d = 16 \/ d = 17 \/ d = 18 \/ d = 19
          \/ d = 20 \/ d = 21 \/ d = 22 \/ d = 23 \/ d = 24 \/ d = 25
          \/ d = 26 \/ d = 27 \/ d = 28 \/ d = 29 \/ d = 30 \/ d = 31)
    as C by lia.
  repeat match goal with
         | C : _ \/ _ |- _ => destruct C as [C|C]
         end; subst d; vm_compute in K |- *; now rewrite K.
Qed.

Lemma string_app_nil_r (s : string) : (s ++ EmptyString)%string = s.
Proof. induction s as [|c s IH]; simpl; [reflexivity | now rewrite IH]. Qed.

Lemma match_format_day_key (y m d : Z) :
  0 <= y < 10000 -> 1 <= m <= 12 -> 1 <= d <= 31 ->
  match_format (day_key y m d) = Some (y, m, d, EmptyString).
Proof.
  intros Hy Hm Hd. unfold match_format, day_key.
  rewrite match_Y_zfill by assumption.
  change (match_lit "-" ("-" ++ Fmt.zfill 2 m ++ "-" ++ Fmt.zfill 2 d))
    with (Some (Fmt.zfill 2 m ++ "-" ++ Fmt.zfill 2 d)%string).
  apply month_alts_zfill; [assumption|].
  change (match_lit "-" ("-" ++ Fmt.zfill 2 d))
    with (Some (Fmt.zfill 2 d)).
  rewrite <- (string_app_nil_r (Fmt.zfill 2 d)).
  now apply day_alts_zfill.
Qed.

Lemma parse_date_day_key (y m d : Z) :
  valid_date y m d = true ->
  parse_date (day_key y m d) = Ok (mk_datetime y m d 0 0 0 0).
Proof.
  intros V. destruct (valid_date_fields _ _ _ V) as (Hy & Hm & Hd & _).
  unfold parse_date, strptime_ymd.
  rewrite match_format_day_key by lia.
  now apply new_datetime_valid.
Qed.

(** The alternatives consume one or two characters. *)
Lemma alt2_length (p1 p2 : ascii -> bool) (s rest : string) (v : Z) :
  alt2 p1 p2 s = Some (v, rest) ->
  String.length s = (2 + String.length rest)%nat.
Proof.
  destruct s as [|a [|b s]]; try discriminate. simpl.
  destruct (p1 a && p2 b); [|discriminate]. now intros [= _ ->].
Qed.

Lemma alt1_length (p : ascii -> bool) (s rest : string) (v : Z) :
  alt1 p s = Some (v, rest) ->
  String.length s = (1 + String.length rest)%nat.
Proof.
  destruct s as [|a s]; try discriminate. simpl.
  destruct (p a); [|discriminate]. now intros [= _ ->].
Qed.

Lemma alt_sp_length (s rest : string) (v : Z) :
  alt_sp s = Some (v, rest) ->
  String.length s = (2 + String.length rest)%nat.
Proof.
  destruct s as [|a [|b s]]; try discriminate. simpl.
  destruct (is_char " " a && in_range "1" "9" b); [|discriminate].
  now intros [= _ ->].
Qed.

Lemma first_alt_some {A : Type} (alts : list (string -> option (Z * string)))
    (k : Z -> string -> option A) (s : string) (r : A) :
  first_alt alts k s = Some r ->
  exists alt v rest, In alt alts /\ alt s = Some (v, rest) /\
                     k v rest = Some r.
Proof.
  induction alts as [|alt alts IH]; simpl; [discriminate|].
  destruct (alt s) as [[v rest]|] eqn:E.
  - destruct (k v rest) as [r'|] eqn:K.
    + intros [= <-]. exists alt, v, rest. auto.
    + intros H. destruct (IH H) as (a & v' & rest' & I & Ha & Hk).
      exists a, v', rest'. auto.
  - intros H. destruct (IH H) as (a & v' & rest' & I & Ha & Hk).
    exists a, v', rest'. auto.
Qed.

Lemma month_alts_length (alt : string -> option (Z * string)) (s rest : string)
    (v : Z) :
  In alt month_alts -> alt s = Some (v, rest) ->
  (1 + String.length rest <= String.length s <= 2 + String.length rest)%nat.
Proof.
  intros [<-|[<-|[<-|[]]]] H;
    first [apply alt2_length in H | apply alt1_length in H]; lia.
Qed.

Lemma day_alts_length (alt : string -> option (Z * string)) (s rest : string)
    (v : Z) :
  In alt day_alts -> alt s = Some (v, rest) ->
  (1 + String.length rest <= String.length s <= 2 + String.length rest)%nat.
Proof.
  intros [<-|[<-|[<-|[<-|[<-|[]]]]]] H;
    first [apply alt2_length in H | apply alt1_length in H
          | apply alt_sp_length in H]; lia.
Qed.

Lemma match_lit_length (x : ascii) (s rest : string) :
  match_lit x s = Some rest ->
  String.length s = (1 + String.length rest)%nat.
Proof.
  destruct s as [|a s]; [discriminate|]. simpl.
  destruct (is_char x a); [|discriminate]. now intros [= ->].
Qed.

Lemma match_Y_length (s rest : string) (y : Z) :
  match_Y s = Some (y, rest) ->
  String.length s = (4 + String.length rest)%nat /\ 0 <= y < 10000.
Proof.
  destruct s as [|a [|b [|c [|d s]]]]; try discriminate.
  cbn [match_Y].
  destruct (is_digit a) eqn:Da; [|discriminate].
  destruct (is_digit b) eqn:Db; [|discriminate].
  destruct (is_digit c) eqn:Dc; [|discriminate].
  destruct (is_digit d) eqn:Dd; [|discriminate].
  cbn [andb]. intros H.
  assert (s = rest) as -> by congruence.
  assert (1000 * digit_val a + 100 * digit_val b + 10 * digit_val c
          + digit_val d = y) as E by congruence.
  split; [reflexivity|].
  assert (forall x, is_digit x = true -> 0 <= digit_val x <= 9) as D.
  { intros x Hx. unfold is_digit, in_range, digit_val in *.
    change (code "0") with 48 in Hx. change (code "9") with 57 in Hx.
    apply andb_prop in Hx. rewrite !Z.leb_le in Hx. lia. }
  apply D in Da, Db, Dc, Dd. lia.
Qed.

Lemma match_format_length (s rest : string) (y m d : Z) :
  match_format s = Some (y, m, d, rest) ->
  (8 + String.length rest <= String.length s <= 10 + String.length rest)%nat.
Proof.
  unfold match_format.
  destruct (match_Y s) as [[y' s1]|] eqn:EY; [|discriminate].
  destruct (match_lit "-" s1) as [s2|] eqn:E1; [|discriminate].
  intros H. apply first_alt_some in H.
  destruct H as (am & vm & s3 & Im & Em & H).
  destruct (match_lit "-" s3) as [s4|] eqn:E2; [|discriminate].
  apply first_alt_some in H.
  destruct H as (ad & vd & s5 & Id & Ed & H).
  injection H as _ _ _ ->.
  apply match_Y_length in EY. apply match_lit_length in E1, E2.
  pose proof (month_alts_length _ _ _ _ Im Em).
  pose proof (day_alts_length _ _ _ _ Id Ed).
  lia.
Qed.

End ParseFacts.

(** X1. Reading back a date: for every date of the calendar, [parse_date]
    on its ISO form [YYYY-MM-DD] gives the midnight of that date. *)
Theorem parse_date_of_isoformat :
  forall t : datetime,
    Calendar.valid_date (year t) (month t) (day t) = true ->
    parse_date (date_isoformat t)
    = Ok (mk_datetime (year t) (month t) (day t) 0 0 0 0).
Proof. intros t V. now apply parse_date_day_key. Qed.

Lemma parse_date_of_isoformat_witness :
  Calendar.valid_date 2024 2 29 = true /\
  parse_date (date_isoformat (mk_datetime 2024 2 29 13 45 10 0))
  = Ok (mk_datetime 2024 2 29 0 0 0 0).
Proof.
  assert (Calendar.valid_date 2024 2 29 = true) as V by reflexivity.
  split; [exact V|].
  exact (parse_date_of_isoformat (mk_datetime 2024 2 29 13 45 10 0) V).
Defined.

(** X2. What [parse_date] returns: on a text of 8 to 10 characters, a date
    of the calendar at midnight that its own ISO form reads back to; on any
    other outcome it raises [ValueError], and nothing else. *)
Theorem parse_date_outcome :
  forall s : string,
    match parse_date s with
    | Ok t =>
        (8 <= String.length s <= 10)%nat /\
        Calendar.valid_date (year t) (month t) (day t) = true /\
        hour t = 0 /\ minute t = 0 /\ second t = 0 /\ microsecond t = 0 /\
        parse_date (date_isoformat t) = Ok t
    | Raise e => exists msg, e = ValueError msg
    end.
Proof.
  intros s. unfold parse_date at 1. unfold strptime_ymd.
  destruct (match_format s) as [[[[y m] d] rest]|] eqn:M; [|eauto].
  destruct rest as [|c rest]; [|eauto].
  destruct (new_datetime y m d 0 0 0 0) as [t|e] eqn:N.
  - apply new_datetime_ok in N. destruct N as [V ->].
    cbn [year month day hour minute second microsecond].
    apply match_format_length in M. simpl in M.
    split; [lia|]. split; [exact V|]. repeat (split; [reflexivity|]).
    now apply parse_date_day_key.
  - unfold new_datetime in N.
    repeat match type of N with
           | (if ?c then _ else _) = _ => destruct c
           end; try discriminate; injection N as <-; eauto.
Qed.

(** X3. [build_query] tells pools apart: two pool identifiers with the same
    selector are the same identifier. *)
Theorem build_query_injective :
  forall a b : string, build_query a = build_query b -> a = b.
Proof.
  intros a b H. unfold build_query in H.
  apply string_app_inj in H; [|reflexivity]. destruct H as [_ H].
  apply string_app_inj in H; [|reflexivity]. destruct H as [_ H].
  apply string_app_inj in H; [|reflexivity]. destruct H as [_ H].
  revert b H. induction a as [|c a IH]; intros [|c' b] H.
  - reflexivity.
  - exfalso. apply (f_equal String.length) in H. unfold dquote in H.
    simpl in H. rewrite ?string_length_app in H. simpl in H. lia.
  - exfalso. apply (f_equal String.length) in H. unfold dquote in H.
    simpl in H. rewrite ?string_length_app in H. simpl in H. lia.
  - simpl in H. injection H as -> H. f_equal. now apply IH.
Qed.

Lemma build_query_injective_witness :
  build_query "7" = build_query "7" /\ "7" = "7".
Proof.
  assert (build_query "7" = build_query "7") as H by reflexivity.
  split; [exact H | exact (build_query_injective "7" "7" H)].
Defined.

(* ===================================================================== *)
(** * The day after a date; the order of the keys *)
(* ===================================================================== *)

Section NextDateFacts.
Import Calendar.

Lemma days_before_month_succ (y m : Z) :
  1 <= m <= 11 ->
  days_before_month y (m + 1) = days_before_month y m + days_in_month y m.
Proof.
  intros H. unfold days_before_month, days_in_month.
  assert (m = 1 \/ m = 2 \/ m = 3 \/ m = 4 \/ m = 5 \/ m = 6 \/ m = 7
          \/ m = 8 \/ m = 9 \/ m = 10 \/ m = 11) as C by lia.
  repeat match goal with
         | C : _ \/ _ |- _ => destruct C as [C|C]
         end; subst m; destruct (is_leap y); reflexivity.
Qed.

Lemma days_in_month_pos (y m : Z) : 1 <= m <= 12 -> 28 <= days_in_month y m.
Proof.
  intros H. unfold days_in_month.
  assert (m = 1 \/ m = 2 \/ m = 3 \/ m = 4 \/ m = 5 \/ m = 6 \/ m = 7
          \/ m = 8 \/ m = 9 \/ m = 10 \/ m = 11 \/ m = 12) as C by lia.
  repeat match goal with
         | C : _ \/ _ |- _ => destruct C as [C|C]
         end; subst m; try lia; destruct (is_leap y); lia.
Qed.

(** [next_date] is a date, the one whose ordinal is one more. *)
Lemma next_date_spec (y m d : Z) :
  1 <= m <= 12 -> 1 <= d <= days_in_month y m ->
  let '(y', m', d') := next_date y m d in
  1 <= m' <= 12 /\ 1 <= d' <= days_in_month y' m' /\
  ymd2ord y' m' d' = ymd2ord y m d + 1.
Proof.
  intros Hm Hd. unfold next_date.
  destruct (Z.ltb_spec d (days_in_month y m)) as [L|G].
  - unfold ymd2ord. lia.
  - destruct (Z.ltb_spec m 12) as [L12|G12].
    + pose proof (days_in_month_pos y (m + 1)).
      unfold ymd2ord. rewrite days_before_month_succ by lia. lia.
    + assert (m = 12) as -> by lia.
      unfold ymd2ord. rewrite days_before_year_succ.
      unfold days_before_month, days_in_month in *. simpl.
      destruct (is_leap y); lia.
Qed.

Lemma last_day_ordinal (y m d : Z) :
  valid_date y m d = true -> (y, m, d) <> (9999, 12, 31) ->
  ymd2ord y m d < MAXORDINAL.
Proof.
  intros V N. apply valid_date_iff in V. destruct V as (Hy & Hm & Hd).
  pose proof (proj2 (ymd2ord_year_range y m d Hm Hd) Hy) as R.
  destruct (Z.eq_dec (ymd2ord y m d) MAXORDINAL) as [E|]; [|lia].
  exfalso. apply N.
  change MAXORDINAL with (ymd2ord 9999 12 31) in E.
  apply ymd2ord_inj in E; try assumption; try (simpl; lia).
  destruct E as (-> & -> & ->). reflexivity.
Qed.

(** The order of the ordinals is the order of the dates. *)
Lemma ymd2ord_le_date_le (y1 m1 d1 y2 m2 d2 : Z) :
  1 <= m1 <= 12 -> 1 <= d1 <= days_in_month y1 m1 ->
  1 <= m2 <= 12 -> 1 <= d2 <= days_in_month y2 m2 ->
  ymd2ord y1 m1 d1 <= ymd2ord y2 m2 d2 ->
  date_le (y1, m1, d1) (y2, m2, d2).
Proof.
  intros Hm1 Hd1 Hm2 Hd2 L. unfold date_le.
  destruct (Z_lt_le_dec y1 y2) as [|Gy]; [now left|]. right.
  destruct (Z_lt_le_dec y2 y1) as [Ly|].
  { exfalso.
    pose proof (ymd2ord_in_year y1 m1 d1 Hm1 Hd1).
    pose proof (ymd2ord_in_year y2 m2 d2 Hm2 Hd2).
    pose proof (days_before_year_mono (y2 + 1) y1). lia. }
  assert (y1 = y2) as -> by lia. split; [reflexivity|].
  destruct (Z_lt_le_dec m1 m2) as [|Gm]; [now left|]. right.
  destruct (Z_lt_le_dec m2 m1) as [Lm|].
  { exfalso. unfold ymd2ord in L.
    assert (forall a b, 1 <= a -> a <= b -> b <= 12 ->
              days_before_month y2 a <= days_before_month y2 b) as Mono.
    { intros a b Ha Hab Hb.
      replace b with (a + Z.of_nat (Z.to_nat (b - a))) by lia.
      assert (a + Z.of_nat (Z.to_nat (b - a)) <= 12) as Hk by lia.
      revert Hk. generalize (Z.to_nat (b - a)) as k.
      induction k as [|k IH]; intros Hk.
      - rewrite Z.add_0_r. lia.
      - rewrite Nat2Z.inj_succ in *.
        replace (a + Z.succ (Z.of_nat k)) with (a + Z.of_nat k + 1) by lia.
        rewrite days_before_month_succ by lia.
        pose proof (days_in_month_pos y2 (a + Z.of_nat k)). lia. }
    pose proof (Mono (m2 + 1) m1).
    pose proof (days_before_month_succ y2 m2). lia. }
  assert (m1 = m2) as -> by lia. split; [reflexivity|].
  unfold ymd2ord in L. lia.
Qed.

End NextDateFacts.

Section KeyOrder.

Lemma order2_checked : check_range 8 check_order2 0 100 = true.
Proof. vm_compute. reflexivity. Qed.

Lemma split4_checked : check_range 20 check_split4 0 10000 = true.
Proof. vm_compute. reflexivity. Qed.

Lemma comparison_eqb_eq (a b : comparison) :
  comparison_eqb a b = true -> a = b.
Proof. destruct a, b; simpl; congruence. Qed.

Lemma zfill2_compare (i j : Z) :
  0 <= i < 100 -> 0 <= j < 100 ->
  String.compare (Fmt.zfill 2 i) (Fmt.zfill 2 j) = (i ?= j).
Proof.
  intros Hi Hj.
  pose proof (check_range_sound _ _ _ _ order2_checked i Hi) as C.
  unfold check_order2 in C.
  pose proof (check_range_sound _ _ _ _ C j Hj) as C'.
  now apply comparison_eqb_eq.
Qed.

Lemma zfill4_split (y : Z) :
  0 <= y < 10000 ->
  Fmt.zfill 4 y = (Fmt.zfill 2 (y / 100) ++ Fmt.zfill 2 (y mod 100))%string.
Proof.
  intros H. pose proof (check_range_sound _ _ _ _ split4_checked y H) as C.
  now apply String.eqb_eq.
Qed.

(** Two texts that begin with fields of the same width compare by the
    fields first. *)
Lemma compare_app (a b : string) :
  forall s t, String.length a = String.length b ->
  String.compare (a ++ s) (b ++ t)
  = match String.compare a b with
    | Eq => String.compare s t
    | c => c
    end.
Proof.
  revert b. induction a as [|c a IH]; intros [|c' b] s t L;
    try discriminate; simpl.
  - reflexivity.
  - destruct (Ascii.compare c c'); try reflexivity.
    apply IH. simpl in L. lia.
Qed.

Lemma compare_lex (a1 a2 b1 b2 : Z) :
  0 <= a2 < 100 -> 0 <= b2 < 100 ->
  match a1 ?= b1 with
  | Eq => a2 ?= b2
  | c => c
  end = (100 * a1 + a2 ?= 100 * b1 + b2).
Proof.
  intros Ha Hb. symmetry.
  destruct (Z.compare_spec a1 b1) as [->|L|G].
  - destruct (Z.compare_spec a2 b2) as [->|L|G].
    + apply Z.compare_refl.
    + apply Z.compare_lt_iff. lia.
    + apply Z.compare_gt_iff. lia.
  - apply Z.compare_lt_iff. lia.
  - apply Z.compare_gt_iff. lia.
Qed.

Lemma zfill4_compare (a b : Z) :
  0 <= a < 10000 -> 0 <= b < 10000 ->
  String.compare (Fmt.zfill 4 a) (Fmt.zfill 4 b) = (a ?= b).
Proof.
  intros Ha Hb. rewrite (zfill4_split a Ha), (zfill4_split b Hb).
  assert (0 <= a / 100 < 100) as Qa by div_lia.
  assert (0 <= b / 100 < 100) as Qb by div_lia.
  assert (0 <= a mod 100 < 100) as Ra by div_lia.
  assert (0 <= b mod 100 < 100) as Rb by div_lia.
  rewrite compare_app
    by (rewrite (proj1 (zfill2_spec _ Qa)), (proj1 (zfill2_spec _ Qb));
        reflexivity).
  rewrite !zfill2_compare by assumption.
  rewrite compare_lex by assumption.
  f_equal; div_lia.
Qed.

Lemma month_key_compare (y1 m1 y2 m2 : Z) :
  0 <= y1 < 10000 -> 0 <= m1 < 100 -> 0 <= y2 < 10000 -> 0 <= m2 < 100 ->
  String.compare (month_key y1 m1) (month_key y2 m2)
  = match y1 ?= y2 with
    | Eq => m1 ?= m2
    | c => c
    end.
Proof.
  intros Hy1 Hm1 Hy2 Hm2. unfold month_key.
  rewrite compare_app
    by (rewrite (proj1 (zfill4_spec _ Hy1)), (proj1 (zfill4_spec _ Hy2));
        reflexivity).
  rewrite zfill4_compare by assumption.
  destruct (y1 ?= y2); try reflexivity.
  cbn [append String.compare]. change (Ascii.compare "-" "-") with Eq.
  cbv iota. now apply zfill2_compare.
Qed.

Lemma day_key_compare (y1 m1 d1 y2 m2 d2 : Z) :
  0 <= y1 < 10000 -> 0 <= m1 < 100 -> 0 <= d1 < 100 ->
  0 <= y2 < 10000 -> 0 <= m2 < 100 -> 0 <= d2 < 100 ->
  String.compare (day_key y1 m1 d1) (day_key y2 m2 d2)
  = match y1 ?= y2 with
    | Eq => match m1 ?= m2 with
            | Eq => d1 ?= d2
            | c => c
            end
    | c => c
    end.
Proof.
  intros Hy1 Hm1 Hd1 Hy2 Hm2 Hd2. rewrite !day_key_month_key.
  rewrite compare_app by (now rewrite !month_key_length).
  rewrite month_key_compare by assumption.
  destruct (y1 ?= y2); try reflexivity.
  destruct (m1 ?= m2); try reflexivity.
  cbn [append String.compare]. change (Ascii.compare "-" "-") with Eq.
  cbv iota. now apply zfill2_compare.
Qed.

Lemma str_le_compare (a b : string) :
  String.compare a b <> Gt -> str_le a b.
Proof.
  unfold str_le, String.leb. destruct (String.compare a b); congruence.
Qed.

Lemma date_le_day_key (y1 m1 d1 y2 m2 d2 : Z) :
  0 <= y1 < 10000 -> 0 <= m1 < 100 -> 0 <= d1 < 100 ->
  0 <= y2 < 10000 -> 0 <= m2 < 100 -> 0 <= d2 < 100 ->
  date_le (y1, m1, d1) (y2, m2, d2) ->
  str_le (day_key y1 m1 d1) (day_key y2 m2 d2) /\
  str_le (month_key y1 m1) (month_key y2 m2).
Proof.
  intros Hy1 Hm1 Hd1 Hy2 Hm2 Hd2 L. unfold date_le in L.
  split; apply str_le_compare;
    [rewrite day_key_compare by assumption
    |rewrite month_key_compare by assumption];
    destruct (Z.compare_spec y1 y2); try discriminate; try lia;
    destruct (Z.compare_spec m1 m2); try discriminate; try lia;
    destruct (Z.compare_spec d1 d2); try discriminate; try lia.
Qed.

Lemma substring_app (a b : string) :
  substring 0 (String.length a) (a ++ b) = a.
Proof.
  induction a as [|c a IH]; simpl.
  - destruct b; reflexivity.
  - now rewrite IH.
Qed.

End KeyOrder.

(** X4. The end of the window across the boundaries of the calendar: for a
    date other than 9999-12-31, adding one day gives the next day of the
    month, or the first of the next month after the last day of a month
    (the 28th or 29th of February by the leap year), or the first of
    January of the next year after the 31st of December; the time of day
    is kept. *)
Theorem add_one_day_is_next_date :
  forall (t : datetime),
    Calendar.valid_date (year t) (month t) (day t) = true ->
    (year t, month t, day t) <> (9999, 12, 31) ->
    add_days t 1
    = Ok (let '(y, m, d) := next_date (year t) (month t) (day t) in
          mk_datetime y m d (hour t) (minute t) (second t) (microsecond t)).
Proof.
  intros t V N. pose proof (last_day_ordinal _ _ _ V N) as L.
  apply valid_date_iff in V. destruct V as (Hy & Hm & Hd).
  pose proof (proj2 (ymd2ord_year_range _ _ _ Hm Hd) Hy) as R.
  pose proof (next_date_spec _ _ _ Hm Hd) as S.
  destruct (next_date (year t) (month t) (day t)) as [[y' m'] d'].
  destruct S as (Hm' & Hd' & O).
  unfold add_days, toordinal.
  replace ((1 <=? Calendar.ymd2ord (year t) (month t) (day t) + 1)
           && (Calendar.ymd2ord (year t) (month t) (day t) + 1
               <=? Calendar.MAXORDINAL)) with true
    by (symmetry; apply andb_true_iff; rewrite !Z.leb_le; lia).
  rewrite <- O, (ord2ymd_ymd2ord y' m' d' Hm' Hd'). reflexivity.
Qed.

Lemma add_one_day_is_next_date_witness :
  Calendar.valid_date 2024 2 29 = true /\
  Calendar.valid_date 2025 2 28 = true /\
  Calendar.valid_date 2025 12 31 = true /\
  add_days (mk_datetime 2024 2 29 0 0 0 0) 1
  = Ok (mk_datetime 2024 3 1 0 0 0 0) /\
  add_days (mk_datetime 2025 2 28 0 0 0 0) 1
  = Ok (mk_datetime 2025 3 1 0 0 0 0) /\
  add_days (mk_datetime 2025 12 31 0 0 0 0) 1
  = Ok (mk_datetime 2026 1 1 0 0 0 0).
Proof.
  assert (Calendar.valid_date 2024 2 29 = true) as V1 by reflexivity.
  assert (Calendar.valid_date 2025 2 28 = true) as V2 by reflexivity.
  assert (Calendar.valid_date 2025 12 31 = true) as V3 by reflexivity.
  split; [exact V1|]. split; [exact V2|]. split; [exact V3|].
  split; [|split].
  - apply (add_one_day_is_next_date (mk_datetime 2024 2 29 0 0 0 0) V1).
    discriminate.
  - apply (add_one_day_is_next_date (mk_datetime 2025 2 28 0 0 0 0) V2).
    discriminate.
  - apply (add_one_day_is_next_date (mk_datetime 2025 12 31 0 0 0 0) V3).
    discriminate.
Defined.

(* ===================================================================== *)
(** * Timestamps in whole seconds; the keys in the order of time *)
(* ===================================================================== *)

Section WholeSeconds.
Import Float64.

Lemma of_int_neg (n : Z) :
  0 < n < 2 ^ 53 -> of_int (- n) = S754_finite true (mant n) (expo n).
Proof.
  intros H. destruct n as [|p|p]; try lia.
  unfold of_int. cbn [Z.opp binary_normalize].
  apply binary_round_int; [exact H | lia | simpl; lia].
Qed.

Lemma modf_whole (s : bool) (k : Z) :
  0 < k < 2 ^ 53 ->
  modf (S754_finite s (mant k) (expo k)) = (S754_zero s, cond_Zopp s k).
Proof.
  intros H. destruct (mant_spec k H) as [E C].
  pose proof (log2_range k H) as L.
  unfold modf. destruct (Z.leb_spec 0 (expo k)) as [G|G]; unfold expo in *.
  - assert (Z.log2 k = 52) as L52 by lia.
    rewrite E, L52. f_equal. f_equal. simpl. lia.
  - rewrite E.
    replace (- (Z.log2 k - 52)) with (52 - Z.log2 k) by lia.
    assert (0 < 2 ^ (52 - Z.log2 k)) as P by (apply pow2_pos; lia).
    rewrite Z.div_mul, Z.mod_mul by lia.
    destruct s; reflexivity.
Qed.

Lemma timeval_of_finite_whole (s : bool) (k : Z) :
  0 < k < 2 ^ 53 ->
  timeval_of_float (S754_finite s (mant k) (expo k))
  = Ok (cond_Zopp s k, 0).
Proof.
  intros H. unfold timeval_of_float. rewrite (modf_whole s k H).
  rewrite (of_int_pos 1000000) by lia.
  unfold mul, SFmul, round_half_even.
  change (1000000 <=? 0) with false. change (0 <? 0) with false.
  cbv iota.
  replace ((TIME_T_MIN <=? cond_Zopp s k) && (cond_Zopp s k <=? TIME_T_MAX))
    with true; [reflexivity|].
  symmetry. apply andb_true_iff. rewrite !Z.leb_le.
  unfold TIME_T_MIN, TIME_T_MAX. destruct s; simpl; lia.
Qed.

(** A whole number of seconds goes through the conversion unchanged,
    with no microsecond. *)
Lemma timeval_of_int (n : Z) :
  - 2 ^ 53 < n < 2 ^ 53 -> timeval_of_float (of_int n) = Ok (n, 0).
Proof.
  intros H.
  destruct (Z_lt_le_dec 0 n) as [P|NP].
  - rewrite of_int_pos by lia.
    now rewrite (timeval_of_finite_whole false n) by lia.
  - destruct (Z.eq_dec n 0) as [->|NZ]; [reflexivity|].
    replace n with (- (- n)) at 1 by lia.
    rewrite of_int_neg by lia.
    rewrite (timeval_of_finite_whole true (- n)) by lia.
    simpl. f_equal. f_equal. lia.
Qed.

End WholeSeconds.

Section KeysInTime.
Import Calendar.

(** A key comes from a timestamp that the conversion accepts. *)
Lemma bucket_key_ok (ts : float) (group_by k : string) :
  bucket_key ts group_by = Ok k ->
  exists sec us y m d,
    timeval_of_float ts = Ok (sec, us) /\
    MIN_SECOND <= sec <= MAX_SECOND /\
    valid_date y m d = true /\
    date_of_epoch_day (epoch_day sec) y m d /\
    bucket_key ts "day" = Ok (day_key y m d) /\
    bucket_key ts "month" = Ok (month_key y m) /\
    ((group_by = "day" /\ k = day_key y m d) \/
     (group_by = "month" /\ k = month_key y m)).
Proof.
  intros K. pose proof K as H. unfold bucket_key in H.
  destruct (utcfromtimestamp ts) as [t|e] eqn:U; [|discriminate].
  destruct (utcfromtimestamp_ok ts t U) as (sec & us & T & R).
  destruct (bucket_key_accepted ts sec us T R)
    as (y & m & d & V & D & _ & Kd & Km).
  exists sec, us, y, m, d.
  repeat (split; [assumption|]).
  cbn [Py.bind] in H.
  destruct (String.eqb_spec group_by "day") as [->|Nd].
  - left. split; [reflexivity|]. congruence.
  - destruct (String.eqb_spec group_by "month") as [->|Nm].
    + right. split; [reflexivity|]. congruence.
    + discriminate.
Qed.

Lemma bucket_key_raise (ts : float) (e : exn) :
  bucket_key ts "day" = Raise e <-> bucket_key ts "month" = Raise e.
Proof.
  rewrite bucket_key_day, bucket_key_month.
  destruct (utcfromtimestamp ts); cbn [Py.bind]; split; congruence.
Qed.

Lemma bucket_key_month_prefix (ts : float) :
  match bucket_key ts "day" with
  | Ok k => bucket_key ts "month" = Ok (substring 0 7 k)
  | Raise e => bucket_key ts "month" = Raise e
  end.
Proof.
  destruct (bucket_key ts "day") as [k|e] eqn:K.
  - destruct (bucket_key_ok _ _ _ K)
      as (s & u & y & m & d & _ & _ & V & _ & Kd & Km & _).
    destruct (valid_date_fields _ _ _ V) as (Hy & Hm & _).
    rewrite Km. f_equal. rewrite Kd in K. injection K as <-.
    rewrite day_key_month_key.
    rewrite <- (month_key_length y m) by lia.
    now rewrite substring_app.
  - now apply bucket_key_raise.
Qed.

End KeysInTime.

(** X5. The keys follow time: of two timestamps that get a key, the one whose
    second is not later gets a key that is not above the other's, by day
    and by month. The order of the rows, which is the order of the
    strings, is the order of the calendar. *)
Theorem bucket_key_monotone :
  forall (ts1 ts2 : float) (sec1 us1 sec2 us2 : Z) (group_by k1 k2 : string),
    timeval_of_float ts1 = Ok (sec1, us1) ->
    timeval_of_float ts2 = Ok (sec2, us2) ->
    sec1 <= sec2 ->
    bucket_key ts1 group_by = Ok k1 -> bucket_key ts2 group_by = Ok k2 ->
    str_le k1 k2.
Proof.
  intros ts1 ts2 sec1 us1 sec2 us2 g k1 k2 T1 T2 L K1 K2.
  destruct (bucket_key_ok _ _ _ K1)
    as (s1 & u1 & y1 & m1 & d1 & T1' & R1 & V1 & D1 & _ & _ & C1).
  destruct (bucket_key_ok _ _ _ K2)
    as (s2 & u2 & y2 & m2 & d2 & T2' & R2 & V2 & D2 & _ & _ & C2).
  assert (s1 = sec1) as -> by congruence.
  assert (s2 = sec2) as -> by congruence.
  destruct (valid_date_fields _ _ _ V1) as (Hy1 & Hm1 & Hd1 & _).
  destruct (valid_date_fields _ _ _ V2) as (Hy2 & Hm2 & Hd2 & _).
  destruct D1 as (Mm1 & Md1 & O1), D2 as (Mm2 & Md2 & O2).
  assert (epoch_day sec1 <= epoch_day sec2) as Le
      by (unfold epoch_day; apply Z.div_le_mono; lia).
  assert (date_le (y1, m1, d1) (y2, m2, d2)) as DL
      by (apply ymd2ord_le_date_le; try assumption; lia).
  destruct (date_le_day_key y1 m1 d1 y2 m2 d2) as [Sd Sm];
    try assumption; try lia.
  destruct C1 as [[-> ->]|[-> ->]], C2 as [[E ->]|[E ->]];
    try discriminate; assumption.
Qed.

Lemma bucket_key_monotone_witness :
  timeval_of_float Examples.t0 = Ok (1759278600, 0) /\
  timeval_of_float Examples.t2 = Ok (1759363200, 0) /\
  1759278600 <= 1759363200 /\
  bucket_key Examples.t0 "day" = Ok "2025-10-01" /\
  bucket_key Examples.t2 "day" = Ok "2025-10-02" /\
  str_le "2025-10-01" "2025-10-02".
Proof.
  assert (timeval_of_float Examples.t0 = Ok (1759278600, 0)) as T0
      by (vm_compute; reflexivity).
  assert (timeval_of_float Examples.t2 = Ok (1759363200, 0)) as T2
      by (vm_compute; reflexivity).
  assert (1759278600 <= 1759363200) as L by lia.
  assert (bucket_key Examples.t0 "day" = Ok "2025-10-01") as K0
      by (vm_compute; reflexivity).
  assert (bucket_key Examples.t2 "day" = Ok "2025-10-02") as K2
      by (vm_compute; reflexivity).
  repeat (split; [assumption|]).
  exact (bucket_key_monotone _ _ _ _ _ _ _ _ _ T0 T2 L K0 K2).
Defined.

(** X6. The month key is the first seven characters of the day key: a
    timestamp has a key by month exactly when it has one by day, and the
    conversion fails the same way for both. *)
Theorem month_key_is_prefix_of_day_key :
  forall ts : float,
    match bucket_key ts "day" with
    | Ok k => bucket_key ts "month" = Ok (substring 0 7 k)
    | Raise e => bucket_key ts "month" = Raise e
    end.
Proof. exact bucket_key_month_prefix. Qed.

(** X7. Timestamps in whole seconds: for an integer [n] of seconds that a
    binary64 holds exactly, the keys are those of the date of the day
    [n / 86400] (floor) after the epoch when [n] falls in the years 1 to
    9999, and the function raises for every mode when it does not. *)
Theorem whole_second_keys :
  forall n : Z,
    - 2 ^ 53 < n < 2 ^ 53 ->
    (MIN_SECOND <= n <= MAX_SECOND ->
     exists y m d,
       date_of_epoch_day (n / 86400) y m d /\
       bucket_key (Float64.of_int n) "day" = Ok (day_key y m d) /\
       bucket_key (Float64.of_int n) "month" = Ok (month_key y m)) /\
    (~ MIN_SECOND <= n <= MAX_SECOND ->
     forall group_by, exists e,
       bucket_key (Float64.of_int n) group_by = Raise e).
Proof.
  intros n H. pose proof (timeval_of_int n H) as T. split.
  - intros R.
    destruct (bucket_key_accepted _ n 0 T R)
      as (y & m & d & _ & D & _ & Kd & Km).
    exists y, m, d. auto.
  - intros N g. unfold bucket_key.
    destruct (utcfromtimestamp (Float64.of_int n)) as [t|e] eqn:U.
    + exfalso. destruct (utcfromtimestamp_ok _ _ U) as (sec & us & T' & R).
      rewrite T in T'. injection T' as <- <-. contradiction.
    + exists e. reflexivity.
Qed.

Lemma whole_second_keys_witness :
  - 2 ^ 53 < -1 < 2 ^ 53 /\
  MIN_SECOND <= -1 <= MAX_SECOND /\
  date_of_epoch_day (-1 / 86400) 1969 12 31 /\
  bucket_key (Float64.of_int (-1)) "day" = Ok (day_key 1969 12 31) /\
  bucket_key (Float64.of_int (-1)) "month" = Ok (month_key 1969 12).
Proof.
  assert (- 2 ^ 53 < -1 < 2 ^ 53) as H by lia.
  assert (MIN_SECOND <= -1 <= MAX_SECOND) as R
      by (unfold MIN_SECOND, MAX_SECOND; lia).
  assert (date_of_epoch_day (-1 / 86400) 1969 12 31) as D0
      by (unfold date_of_epoch_day; simpl; repeat split; lia).
  destruct (proj1 (whole_second_keys (-1) H) R) as (y & m & d & D & Kd & Km).
  destruct (date_of_epoch_day_unique _ _ _ _ _ _ _ D D0) as (-> & -> & ->).
  repeat (split; [assumption|]). exact Km.
Defined.

(* ===================================================================== *)
(** * The buckets as a partition of the samples *)
(* ===================================================================== *)

Section Partition.

Lemma bucket_values_cons (ts val : float) (rest : list (float * float))
    (group_by k p : string) :
  bucket_key ts group_by = Ok k ->
  bucket_values ((ts, val) :: rest) group_by p
  = if String.eqb k p then val :: bucket_values rest group_by p
    else bucket_values rest group_by p.
Proof. intros K. simpl. now rewrite K. Qed.

Lemma In_bucket_values (samples : list (float * float))
    (group_by p : string) (v : float) :
  In v (bucket_values samples group_by p) <->
  exists ts, In (ts, v) samples /\ bucket_key ts group_by = Ok p.
Proof.
  induction samples as [|[ts val] rest IH]; simpl.
  - split; [contradiction | now intros (ts & [] & _)].
  - destruct (bucket_key ts group_by) as [k|e] eqn:K.
    + destruct (String.eqb_spec k p) as [->|N].
      * simpl. rewrite IH. split.
        -- intros [<-|(ts' & I & K')]; [exists ts; auto|].
           exists ts'. auto.
        -- intros (ts' & [E|I] & K').
           ++ injection E as -> ->. now left.
           ++ right. exists ts'. auto.
      * rewrite IH. split.
        -- intros (ts' & I & K'). exists ts'. auto.
        -- intros (ts' & [E|I] & K'); [|exists ts'; auto].
           injection E as -> ->. congruence.
    + rewrite IH. split.
      * intros (ts' & I & K'). exists ts'. auto.
      * intros (ts' & [E|I] & K'); [|exists ts'; auto].
        injection E as -> ->. congruence.
Qed.

Lemma In_sample_keys (samples : list (float * float)) (group_by : string)
    (ks : list string) (p : string) :
  sample_keys samples group_by = Ok ks ->
  (In p ks <->
   exists ts v, In (ts, v) samples /\ bucket_key ts group_by = Ok p).
Proof.
  revert ks. induction samples as [|[ts val] rest IH]; intros ks H.
  - injection H as <-. split; [contradiction | now intros (? & ? & [] & _)].
  - apply sample_keys_cons in H. destruct H as (k & ks' & K & H & ->).
    simpl. rewrite (IH ks' H). split.
    + intros [<-|(ts' & v & I & K')]; [exists ts, val; auto|].
      exists ts', v. auto.
    + intros (ts' & v & [E|I] & K').
      * injection E as -> ->. left. congruence.
      * right. exists ts', v. auto.
Qed.

(** One more sample adds its value to the bucket of its key and to no
    other. *)
Lemma concat_buckets_cons (ts val : float) (rest : list (float * float))
    (group_by k : string) (ps : list string) :
  bucket_key ts group_by = Ok k -> NoDup ps ->
  (In k ps ->
   Permutation
     (List.concat (map (bucket_values ((ts, val) :: rest) group_by) ps))
     (val :: List.concat (map (bucket_values rest group_by) ps))) /\
  (~ In k ps ->
   List.concat (map (bucket_values ((ts, val) :: rest) group_by) ps)
   = List.concat (map (bucket_values rest group_by) ps)).
Proof.
  intros K. induction ps as [|p ps IH]; intros N.
  - split; [contradiction | reflexivity].
  - inversion N as [|? ? Np N']. subst. destruct (IH N') as [IHin IHout].
    cbn [map List.concat]. rewrite (bucket_values_cons _ _ _ _ _ p K).
    destruct (String.eqb_spec k p) as [->|Ne]; split.
    + intros _. rewrite (IHout Np). reflexivity.
    + intros C. exfalso. apply C. now left.
    + intros [E|I]; [congruence|].
      etransitivity; [apply Permutation_app_head, (IHin I)|].
      symmetry. apply Permutation_middle.
    + intros C. rewrite IHout; [reflexivity|]. intros I. apply C. now right.
Qed.

Lemma bucket_values_partition (samples : list (float * float))
    (group_by : string) (ps : list string) :
  forall ks, sample_keys samples group_by = Ok ks ->
  NoDup ps -> (forall k, In k ks -> In k ps) ->
  Permutation (List.concat (map (bucket_values samples group_by) ps))
              (map snd samples).
Proof.
  induction samples as [|[ts val] rest IH]; intros ks H N C.
  - simpl. clear. induction ps as [|p ps IH]; [constructor | exact IH].
  - apply sample_keys_cons in H. destruct H as (k & ks' & K & H & ->).
    destruct (concat_buckets_cons ts val rest group_by k ps K N) as [P _].
    etransitivity; [apply P, C; now left|].
    cbn [map snd]. apply perm_skip.
    apply (IH ks' H N). intros k' I. apply C. now right.
Qed.

Lemma periods_of_rows (py : cpython) (samples : list (float * float))
    (group_by : string) (rows : list row) :
  aggregate_samples py samples group_by = Ok rows ->
  exists ks,
    sample_keys samples group_by = Ok ks /\
    NoDup (map period rows) /\
    (forall p, In p (map period rows) <-> In p ks).
Proof.
  intros H. destruct (aggregate_samples_keys _ _ _ _ H) as [N [ks K]].
  destruct (aggregate_samples_ok py _ _ _ N K)
    as (b & rows' & _ & H' & P & D & I & _).
  rewrite H in H'. injection H' as <-.
  exists ks. split; [exact K|]. rewrite P. split.
  - apply (Permutation_NoDup (sorted_perm (keys b)) D).
  - intros p. rewrite <- I. split; intros J.
    + apply (Permutation_in p (Permutation_sym (sorted_perm (keys b)))), J.
    + apply (Permutation_in p (sorted_perm (keys b))), J.
Qed.

End Partition.

(** X8. The periods of the rows are the keys of the samples, each of them
    once: a period has a row exactly when a sample has it as its key. *)
Theorem rows_periods_are_sample_keys :
  forall (py : cpython) (samples : list (float * float))
         (group_by : string) (rows : list row),
    aggregate_samples py samples group_by = Ok rows ->
    NoDup (map period rows) /\
    forall p : string,
      In p (map period rows) <->
      exists ts v, In (ts, v) samples /\ bucket_key ts group_by = Ok p.
Proof.
  intros py samples group_by rows H.
  destruct (periods_of_rows _ _ _ _ H) as (ks & K & N & I).
  split; [exact N|]. intros p. rewrite I. now apply In_sample_keys.
Qed.

Lemma rows_periods_are_sample_keys_witness :
  aggregate_samples Since_3_12 Examples.scenario "day"
  = Ok [Examples.scenario_day1; Examples.scenario_day2] /\
  NoDup ["2025-10-01"; "2025-10-02"] /\
  (In "2025-10-02" ["2025-10-01"; "2025-10-02"] <->
   exists ts v, In (ts, v) Examples.scenario /\
                bucket_key ts "day" = Ok "2025-10-02").
Proof.
  pose proof (scenario_by_day Since_3_12) as E.
  destruct (rows_periods_are_sample_keys _ _ _ _ E) as [N I].
  split; [exact E|]. split; [exact N | exact (I "2025-10-02")].
Defined.

(** X9. No sample is lost and none is counted twice: the buckets of the rows,
    one after the other, hold the values of the samples, each value as
    often as it occurs; the sizes of the buckets add up to the number of
    samples. *)
Theorem samples_partitioned_among_rows :
  forall (py : cpython) (samples : list (float * float))
         (group_by : string) (rows : list row),
    aggregate_samples py samples group_by = Ok rows ->
    let buckets :=
      map (fun r => bucket_values samples group_by (period r)) rows in
    Permutation (List.concat buckets) (map snd samples) /\
    List.length (List.concat buckets) = List.length samples.
Proof.
  intros py samples group_by rows H.
  destruct (periods_of_rows _ _ _ _ H) as (ks & K & N & I).
  cbv zeta.
  assert (Permutation
            (List.concat (map (fun r => bucket_values samples group_by (period r))
                         rows))
            (map snd samples)) as P.
  { rewrite <- (map_map period (bucket_values samples group_by)).
    apply (bucket_values_partition samples group_by _ ks K N).
    intros k. apply I. }
  split; [exact P|].
  rewrite (Permutation_length P). apply length_map.
Qed.

Lemma samples_partitioned_among_rows_witness :
  aggregate_samples Since_3_12 Examples.scenario "day"
  = Ok [Examples.scenario_day1; Examples.scenario_day2] /\
  Permutation
    (List.concat (map (fun r => bucket_values Examples.scenario "day" (period r))
                 [Examples.scenario_day1; Examples.scenario_day2]))
    (map snd Examples.scenario) /\
  List.length
    (List.concat (map (fun r => bucket_values Examples.scenario "day" (period r))
                 [Examples.scenario_day1; Examples.scenario_day2]))
  = 3%nat.
Proof.
  pose proof (scenario_by_day Since_3_12) as E.
  split; [exact E|].
  exact (samples_partitioned_among_rows _ _ _ _ E).
Defined.

(* ===================================================================== *)
(** * Rows of whole byte counts; the reports by day and by month *)
(* ===================================================================== *)

Section ByteCounts.

Lemma Zsum_app (a b : list Z) : Zsum (a ++ b) = Zsum a + Zsum b.
Proof. induction a as [|x a IH]; simpl; [reflexivity | rewrite IH; lia]. Qed.

Lemma Zsum_perm (a b : list Z) : Permutation a b -> Zsum a = Zsum b.
Proof. induction 1; simpl; lia. Qed.

(** The bucket of a period holds byte counts when the samples do. *)
Lemma bucket_values_byte_counts (samples : list (float * float))
    (group_by p : string) :
  forall ns, byte_counts (map snd samples) ns ->
  exists ns', byte_counts (bucket_values samples group_by p) ns' /\
              (forall n, In n ns' -> In n ns) /\ Zsum ns' <= Zsum ns.
Proof.
  induction samples as [|[ts val] rest IH]; intros ns (E & P & S).
  - exists []. repeat split; simpl; try easy.
    apply Zsum_nonneg. exact P.
  - destruct ns as [|n ns]; [discriminate|].
    simpl in E. injection E as -> E. simpl in S.
    assert (0 <= n) as Pn by (apply P; now left).
    assert (forall k, In k ns -> 0 <= k) as P' by (intros k I; apply P; now right).
    pose proof (Zsum_nonneg ns P') as Z.
    destruct (IH ns) as (ns' & (E' & Q' & S') & I' & L').
    { split; [exact E|]. split; [exact P' | lia]. }
    assert (exists l, byte_counts (bucket_values rest group_by p) l /\
                      (forall k, In k l -> In k (n :: ns)) /\
                      Zsum l <= Zsum (n :: ns)) as Skip.
    { exists ns'. split; [split; [exact E'|split; [exact Q'|exact S']]|].
      split; [intros k I; right; now apply I' | simpl; lia]. }
    simpl. destruct (bucket_key ts group_by) as [k|e]; [|exact Skip].
    destruct (String.eqb k p); [|exact Skip].
    exists (n :: ns'). split; [split|split].
    + simpl. now rewrite E'.
    + split; [intros k' [<-|I]; [exact Pn | now apply Q']|]. simpl. lia.
    + intros k' [<-|I]; [now left | right; now apply I'].
    + simpl. lia.
Qed.

(** The greatest of a list of byte counts. *)
Lemma max_of_byte_counts (vals : list float) (ns : list Z) (v : float) :
  byte_counts vals ns -> py_max vals = Ok v ->
  exists n, In n ns /\ (forall k, In k ns -> k <= n) /\
            v = Float64.of_int n.
Proof.
  intros (E & P & S) M.
  assert (forall k, In k ns -> 0 <= k < 2 ^ 53) as B.
  { intros k I. split; [now apply P|].
    pose proof (In_le_Zsum ns k P I). lia. }
  assert (no_nan vals) as NN.
  { intros x I. rewrite E in I. apply in_map_iff in I.
    destruct I as (k & <- & I). destruct (B k I) as [B0 B1].
    destruct (Z.eq_dec k 0) as [->|]; [reflexivity|].
    rewrite of_int_pos by lia. reflexivity. }
  destruct (py_max_spec vals v M NN) as [I Max].
  rewrite E in I. apply in_map_iff in I. destruct I as (n & <- & I).
  exists n. split; [exact I|]. split; [|reflexivity].
  intros k Ik. apply (leb_of_int k n); [now apply B | now apply B|].
  apply Max. rewrite E. now apply in_map.
Qed.

Lemma float_sum_byte_counts (py : cpython) (vals : list float)
    (ns : list Z) :
  byte_counts vals ns -> float_sum py vals = Float64.of_int (Zsum ns).
Proof. intros (-> & P & S). now apply float_sum_of_int. Qed.

Lemma len_map {A B : Type} (f : A -> B) (l : list A) : len (map f l) = len l.
Proof. unfold len. now rewrite length_map. Qed.

(** [build_rows] on buckets on which the two sums agree. *)
Lemma build_rows_interpreter (buckets : buckets_t) (periods : list string) :
  (forall p, In p periods ->
             float_sum Before_3_12 (getitem buckets p)
             = float_sum Since_3_12 (getitem buckets p)) ->
  build_rows Before_3_12 periods buckets
  = build_rows Since_3_12 periods buckets.
Proof.
  induction periods as [|p periods IH]; intros H; [reflexivity|].
  cbn [build_rows].
  rewrite IH by (intros q I; apply H; now right).
  assert (py_sum Before_3_12 (getitem buckets p)
          = py_sum Since_3_12 (getitem buckets p)) as ->; [|reflexivity].
  unfold py_sum. destruct (getitem buckets p) eqn:G; [reflexivity|].
  rewrite <- G. f_equal. apply H. now left.
Qed.

End ByteCounts.

(** X10. Rows of whole byte counts are exact: when the values of a bucket are
    whole, non-negative byte counts whose total is below [2^53], the sum is
    their total without error, so that [avg_bytes] is the one binary64
    division of the total by the count, and [max_bytes] is the greatest
    of the counts. *)
Theorem byte_count_rows_are_exact :
  forall (py : cpython) (samples : list (float * float)) (group_by : string)
         (rows : list row) (r : row) (ns : list Z),
    aggregate_samples py samples group_by = Ok rows -> In r rows ->
    byte_counts (bucket_values samples group_by (period r)) ns ->
    ns <> [] /\
    avg_bytes r
    = Float64.div (Float64.of_int (Zsum ns)) (Float64.of_int (len ns)) /\
    exists n, In n ns /\ (forall k, In k ns -> k <= n) /\
              max_bytes r = Float64.of_int n.
Proof.
  intros py samples group_by rows r ns H I B.
  destruct (aggregate_samples_row _ _ _ _ _ H I) as (N & A & M & _).
  cbv zeta in N, A, M. split; [|split].
  - intros ->. destruct B as [B _]. now apply N.
  - rewrite A, (float_sum_byte_counts py _ ns B).
    destruct B as [-> _]. now rewrite len_map.
  - now apply (max_of_byte_counts _ ns _ B).
Qed.

Lemma byte_count_rows_are_exact_witness :
  aggregate_samples Since_3_12 Examples.scenario "day"
  = Ok [Examples.scenario_day1; Examples.scenario_day2] /\
  byte_counts (bucket_values Examples.scenario "day" "2025-10-01")
              [100; 300] /\
  avg_bytes Examples.scenario_day1
  = Float64.div (Float64.of_int 400) (Float64.of_int 2) /\
  exists n, In n [100; 300] /\ (forall k, In k [100; 300] -> k <= n) /\
            max_bytes Examples.scenario_day1 = Float64.of_int n.
Proof.
  pose proof (scenario_by_day Since_3_12) as E.
  assert (byte_counts (bucket_values Examples.scenario "day" "2025-10-01")
                      [100; 300]) as B.
  { split; [vm_compute; reflexivity|]. split; [|reflexivity].
    intros n [<-|[<-|[]]]; lia. }
  split; [exact E|]. split; [exact B|].
  exact (proj2 (byte_count_rows_are_exact _ _ _ _ Examples.scenario_day1
                  [100; 300] E (or_introl eq_refl) B)).
Defined.

(** X11. The interpreter does not matter for byte counts: when the values of
    the samples are whole, non-negative byte counts whose total is below
    [2^53], aggregation gives the same rows, or the same error, with the
    plain [sum] of CPython up to 3.11 and with the compensated [sum] of
    3.12 and later. *)
Theorem rows_independent_of_interpreter :
  forall (samples : list (float * float)) (group_by : string) (ns : list Z),
    byte_counts (map snd samples) ns ->
    aggregate_samples Before_3_12 samples group_by
    = aggregate_samples Since_3_12 samples group_by.
Proof.
  intros samples group_by ns B.
  destruct samples as [|s samples]; [reflexivity|].
  assert (s :: samples <> []) as N by discriminate.
  unfold aggregate_samples.
  destruct (fill_buckets (s :: samples) group_by []) as [b|e] eqn:F;
    [|reflexivity].
  cbn [Py.bind]. apply build_rows_interpreter. intros p _.
  destruct (fill_buckets_keys _ _ _ _ F) as [ks K].
  destruct (fill_buckets_ok (s :: samples) group_by ks [] K)
    as (b' & F' & G & _).
  rewrite F in F'. injection F' as <-. rewrite G. cbn [getitem app].
  destruct (bucket_values_byte_counts (s :: samples) group_by p ns B)
    as (ns' & B' & _).
  now rewrite !(float_sum_byte_counts _ _ ns' B').
Qed.

Lemma rows_independent_of_interpreter_witness :
  byte_counts (map snd Examples.scenario) [100; 300; 500] /\
  aggregate_samples Before_3_12 Examples.scenario "month"
  = aggregate_samples Since_3_12 Examples.scenario "month".
Proof.
  assert (byte_counts (map snd Examples.scenario) [100; 300; 500]) as B.
  { split; [reflexivity|]. split; [|reflexivity].
    intros n [<-|[<-|[<-|[]]]]; lia. }
  split; [exact B|].
  exact (rows_independent_of_interpreter _ "month" _ B).
Defined.

(* ===================================================================== *)
(** * The order of the samples; the reports by day and by month *)
(* ===================================================================== *)

Section SampleOrder.

Lemma sample_keys_perm (group_by : string)
    (l l' : list (float * float)) :
  Permutation l l' ->
  forall ks, sample_keys l group_by = Ok ks ->
  exists ks', sample_keys l' group_by = Ok ks' /\ Permutation ks ks'.
Proof.
  induction 1 as [|[ts val] l l' P IH|[ts1 v1] [ts2 v2] l|l l' l'' P1 IH1 P2 IH2];
    intros ks H.
  - exists ks. split; [exact H | reflexivity].
  - apply sample_keys_cons in H. destruct H as (k & ks0 & K & H & ->).
    destruct (IH ks0 H) as (ks0' & H' & Pk).
    exists (k :: ks0'). split; [|now apply perm_skip].
    simpl. rewrite K, H'. reflexivity.
  - apply sample_keys_cons in H. destruct H as (k1 & ks1 & K1 & H & ->).
    apply sample_keys_cons in H. destruct H as (k2 & ks2 & K2 & H & ->).
    exists (k2 :: k1 :: ks2). split; [|apply perm_swap].
    simpl. rewrite K2, K1, H. reflexivity.
  - destruct (IH1 ks H) as (ks' & H' & Pk).
    destruct (IH2 ks' H') as (ks'' & H'' & Pk').
    exists ks''. split; [exact H''|]. now transitivity ks'.
Qed.

Lemma bucket_values_perm (group_by p : string)
    (l l' : list (float * float)) :
  Permutation l l' ->
  Permutation (bucket_values l group_by p) (bucket_values l' group_by p).
Proof.
  induction 1 as [|[ts val] l l' P IH|[ts1 v1] [ts2 v2] l|l l' l'' P1 IH1 P2 IH2].
  - reflexivity.
  - simpl. destruct (bucket_key ts group_by) as [k|e]; [|exact IH].
    destruct (String.eqb k p); [now apply perm_skip | exact IH].
  - simpl.
    destruct (bucket_key ts1 group_by) as [k1|e1],
             (bucket_key ts2 group_by) as [k2|e2];
      try destruct (String.eqb k1 p); try destruct (String.eqb k2 p);
      try reflexivity.
    apply perm_swap.
  - now transitivity (bucket_values l' group_by p).
Qed.

Lemma str_lt_irrefl (x : string) : ~ str_lt x x.
Proof.
  unfold str_lt, String.ltb.
  assert (String.compare x x = Eq) as ->; [|discriminate].
  induction x as [|c x IH]; simpl; [reflexivity|].
  assert (Ascii.compare c c = Eq) as ->; [|exact IH].
  unfold Ascii.compare. apply N.compare_refl.
Qed.

(** A list in strict order is determined by its elements. *)
Lemma strongly_sorted_unique (l1 : list string) :
  forall l2, StronglySorted str_lt l1 -> StronglySorted str_lt l2 ->
  (forall x, In x l1 <-> In x l2) -> l1 = l2.
Proof.
  induction l1 as [|a l1 IH]; intros [|b l2] S1 S2 E.
  - reflexivity.
  - exfalso. apply (proj2 (E b)). now left.
  - exfalso. apply (proj1 (E a)). now left.
  - inversion S1 as [|? ? S1' F1]. inversion S2 as [|? ? S2' F2]. subst.
    rewrite Forall_forall in F1, F2.
    assert (a = b) as ->.
    { destruct (proj1 (E a) (or_introl eq_refl)) as [->|Ia]; [reflexivity|].
      destruct (proj2 (E b) (or_introl eq_refl)) as [->|Ib]; [reflexivity|].
      exfalso. apply (str_lt_irrefl a).
      apply (str_lt_trans a b a); [now apply F1 | now apply F2]. }
    f_equal. apply IH; try assumption.
    intros x. split; intros I.
    + destruct (proj1 (E x) (or_intror I)) as [<-|J]; [|exact J].
      exfalso. apply (str_lt_irrefl b). now apply F1.
    + destruct (proj2 (E x) (or_intror I)) as [<-|J]; [|exact J].
      exfalso. apply (str_lt_irrefl b). now apply F2.
Qed.

(** Two buckets with the same byte counts in another order give the same
    sum, count and maximum. *)
Lemma bucket_perm_byte_counts (py : cpython) (vals vals' : list float)
    (ns : list Z) :
  byte_counts vals ns -> Permutation vals vals' ->
  float_sum py vals = float_sum py vals' /\
  len vals = len vals' /\
  py_max vals = py_max vals'.
Proof.
  intros B P. pose proof B as (E & Pos & S).
  assert (Permutation vals' (map Float64.of_int ns)) as P'
      by (rewrite <- E; now symmetry).
  apply Permutation_map_inv in P'. destruct P' as (ns' & E' & Pn).
  assert (byte_counts vals' ns') as B'.
  { split; [exact E'|]. split.
    - intros n I. apply Pos.
      now apply (Permutation_in n (Permutation_sym Pn)).
    - now rewrite <- (Zsum_perm _ _ Pn). }
  split; [|split].
  - rewrite (float_sum_byte_counts py _ _ B),
      (float_sum_byte_counts py _ _ B').
    now rewrite (Zsum_perm _ _ Pn).
  - unfold len. now rewrite (Permutation_length P).
  - destruct vals as [|v vals].
    + apply Permutation_nil in P. now subst.
    + destruct vals' as [|v' vals'];
        [symmetry in P; apply Permutation_nil in P; discriminate|].
      destruct (py_max (v :: vals)) as [m|] eqn:M; [|discriminate].
      destruct (py_max (v' :: vals')) as [m'|] eqn:M'; [|discriminate].
      destruct (max_of_byte_counts _ _ _ B M) as (n & I & U & ->).
      destruct (max_of_byte_counts _ _ _ B' M') as (n' & I' & U' & ->).
      assert (n' <= n)
        by (apply U, (Permutation_in n' (Permutation_sym Pn)), I').
      assert (n <= n') by (apply U', (Permutation_in n Pn), I).
      do 2 f_equal. lia.
Qed.

(** Rows are determined by their periods and by the sum, the count and
    the maximum of their buckets. *)
Lemma rows_determined (py : cpython) (b b' : buckets_t) (rows : list row) :
  forall rows',
  map period rows = map period rows' ->
  (forall r, In r rows -> row_of_bucket py b r) ->
  (forall r, In r rows' -> row_of_bucket py b' r) ->
  (forall p, float_sum py (getitem b p) = float_sum py (getitem b' p) /\
             len (getitem b p) = len (getitem b' p) /\
             py_max (getitem b p) = py_max (getitem b' p)) ->
  rows = rows'.
Proof.
  induction rows as [|r rows IH]; intros [|r' rows'] P R R' E;
    try discriminate; [reflexivity|].
  simpl in P. injection P as Pr P.
  f_equal.
  - destruct (R r (or_introl eq_refl)) as (_ & A & M & Ag & Mg).
    destruct (R' r' (or_introl eq_refl)) as (_ & A' & M' & Ag' & Mg').
    cbv zeta in *. rewrite <- Pr in *.
    destruct (E (period r)) as (Es & El & Em).
    rewrite <- Es, <- El in A'. rewrite <- Em, M in M'.
    injection M' as M'.
    destruct r as [p a m ag mg], r' as [p' a' m' ag' mg'].
    cbn [period avg_bytes max_bytes avg_gib max_gib] in *.
    subst. reflexivity.
  - apply IH; try assumption.
    + intros x I. apply R. now right.
    + intros x I. apply R'. now right.
Qed.

End SampleOrder.

(** X12. The order of the samples does not matter for byte counts: when the
    values are whole, non-negative byte counts whose total is below
    [2^53], the same samples in another order give the same rows. *)
Theorem rows_independent_of_sample_order :
  forall (py : cpython) (samples samples' : list (float * float))
         (group_by : string) (ns : list Z) (rows : list row),
    Permutation samples samples' ->
    byte_counts (map snd samples) ns ->
    aggregate_samples py samples group_by = Ok rows ->
    aggregate_samples py samples' group_by = Ok rows.
Proof.
  intros py samples samples' group_by ns rows P B H.
  destruct (aggregate_samples_keys _ _ _ _ H) as [N [ks K]].
  destruct (sample_keys_perm group_by _ _ P ks K) as (ks' & K' & Pk).
  assert (samples' <> []) as N'.
  { intros ->. apply Permutation_sym, Permutation_nil in P. contradiction. }
  destruct (aggregate_samples_ok py _ _ _ N K)
    as (b & rows0 & _ & H0 & Pr & D & I & G & R).
  rewrite H in H0. injection H0 as <-.
  destruct (aggregate_samples_ok py _ _ _ N' K')
    as (b' & rows' & _ & H' & Pr' & D' & I' & G' & R').
  rewrite H'. f_equal. symmetry.
  apply (rows_determined py b b'); try assumption.
  - rewrite Pr, Pr'.
    apply strongly_sorted_unique; try (now apply sorted_strongly).
    intros x. split; intros J.
    + apply (Permutation_in x (sorted_perm (keys b'))), I'.
      apply (Permutation_in x Pk), I.
      apply (Permutation_in x (Permutation_sym (sorted_perm (keys b)))), J.
    + apply (Permutation_in x (sorted_perm (keys b))), I.
      apply (Permutation_in x (Permutation_sym Pk)), I'.
      apply (Permutation_in x (Permutation_sym (sorted_perm (keys b')))), J.
  - intros p. rewrite G, G'.
    destruct (bucket_values_byte_counts samples group_by p ns B)
      as (ns0 & B0 & _).
    apply (bucket_perm_byte_counts py _ _ ns0 B0).
    now apply bucket_values_perm.
Qed.

Lemma rows_independent_of_sample_order_witness :
  Permutation Examples.scenario (rev Examples.scenario) /\
  byte_counts (map snd Examples.scenario) [100; 300; 500] /\
  aggregate_samples Since_3_12 Examples.scenario "day"
  = Ok [Examples.scenario_day1; Examples.scenario_day2] /\
  aggregate_samples Since_3_12 (rev Examples.scenario) "day"
  = Ok [Examples.scenario_day1; Examples.scenario_day2].
Proof.
  pose proof (Permutation_rev Examples.scenario) as P.
  assert (byte_counts (map snd Examples.scenario) [100; 300; 500]) as B.
  { split; [reflexivity|]. split; [|reflexivity].
    intros n [<-|[<-|[<-|[]]]]; lia. }
  pose proof (scenario_by_day Since_3_12) as E.
  split; [exact P|]. split; [exact B|]. split; [exact E|].
  exact (rows_independent_of_sample_order _ _ _ _ _ _ P B E).
Defined.

Section DayAndMonth.

Lemma sample_keys_month (samples : list (float * float)) :
  forall ks, sample_keys samples "day" = Ok ks ->
  sample_keys samples "month" = Ok (map (substring 0 7) ks).
Proof.
  induction samples as [|[ts val] rest IH]; intros ks H.
  - injection H as <-. reflexivity.
  - apply sample_keys_cons in H. destruct H as (k & ks' & K & H & ->).
    pose proof (bucket_key_month_prefix ts) as M. rewrite K in M.
    simpl. rewrite M, (IH ks' H). reflexivity.
Qed.

Lemma no_nan_bucket (samples : list (float * float)) (group_by p : string) :
  no_nan (map snd samples) -> no_nan (bucket_values samples group_by p).
Proof.
  intros NN x I. apply In_bucket_values in I. destruct I as (ts & I & _).
  apply NN. apply (in_map snd) in I. exact I.
Qed.

(** [max] returns one of the items. *)
Lemma py_max_In (vals : list float) (v : float) :
  py_max vals = Ok v -> In v vals.
Proof.
  destruct vals as [|v0 rest]; [discriminate|]. simpl. intros [= <-].
  revert v0. induction rest as [|x rest IH]; intros v0; [now left|].
  simpl. destruct (Float64.gtb x v0).
  - destruct (IH x) as [E|I]; [right; left; exact E | right; right; exact I].
  - destruct (IH v0) as [E|I]; [left; exact E | right; right; exact I].
Qed.

Lemma row_of_period (rows : list row) (p : string) :
  In p (map period rows) -> exists r, In r rows /\ period r = p.
Proof.
  intros I. apply in_map_iff in I. destruct I as (r & E & I). eauto.
Qed.

End DayAndMonth.

(** X13. The report by month agrees with the report by day of the same
    samples: when aggregation by day succeeds, so does aggregation by
    month, with no more rows; every daily row belongs to the monthly row
    whose period is the first seven characters of its own, and its
    maximum is not above that of the month; and every monthly row has a
    day whose maximum reaches that of the month. *)
Theorem monthly_rows_cover_daily_rows :
  forall (py : cpython) (samples : list (float * float))
         (daily : list row),
    aggregate_samples py samples "day" = Ok daily ->
    exists monthly : list row,
      aggregate_samples py samples "month" = Ok monthly /\
      (List.length monthly <= List.length daily)%nat /\
      (forall rd, In rd daily ->
         exists rm, In rm monthly /\
           period rm = substring 0 7 (period rd) /\
           (no_nan (map snd samples) ->
            Float64.leb (max_bytes rd) (max_bytes rm) = true)) /\
      (forall rm, In rm monthly ->
         exists rd, In rd daily /\
           period rm = substring 0 7 (period rd) /\
           (no_nan (map snd samples) ->
            Float64.leb (max_bytes rm) (max_bytes rd) = true)).
Proof.
  intros py samples daily H.
  destruct (aggregate_samples_keys _ _ _ _ H) as [N [ksd Kd]].
  pose proof (sample_keys_month samples ksd Kd) as Km.
  destruct (aggregate_samples_ok py _ _ _ N Km)
    as (bm & monthly & _ & Hm & _).
  exists monthly. split; [exact Hm|].
  destruct (periods_of_rows _ _ _ _ H) as (ksd' & Kd' & Nd & Id).
  rewrite Kd in Kd'. injection Kd' as <-.
  destruct (periods_of_rows _ _ _ _ Hm) as (ksm & Km' & Nm & Im).
  rewrite Km in Km'. injection Km' as <-.
  assert (forall r rows g, aggregate_samples py samples g = Ok rows ->
            In r rows -> no_nan (map snd samples) ->
            is_maximum (max_bytes r) (bucket_values samples g (period r)))
    as Max.
  { intros r rows g Hr Ir NN.
    destruct (aggregate_samples_row _ _ _ _ _ Hr Ir) as (_ & _ & M & _).
    apply (py_max_spec _ _ M). now apply no_nan_bucket. }
  split; [|split].
  - rewrite <- (length_map period monthly), <- (length_map period daily).
    rewrite <- (length_map (substring 0 7) (map period daily)).
    apply NoDup_incl_length; [exact Nm|].
    intros p Ip. apply Im in Ip. apply in_map_iff in Ip.
    destruct Ip as (kd & <- & Ik). apply in_map. now apply Id.
  - intros rd Ird.
    assert (In (period rd) ksd) as Ik by (apply Id; now apply in_map).
    destruct (row_of_period monthly (substring 0 7 (period rd)))
      as (rm & Irm & Em); [apply Im; now apply in_map|].
    exists rm. split; [exact Irm|]. split; [exact Em|]. intros NN.
    destruct (Max rd daily "day" H Ird NN) as [Iv _].
    destruct (Max rm monthly "month" Hm Irm NN) as [_ Um].
    apply Um. rewrite Em.
    apply In_bucket_values in Iv. destruct Iv as (ts & Is & K).
    apply In_bucket_values. exists ts. split; [exact Is|].
    pose proof (bucket_key_month_prefix ts) as M. now rewrite K in M.
  - intros rm Irm.
    destruct (aggregate_samples_row _ _ _ _ _ Hm Irm) as (_ & _ & M & _).
    cbv zeta in M.
    pose proof (py_max_In _ _ M) as Iv.
    apply In_bucket_values in Iv. destruct Iv as (ts & Is & K).
    pose proof (bucket_key_month_prefix ts) as P.
    destruct (bucket_key ts "day") as [kd|e] eqn:Kday; [|congruence].
    rewrite K in P. injection P as P.
    destruct (row_of_period daily kd) as (rd & Ird & Ed).
    { apply Id. apply (In_sample_keys _ _ _ kd Kd). eauto. }
    exists rd. split; [exact Ird|]. split; [now rewrite Ed|]. intros NN.
    destruct (Max rd daily "day" H Ird NN) as [_ Ud].
    apply Ud. rewrite Ed. apply In_bucket_values. eauto.
Qed.

Lemma monthly_rows_cover_daily_rows_witness :
  aggregate_samples Since_3_12 Examples.scenario "day"
  = Ok [Examples.scenario_day1; Examples.scenario_day2] /\
  exists monthly : list row,
    aggregate_samples Since_3_12 Examples.scenario "month" = Ok monthly /\
    (List.length monthly <= 2)%nat.
Proof.
  pose proof (scenario_by_day Since_3_12) as E.
  destruct (monthly_rows_cover_daily_rows _ _ _ E) as (monthly & H & L & _).
  split; [exact E|]. exists monthly. split; [exact H | exact L].
Defined.

(* ===================================================================== *)
(** * The requests of [main] in the direct script *)
(* ===================================================================== *)

Section Fetch.

Lemma direct_query_range_eq (pool_id : string) (start end_ : datetime)
    (step : string) (w : world) :
  Direct.query_range pool_id start end_ step w
  = (samples_of_reply "Prometheus error"
       (backend w (sent w) (direct_request pool_id start end_ step)),
     mk_world (backend w) (getenv w)
       (sent w ++ [direct_request pool_id start end_ step])).
Proof. reflexivity. Qed.

End Fetch.

Section MainRequests.

Lemma direct_window :
  parse_date "2025-10-01" = Ok (mk_datetime 2025 10 1 0 0 0 0) /\
  (t <- parse_date "2025-11-30" ;; add_days t 1)
  = Ok (mk_datetime 2025 12 1 0 0 0 0).
Proof. split; vm_compute; reflexivity. Qed.

End MainRequests.

(** X17. [main] of the direct script asks for the same window twice: it sends
    the request for pool 7 from 2025-10-01T00:00:00Z to
    2025-12-01T00:00:00Z (the 30th of November included) once for the
    daily rows and, when those are obtained, once more for the monthly
    rows; the samples of the first answer are not kept for the second
    report. When the daily report fails, [main] ends with its error after
    the one request. *)
Theorem direct_main_fetches_twice :
  forall (py : cpython) (w : world),
    let r0 :=
      direct_request "7" (mk_datetime 2025 10 1 0 0 0 0)
                     (mk_datetime 2025 12 1 0 0 0 0) STEP in
    In ("start", "2025-10-01T00:00:00Z") (params r0) /\
    In ("end", "2025-12-01T00:00:00Z") (params r0) /\
    In ("step", "1h") (params r0) /\
    match fst (Direct.aggregate_usage py "7" "2025-10-01" "2025-11-30"
                 "day" w) with
    | Ok daily =>
        sent (snd (Direct.main py w)) = (sent w ++ [r0; r0])%list /\
        forall monthly, fst (Direct.main py w) = Ok (daily, monthly) ->
          fst (Direct.aggregate_usage py "7" "2025-10-01" "2025-11-30"
                 "month"
                 (mk_world (backend w) (getenv w) (sent w ++ [r0])%list))
          = Ok monthly
    | Raise e =>
        fst (Direct.main py w) = Raise e /\
        sent (snd (Direct.main py w)) = (sent w ++ [r0])%list
    end.
Proof.
  intros py w. cbv zeta.
  split; [right; left; vm_compute; reflexivity|].
  split; [right; right; left; vm_compute; reflexivity|].
  split; [right; right; right; left; reflexivity|].
  destruct direct_window as [Ps Pe].
  assert (forall g w0,
            Direct.aggregate_usage py "7" "2025-10-01" "2025-11-30" g w0
            = ((samples <- samples_of_reply "Prometheus error"
                  (backend w0 (sent w0)
                     (direct_request "7" (mk_datetime 2025 10 1 0 0 0 0)
                        (mk_datetime 2025 12 1 0 0 0 0) STEP)) ;;
                aggregate_samples py samples g),
               mk_world (backend w0) (getenv w0)
                 (sent w0 ++ [direct_request "7"
                                (mk_datetime 2025 10 1 0 0 0 0)
                                (mk_datetime 2025 12 1 0 0 0 0) STEP])%list))
    as A.
  { intros g w0. rewrite direct_aggregate_usage_eq, Ps, Pe.
    now rewrite direct_query_range_eq. }
  unfold Direct.main, io_bind, ret. rewrite (A "day" w).
  cbn [fst snd].
  destruct (samples <- _ ;; aggregate_samples py samples "day")
    as [daily|e]; cbn [fst snd].
  - rewrite (A "month"). cbn [fst snd sent backend getenv].
    destruct (samples <- _ ;; aggregate_samples py samples "month")
      as [monthly|e]; cbn [fst snd sent].
    + split; [now rewrite <- app_assoc|]. now intros m [= <-].
    + split; [now rewrite <- app_assoc|]. discriminate.
  - split; reflexivity.
Qed.

Lemma direct_main_fetches_twice_witness :
  let w := Examples.world_answering Examples.scenario in
  let r0 :=
    direct_request "7" (mk_datetime 2025 10 1 0 0 0 0)
                   (mk_datetime 2025 12 1 0 0 0 0) STEP in
  fst (Direct.aggregate_usage Since_3_12 "7" "2025-10-01" "2025-11-30"
         "day" w)
  = Ok [Examples.scenario_day1; Examples.scenario_day2] /\
  sent (snd (Direct.main Since_3_12 w)) = [r0; r0].
Proof.
  cbv zeta.
  assert (fst (Direct.aggregate_usage Since_3_12 "7" "2025-10-01"
                 "2025-11-30" "day"
                 (Examples.world_answering Examples.scenario))
          = Ok [Examples.scenario_day1; Examples.scenario_day2]) as E
      by (vm_compute; reflexivity).
  split; [exact E|].
  pose proof (direct_main_fetches_twice Since_3_12
                (Examples.world_answering Examples.scenario)) as H.
  cbv zeta in H. destruct H as (_ & _ & _ & H).
  rewrite E in H. exact (proj1 H).
Defined.

(* ===================================================================== *)
(** * From bytes to gibibytes *)
(* ===================================================================== *)

Section Gibibytes.
Import Float64.

Lemma of_int_gib : of_int (1024 ^ 3) = S754_finite false 4503599627370496 (-22).
Proof. vm_compute. reflexivity. Qed.

(** Dividing a float of full width by [2^30] moves its exponent and
    rounds nothing, as long as the result is not subnormal. *)
Lemma div_gib_exact (s : bool) (m : positive) (e : Z) :
  canonical m -> -1043 <= e <= 971 ->
  div (S754_finite s m e) (of_int (1024 ^ 3)) = S754_finite s m (e - 30).
Proof.
  intros C He. rewrite of_int_gib.
  assert (canonical 4503599627370496) as C2 by (unfold canonical; lia).
  unfold div, SFdiv, SFdiv_core_binary.
  rewrite (Zdigits2_unique m 53 C), (Zdigits2_unique _ 53 C2).
  replace (53 + e - (53 + -22)) with (53 + (e - 31)) by lia.
  rewrite fexp_53 by lia.
  rewrite Z.min_l by lia.
  replace (e - -22 - (e - 31)) with 53 by lia.
  cbv iota. rewrite Z.shiftl_mul_pow2 by lia.
  change (2 ^ 53) with 9007199254740992.
  pose proof (Z_div_mod (Z.pos m * 9007199254740992) 4503599627370496
                ltac:(lia)) as DM.
  destruct (Z.div_eucl (Z.pos m * 9007199254740992) 4503599627370496)
    as [q r].
  destruct DM as [DM R].
  assert (q = Z.pos m~0) as -> by lia.
  assert (r = 0) as -> by lia.
  assert (new_location 4503599627370496 0 = loc_Exact) as ->
      by (now apply new_location_exact).
  rewrite (round_aux_exact (xorb s false) m (e - 31) 1 (m~0) C);
    try lia.
  replace (e - 31 + 1) with (e - 30) by lia.
  now destruct s.
Qed.

Lemma div_gib_zero (s : bool) :
  div (S754_zero s) (of_int (1024 ^ 3)) = S754_zero s.
Proof. rewrite of_int_gib. now destruct s. Qed.

Lemma div_gib_of_int (n : Z) :
  0 <= n < 2 ^ 53 ->
  div (of_int n) (of_int (1024 ^ 3)) = scale_down_30 (of_int n).
Proof.
  intros H. destruct (Z.eq_dec n 0) as [->|N].
  - rewrite of_int_zero. apply div_gib_zero.
  - rewrite (of_int_pos n) by lia.
    destruct (mant_spec n ltac:(lia)) as [_ C].
    pose proof (log2_range n ltac:(lia)) as L.
    apply div_gib_exact; [exact C | unfold expo; lia].
Qed.

Lemma div_gib_of_mean (S n : Z) :
  0 <= S < 2 ^ 53 -> 0 < n < 2 ^ 53 ->
  div (div (of_int S) (of_int n)) (of_int (1024 ^ 3))
  = scale_down_30 (div (of_int S) (of_int n)).
Proof.
  intros HS Hn. destruct (Z.eq_dec S 0) as [->|N].
  - rewrite of_int_zero, (of_int_pos n) by lia.
    assert (div (S754_zero false) (S754_finite false (mant n) (expo n))
            = S754_zero false) as -> by reflexivity.
    apply div_gib_zero.
  - destruct (div_of_int_spec S n ltac:(lia) Hn)
      as (m2 & e2 & t & C & -> & Ht & He & _).
    apply div_gib_exact; [exact C | lia].
Qed.

(** Scaling keeps the order of the floats that are zero or positive. *)
Lemma leb_scale_down (x y : float) :
  leb x y = true ->
  match x with S754_zero false | S754_finite false _ _ => True
          | _ => False end ->
  match y with S754_zero false | S754_finite false _ _ => True
          | _ => False end ->
  leb (scale_down_30 x) (scale_down_30 y) = true.
Proof.
  assert (forall a b, (a - 30 ?= b - 30) = (a ?= b)) as Sh.
  { intros a b. destruct (Z.compare_spec a b);
      [apply Z.compare_eq_iff | apply Z.compare_lt_iff
      | apply Z.compare_gt_iff]; lia. }
  destruct x as [[|]| | |[|] m1 e1], y as [[|]| | |[|] m2 e2];
    try contradiction; try (intros; assumption).
  unfold leb, SFleb, SFcompare, scale_down_30. now rewrite Sh.
Qed.

Lemma of_int_shape (n : Z) :
  0 <= n < 2 ^ 53 ->
  match of_int n with S754_zero false | S754_finite false _ _ => True
                 | _ => False end.
Proof.
  intros H. destruct (Z.eq_dec n 0) as [->|N].
  - now rewrite of_int_zero.
  - now rewrite of_int_pos by lia.
Qed.

Lemma mean_shape (S n : Z) :
  0 <= S < 2 ^ 53 -> 0 < n < 2 ^ 53 ->
  match div (of_int S) (of_int n) with
  | S754_zero false | S754_finite false _ _ => True
  | _ => False
  end.
Proof.
  intros HS Hn. destruct (Z.eq_dec S 0) as [->|N].
  - now rewrite of_int_zero, (of_int_pos n) by lia.
  - destruct (div_of_int_spec S n ltac:(lia) Hn)
      as (m2 & e2 & t & _ & -> & _). exact I.
Qed.

End Gibibytes.

(** X18. The conversion to gibibytes adds no rounding error for byte counts:
    when the values of the bucket of a row are whole, non-negative byte
    counts whose total is below [2^53], [max_gib] and [avg_gib] are
    [max_bytes] and [avg_bytes] with the exponent lowered by 30, that is
    their exact quotients by [2^30]; and the average in gibibytes is not
    above the maximum in gibibytes. *)
Theorem gib_of_byte_counts_is_exact :
  forall (py : cpython) (samples : list (float * float)) (group_by : string)
         (rows : list row) (r : row) (ns : list Z),
    aggregate_samples py samples group_by = Ok rows -> In r rows ->
    byte_counts (bucket_values samples group_by (period r)) ns ->
    len ns < 2 ^ 53 ->
    max_gib r = scale_down_30 (max_bytes r) /\
    avg_gib r = scale_down_30 (avg_bytes r) /\
    Float64.leb (avg_gib r) (max_gib r) = true.
Proof.
  intros py samples group_by rows r ns H I B L.
  destruct (aggregate_samples_row _ _ _ _ _ H I) as (N & A & M & Ag & Mg).
  cbv zeta in N, A, M.
  destruct (max_of_byte_counts _ ns _ B M) as (n & In_n & Un & Em).
  pose proof B as (E & P & S).
  assert (0 <= n < 2 ^ 53) as Bn.
  { split; [now apply P|]. pose proof (In_le_Zsum ns n P In_n). lia. }
  assert (0 < len ns) as Lp.
  { rewrite <- (len_map Float64.of_int), <- E. now apply len_pos. }
  pose proof (Zsum_nonneg ns P) as Sp.
  assert (avg_bytes r
          = Float64.div (Float64.of_int (Zsum ns)) (Float64.of_int (len ns)))
    as A'.
  { rewrite A, (float_sum_byte_counts py _ ns B), E. now rewrite len_map. }
  assert (max_gib r = scale_down_30 (max_bytes r)) as MG
      by (rewrite Mg, Em; now apply div_gib_of_int).
  assert (avg_gib r = scale_down_30 (avg_bytes r)) as AG
      by (rewrite Ag, A'; apply div_gib_of_mean; lia).
  split; [exact MG|]. split; [exact AG|].
  rewrite MG, AG. apply leb_scale_down.
  - rewrite A', Em.
    apply (div_of_int_bounds 0 n (Zsum ns) (len ns)); try lia.
    destruct (Zsum_bounds ns 0 n) as [_ Hi];
      [intros k Ik; split; [now apply P | now apply Un]|].
    exact Hi.
  - rewrite A'. apply mean_shape; lia.
  - rewrite Em. now apply of_int_shape.
Qed.

Lemma gib_of_byte_counts_is_exact_witness :
  aggregate_samples Since_3_12 Examples.scenario "day"
  = Ok [Examples.scenario_day1; Examples.scenario_day2] /\
  byte_counts (bucket_values Examples.scenario "day" "2025-10-01")
              [100; 300] /\
  len [100; 300] < 2 ^ 53 /\
  max_gib Examples.scenario_day1 = scale_down_30 (Float64.of_int 300) /\
  avg_gib Examples.scenario_day1 = scale_down_30 (Float64.of_int 200) /\
  Float64.leb (avg_gib Examples.scenario_day1)
              (max_gib Examples.scenario_day1) = true.
Proof.
  pose proof (scenario_by_day Since_3_12) as E.
  assert (byte_counts (bucket_values Examples.scenario "day" "2025-10-01")
                      [100; 300]) as B.
  { split; [vm_compute; reflexivity|]. split; [|reflexivity].
    intros n [<-|[<-|[]]]; lia. }
  assert (len [100; 300] < 2 ^ 53) as L by reflexivity.
  split; [exact E|]. split; [exact B|]. split; [exact L|].
  exact (gib_of_byte_counts_is_exact _ _ _ _ Examples.scenario_day1
           [100; 300] E (or_introl eq_refl) B L).
Defined.

(* ===================================================================== *)
(** * The printed reports *)
(* ===================================================================== *)

Section Printing.
Import Float64.

(** Rounding a quotient does not see a common factor. *)
Lemma round_half_even_div_scale (a b c : Z) :
  0 < b -> 0 < c ->
  round_half_even_div (a * c) (b * c) = round_half_even_div a b.
Proof.
  intros Hb Hc. unfold round_half_even_div.
  rewrite Z.div_mul_cancel_r by lia.
  rewrite Z.mul_mod_distr_r by lia.
  pose proof (Z.mod_pos_bound a b Hb) as R.
  destruct (Z.ltb_spec (2 * (a mod b)) b) as [L|G].
  - destruct (Z.ltb_spec (2 * (a mod b * c)) (b * c)); [reflexivity | nia].
  - destruct (Z.ltb_spec (2 * (a mod b * c)) (b * c)); [nia|].
    destruct (Z.ltb_spec b (2 * (a mod b))) as [L'|G'].
    + destruct (Z.ltb_spec (b * c) (2 * (a mod b * c))); [reflexivity | nia].
    + destruct (Z.ltb_spec (b * c) (2 * (a mod b * c))); [nia | reflexivity].
Qed.

Lemma hundredths_of_scaled (n : Z) :
  0 < n < 2 ^ 53 ->
  hundredths (mant n) (expo n - 30)
  = round_half_even_div (100 * n) (2 ^ 30).
Proof.
  intros H. destruct (mant_spec n H) as [E _].
  pose proof (log2_range n H) as L.
  unfold hundredths, expo.
  destruct (Z.leb_spec 0 (Z.log2 n - 52 - 30)); [lia|].
  rewrite E.
  replace (- (Z.log2 n - 52 - 30)) with (30 + (52 - Z.log2 n)) by lia.
  rewrite pow2_split by lia.
  replace (n * 2 ^ (52 - Z.log2 n) * 100)
    with (100 * n * 2 ^ (52 - Z.log2 n)) by lia.
  apply round_half_even_div_scale; apply pow2_pos; lia.
Qed.

Lemma format_2f_scaled_of_int (n : Z) :
  0 <= n < 2 ^ 53 ->
  format_2f (scale_down_30 (of_int n))
  = (Fmt.str_of_nonneg (round_half_even_div (100 * n) (2 ^ 30) / 100)
     ++ "."
     ++ Fmt.zfill 2 (round_half_even_div (100 * n) (2 ^ 30) mod 100))%string.
Proof.
  intros H. destruct (Z.eq_dec n 0) as [->|N].
  - reflexivity.
  - rewrite of_int_pos by lia. cbn [scale_down_30 format_2f].
    rewrite hundredths_of_scaled by lia. reflexivity.
Qed.

(** The run with the [print]s ends as the run without them. *)
Lemma grafana_run_outcome (py : cpython) (args : Grafana.args_t)
    (w : world) :
  snd (fst (GrafanaRun.main py args w)) = snd (Grafana.main py args w) /\
  match fst (fst (GrafanaRun.main py args w)),
        fst (Grafana.main py args w) with
  | Ok _, Ok _ => True
  | Raise e, Raise e' => e = e'
  | _, _ => False
  end.
Proof.
  rewrite grafana_main_eq. unfold GrafanaRun.main.
  destruct (parse_date (Grafana.arg_from_date args)) as [start|e];
    [|split; reflexivity].
  destruct (t <- parse_date (Grafana.arg_to_date args) ;; add_days t 1)
    as [end_|e]; [|split; reflexivity].
  destruct (Grafana.aggregate_usage py (Grafana.arg_pool_id args) start end_
              (Grafana.arg_group_by args) w) as [[usage|e] w'];
    split; reflexivity.
Qed.

Lemma str_datetime_midnight (t : datetime) :
  hour t = 0 -> minute t = 0 -> second t = 0 -> microsecond t = 0 ->
  str_datetime t = (date_isoformat t ++ " 00:00:00")%string.
Proof.
  intros H M S U. unfold str_datetime. rewrite H, M, S, U. reflexivity.
Qed.

End Printing.

(** X19. The printed maximum of a row of byte counts: when the values of the
    bucket are whole, non-negative byte counts whose total is below
    [2^53], the figure printed for [max_gib] is the greatest count [n]
    divided by [2^30] and rounded once, ties to even, to two decimals:
    the whole part of the nearest number of hundredths, a point, and its
    last two digits. *)
Theorem printed_maximum_of_byte_counts :
  forall (py : cpython) (samples : list (float * float)) (group_by : string)
         (rows : list row) (r : row) (ns : list Z),
    aggregate_samples py samples group_by = Ok rows -> In r rows ->
    byte_counts (bucket_values samples group_by (period r)) ns ->
    exists n,
      In n ns /\ (forall k, In k ns -> k <= n) /\
      let h := round_half_even_div (100 * n) (2 ^ 30) in
      format_2f (max_gib r)
      = (Fmt.str_of_nonneg (h / 100) ++ "." ++ Fmt.zfill 2 (h mod 100))%string.
Proof.
  intros py samples group_by rows r ns H I B.
  destruct (aggregate_samples_row _ _ _ _ _ H I) as (_ & _ & M & _ & Mg).
  cbv zeta in M.
  destruct (max_of_byte_counts _ ns _ B M) as (n & In_n & Un & Em).
  destruct B as (_ & P & S).
  assert (0 <= n < 2 ^ 53) as Bn.
  { split; [now apply P|]. pose proof (In_le_Zsum ns n P In_n). lia. }
  exists n. split; [exact In_n|]. split; [exact Un|]. cbv zeta.
  rewrite Mg, Em, div_gib_of_int by assumption.
  now apply format_2f_scaled_of_int.
Qed.

Lemma printed_maximum_of_byte_counts_witness :
  aggregate_samples Since_3_12
    [(Examples.t0, Float64.of_int 1610612736);
     (Examples.t1, Float64.of_int 1073741824)] "day"
  = Ok [mk_row "2025-10-01"
          (Float64.of_int 1342177280) (Float64.of_int 1610612736)
          (Float64.div (Float64.of_int 1342177280)
                       (Float64.of_int 1073741824))
          (Float64.div (Float64.of_int 1610612736)
                       (Float64.of_int 1073741824))] /\
  byte_counts
    (bucket_values [(Examples.t0, Float64.of_int 1610612736);
                    (Examples.t1, Float64.of_int 1073741824)]
       "day" "2025-10-01")
    [1610612736; 1073741824] /\
  format_2f (Float64.div (Float64.of_int 1610612736)
                         (Float64.of_int 1073741824)) = "1.50".
Proof.
  assert (aggregate_samples Since_3_12
            [(Examples.t0, Float64.of_int 1610612736);
             (Examples.t1, Float64.of_int 1073741824)] "day"
          = Ok [mk_row "2025-10-01"
                  (Float64.of_int 1342177280) (Float64.of_int 1610612736)
                  (Float64.div (Float64.of_int 1342177280)
                               (Float64.of_int 1073741824))
                  (Float64.div (Float64.of_int 1610612736)
                               (Float64.of_int 1073741824))]) as E
      by (vm_compute; reflexivity).
  assert (byte_counts
            (bucket_values [(Examples.t0, Float64.of_int 1610612736);
                            (Examples.t1, Float64.of_int 1073741824)]
               "day" "2025-10-01")
            [1610612736; 1073741824]) as B.
  { split; [vm_compute; reflexivity|]. split; [|reflexivity].
    intros n [<-|[<-|[]]]; lia. }
  split; [exact E|]. split; [exact B|].
  destruct (printed_maximum_of_byte_counts _ _ _ _ _ _ E (or_introl eq_refl) B)
    as (n & In_n & Un & F).
  cbv zeta in F. cbn [max_gib] in F.
  assert (n = 1610612736) as ->.
  { pose proof (Un 1610612736 (or_introl eq_refl)).
    destruct In_n as [<-|[<-|[]]]; lia. }
  rewrite F. vm_compute. reflexivity.
Defined.

(** X21. What the Grafana script prints: nothing when a date does not parse or
    has no next day; otherwise four header lines before the fetch, which
    stay printed when the fetch or the aggregation fails, and after them
    one line for every row. The second header line shows the window as it
    is queried: the from-date and the day after the to-date, both at
    [00:00:00]. *)
Theorem grafana_main_prints :
  forall (py : cpython) (args : Grafana.args_t) (w : world),
    let run := GrafanaRun.main py args w in
    snd (fst run) = snd (Grafana.main py args w) /\
    match parse_date (Grafana.arg_from_date args),
          (t <- parse_date (Grafana.arg_to_date args) ;; add_days t 1) with
    | Ok from_date, Ok to_date =>
        let head :=
          [ "Pool ID: " ++ Grafana.arg_pool_id args;
            "Range : " ++ date_isoformat from_date ++ " 00:00:00 -> "
              ++ date_isoformat to_date ++ " 00:00:00";
            "Group : " ++ Grafana.arg_group_by args;
            str_mul "-" 60
          ] in
        match fst (Grafana.aggregate_usage py (Grafana.arg_pool_id args)
                     from_date to_date (Grafana.arg_group_by args) w) with
        | Ok usage =>
            fst (fst run) = Ok tt /\
            snd run = (head ++ map row_line usage)%list
        | Raise e => fst (fst run) = Raise e /\ snd run = head
        end
    | Raise e, _ => fst (fst run) = Raise e /\ snd run = []
    | Ok _, Raise e => fst (fst run) = Raise e /\ snd run = []
    end.
Proof.
  intros py args w. cbv zeta.
  split; [apply grafana_run_outcome|].
  unfold GrafanaRun.main.
  destruct (parse_date (Grafana.arg_from_date args)) as [start|e] eqn:Ps.
  2:{ destruct (t <- parse_date (Grafana.arg_to_date args) ;; add_days t 1);
        split; reflexivity. }
  destruct (t <- parse_date (Grafana.arg_to_date args) ;; add_days t 1)
    as [end_|e] eqn:Pe; [|split; reflexivity].
  destruct (parse_date_ok _ _ Ps) as (_ & Hs & Ms & Ss & Us).
  assert (hour end_ = 0 /\ minute end_ = 0 /\ second end_ = 0
          /\ microsecond end_ = 0) as (He & Me & Se & Ue).
  { destruct (parse_date (Grafana.arg_to_date args)) as [t|] eqn:Pt;
      [|discriminate].
    destruct (parse_date_ok _ _ Pt) as (_ & Ht & Mt & St & Ut).
    cbn [Py.bind] in Pe. unfold add_days in Pe.
    destruct ((1 <=? toordinal t + 1)
              && (toordinal t + 1 <=? Calendar.MAXORDINAL)); [|discriminate].
    destruct (Calendar.ord2ymd (toordinal t + 1)) as [[y m] d].
    injection Pe as <-. cbn [hour minute second microsecond]. auto. }
  assert (GrafanaRun.header (Grafana.arg_pool_id args) start end_
            (Grafana.arg_group_by args)
          = [ "Pool ID: " ++ Grafana.arg_pool_id args;
              "Range : " ++ date_isoformat start ++ " 00:00:00 -> "
                ++ date_isoformat end_ ++ " 00:00:00";
              "Group : " ++ Grafana.arg_group_by args;
              str_mul "-" 60
            ]) as Hd.
  { unfold GrafanaRun.header.
    rewrite (str_datetime_midnight start), (str_datetime_midnight end_)
      by assumption.
    rewrite !string_app_assoc. reflexivity. }
  destruct (Grafana.aggregate_usage py (Grafana.arg_pool_id args) start end_
              (Grafana.arg_group_by args) w) as [[usage|e] w'];
    cbn [fst snd]; rewrite Hd; split; reflexivity.
Qed.

(* ===================================================================== *)
(** * The window and the keys of its samples *)
(* ===================================================================== *)

Section WindowKeys.
Import Calendar.

Lemma add_days_ok (t e : datetime) :
  add_days t 1 = Ok e ->
  toordinal e = toordinal t + 1 /\ toordinal t + 1 <= MAXORDINAL.
Proof.
  unfold add_days.
  destruct (Z.leb_spec 1 (toordinal t + 1)); [|discriminate].
  destruct (Z.leb_spec (toordinal t + 1) MAXORDINAL); [|discriminate].
  cbn [andb].
  destruct (ord2ymd (toordinal t + 1)) as [[y m] d] eqn:E.
  intros [= <-]. unfold toordinal at 1. cbn [year month day].
  destruct (ord2ymd_spec _ _ _ _ E) as (_ & _ & O). lia.
Qed.

Lemma toordinal_range (t : datetime) :
  valid_date (year t) (month t) (day t) = true ->
  1 <= toordinal t <= MAXORDINAL.
Proof.
  intros V. apply valid_date_iff in V. destruct V as (Hy & Hm & Hd).
  now apply (ymd2ord_year_range _ _ _ Hm Hd).
Qed.

(** The day key of a whole second between the midnights of two dates. *)
Lemma day_key_between (a b : datetime) (n : Z) :
  valid_date (year a) (month a) (day a) = true ->
  valid_date (year b) (month b) (day b) = true ->
  midnight_second a <= n < midnight_second b + 86400 ->
  exists k,
    bucket_key (Float64.of_int n) "day" = Ok k /\
    str_le (date_isoformat a) k /\ str_le k (date_isoformat b).
Proof.
  intros Va Vb R. unfold midnight_second in R.
  pose proof (toordinal_range a Va) as Ra.
  pose proof (toordinal_range b Vb) as Rb.
  unfold MAXORDINAL, EPOCH_ORDINAL in *.
  assert (MIN_SECOND <= n <= MAX_SECOND) as Rn
      by (unfold MIN_SECOND, MAX_SECOND; lia).
  assert (- 2 ^ 53 < n < 2 ^ 53) as Bn by lia.
  destruct (bucket_key_accepted _ n 0 (timeval_of_int n Bn) Rn)
    as (y & m & d & V & (Hm & Hd & O) & _ & K & _).
  exists (day_key y m d). split; [exact K|].
  unfold epoch_day, EPOCH_ORDINAL in O.
  assert (toordinal a - 719163 <= n / 86400 <= toordinal b - 719163)
    as Q by div_lia.
  pose proof Va as Va'. pose proof Vb as Vb'.
  apply valid_date_iff in Va', Vb'.
  destruct Va' as (_ & Hma & Hda), Vb' as (_ & Hmb & Hdb).
  destruct (valid_date_fields _ _ _ Va) as (Hya & Hma' & Hda' & _).
  destruct (valid_date_fields _ _ _ Vb) as (Hyb & Hmb' & Hdb' & _).
  destruct (valid_date_fields _ _ _ V) as (Hy & Hm' & Hd' & _).
  unfold toordinal in Q.
  split.
  - apply (date_le_day_key (year a) (month a) (day a) y m d); try lia.
    apply ymd2ord_le_date_le; try assumption. lia.
  - apply (date_le_day_key y m d (year b) (month b) (day b)); try lia.
    apply ymd2ord_le_date_le; try assumption. lia.
Qed.

End WindowKeys.

(** X22. The window and the days of the report: a sample stamped with a
    whole second of the window that the scripts query, from the midnight
    of the from-date up to, and not including, the midnight after the
    to-date, gets a day key that is neither below the from-date nor above
    the to-date. A backend that keeps to the window gives no row outside
    the two dates, and one that returns the last second of the to-date
    gives a row for the to-date. *)
Theorem window_samples_get_window_dates :
  forall (from_date to_date : string) (start end_ : datetime) (n : Z),
    parse_date from_date = Ok start ->
    (t <- parse_date to_date ;; add_days t 1) = Ok end_ ->
    midnight_second start <= n < midnight_second end_ ->
    exists (k : string) (last_day : datetime),
      parse_date to_date = Ok last_day /\
      bucket_key (Float64.of_int n) "day" = Ok k /\
      str_le (date_isoformat start) k /\
      str_le k (date_isoformat last_day).
Proof.
  intros from_date to_date start end_ n Ps Pe R.
  destruct (parse_date to_date) as [t|] eqn:Pt; [|discriminate].
  cbn [Py.bind] in Pe. destruct (add_days_ok _ _ Pe) as [O _].
  destruct (parse_date_ok _ _ Ps) as (Vs & _).
  destruct (parse_date_ok _ _ Pt) as (Vt & _).
  destruct (day_key_between start t n Vs Vt) as (k & K & L1 & L2).
  { unfold midnight_second in *. rewrite O in R. lia. }
  exists k, t. auto.
Qed.

Lemma window_samples_get_window_dates_witness :
  parse_date "2025-10-01" = Ok Examples.oct_1st /\
  (t <- parse_date "2025-10-01" ;; add_days t 1) = Ok Examples.oct_2nd /\
  midnight_second Examples.oct_1st <= 1759363199
  < midnight_second Examples.oct_2nd /\
  bucket_key (Float64.of_int 1759363199) "day" = Ok "2025-10-01".
Proof.
  assert (parse_date "2025-10-01" = Ok Examples.oct_1st) as Ps
      by (vm_compute; reflexivity).
  assert ((t <- parse_date "2025-10-01" ;; add_days t 1)
          = Ok Examples.oct_2nd) as Pe by (vm_compute; reflexivity).
  assert (midnight_second Examples.oct_1st <= 1759363199
          < midnight_second Examples.oct_2nd) as R
      by (vm_compute; split; [discriminate | reflexivity]).
  split; [exact Ps|]. split; [exact Pe|]. split; [exact R|].
  destruct (window_samples_get_window_dates _ _ _ _ _ Ps Pe R)
    as (k & t & Pt & K & _).
  pose proof K as E. vm_compute in E. injection E as <-. exact K.
Defined.
